(** * CyberGuard IDS/IPS: a shallow embedding of the detection-and-evidence core

    The development follows the Python sources file by file:
    - [Audit]    : backend/services/blockchain_audit.py  (BlockchainAudit)
    - [Detector] : backend/main_realtime.py              (ThreatDetector)
    - [Monitor]  : backend/services/network_monitor.py   (NetworkMonitor)
    - [Hub]      : backend/services/websocket_manager.py (WebSocketManager)
    - [IDS]      : backend/services/ids_service.py       (IDSService)
    - [Kali]     : backend/services/kali_attack_detector.py (KaliAttackDetector)
    - [NetworkUtils] : backend/utils/network_utils.py

    Python integers are unbounded and are modelled by [Z]; Python floats are
    IEEE binary64 and are modelled by primitive floats; dictionaries keyed by
    strings are [gmap string _]; Python sets are [gset _]. *)

From Stdlib Require Import ZArith List String Ascii Bool Lia Floats.
From stdpp Require Import gmap strings list pretty sorting.
Import ListNotations.
Open Scope Z_scope.

(** ** Exceptions and outcomes of stateful calls *)

Inductive exn : Type :=
| ValueError (msg : string)
| IndexError
| JSONDecodeError
| RuntimeError (msg : string)
| ValidationError
| SendError.

(** A call on a mutable object either returns a value, or raises; in both
    cases the object is left in some state.  [OutOfFuel] stands for a loop
    that has not finished within the fuel given to the model. *)
Inductive outcome (S A : Type) : Type :=
| Ok (a : A) (s : S)
| Raise (e : exn) (s : S)
| OutOfFuel.
Arguments Ok {S A} a s.
Arguments Raise {S A} e s.
Arguments OutOfFuel {S A}.

(** ["0" * n] *)
Fixpoint zeros (n : nat) : string :=
  match n with
  | O => EmptyString
  | S k => String "0"%char (zeros k)
  end.

(** Number of leading ['0'] characters of a hex digest. *)
Fixpoint leading_zeros (s : string) : nat :=
  match s with
  | String c rest => if Ascii.eqb c "0"%char then S (leading_zeros rest) else O
  | EmptyString => O
  end.

(** [str.lower()] on the ASCII range. *)
Definition lower_ascii (c : ascii) : ascii :=
  let n := nat_of_ascii c in
  if (Nat.leb 65 n && Nat.leb n 90)%bool then ascii_of_nat (n + 32) else c.

Fixpoint lower (s : string) : string :=
  match s with
  | EmptyString => EmptyString
  | String c rest => String (lower_ascii c) (lower rest)
  end.

(* ===================================================================== *)
(** * backend/services/blockchain_audit.py *)
(* ===================================================================== *)

Module Audit.

(** A block is the dictionary built in [create_genesis_block] and
    [add_block].  ['hash'] is [None] until the block is mined, and
    ['previous_hash'] copies the ['hash'] entry of the previous block. *)
Record block (payload : Type) : Type := mkBlock {
  index : Z;
  timestamp : string;
  data : payload;
  previous_hash : option string;
  nonce : Z;
  hash : option string
}.
Arguments mkBlock {payload}.
Arguments index {payload}.
Arguments timestamp {payload}.
Arguments data {payload}.
Arguments previous_hash {payload}.
Arguments nonce {payload}.
Arguments hash {payload}.

Definition set_nonce {P} (b : block P) (n : Z) : block P :=
  mkBlock (index b) (timestamp b) (data b) (previous_hash b) n (hash b).
Definition set_hash {P} (b : block P) (h : option string) : block P :=
  mkBlock (index b) (timestamp b) (data b) (previous_hash b) (nonce b) h.
Definition set_data {P} (b : block P) (d : P) : block P :=
  mkBlock (index b) (timestamp b) d (previous_hash b) (nonce b) (hash b).

(** The object state: [self.chain] and [self.difficulty]. *)
Record audit (payload : Type) : Type := mkAudit {
  chain : list (block payload);
  difficulty : Z
}.
Arguments mkAudit {payload}.
Arguments chain {payload}.
Arguments difficulty {payload}.

(** The nonce budget of [_mine_block]. *)
Definition NONCE_BUDGET : Z := 1000000.

Section Chain.
(** Event payloads are JSON-serialisable dictionaries. *)
Variable payload : Type.
(** [json.dumps({...}, sort_keys=True)] of the five hashed fields. *)
Variable json_dumps : Z -> string -> payload -> option string -> Z -> string.
(** [hashlib.sha256(s.encode()).hexdigest()] *)
Variable sha256_hexdigest : string -> string.
(** The payload of the genesis block. *)
Variable genesis_data : payload.
(** [json.loads] on an exported chain; [None] when the text is not a
    JSON list of block dictionaries. *)
Variable json_loads : string -> option (list (block payload)).

Abbreviation blk := (block payload).
Abbreviation st := (audit payload).

Definition _calculate_hash (b : blk) : string :=
  sha256_hexdigest
    (json_dumps (index b) (timestamp b) (data b) (previous_hash b) (nonce b)).

(** [_mine_block]: the [while True] loop, one iteration per unit of fuel.
    The block's nonce and [self.difficulty] are mutated by the loop, so
    the result carries the digest, the block and the difficulty. *)
Fixpoint _mine_block (fuel : nat) (d : Z) (b : blk) : option (string * blk * Z) :=
  match fuel with
  | O => None
  | S fuel' =>
      let hash_result := _calculate_hash b in
      if String.prefix (zeros (Z.to_nat d)) hash_result then
        Some (hash_result, b, d)
      else
        let b1 := set_nonce b (nonce b + 1) in
        if nonce b1 >? NONCE_BUDGET then
          _mine_block fuel' (Z.max 1 (d - 1)) (set_nonce b1 0)
        else
          _mine_block fuel' d b1
  end.

Definition _is_valid_block (d : Z) (b previous_block : blk) : bool :=
  if negb (index b =? index previous_block + 1) then false
  else if negb (bool_decide (previous_hash b = hash previous_block)) then false
  else if negb (bool_decide (hash b = Some (_calculate_hash b))) then false
  else match hash b with
       | Some h => if negb (String.prefix (zeros (Z.to_nat d)) h) then false else true
       | None => false
       end.

(** One iteration of the loop of [is_chain_valid] at position [i]. *)
Definition valid_at (d : Z) (c : list blk) (i : nat) : bool :=
  match c !! i, c !! (i - 1)%nat with
  | Some current_block, Some previous_block =>
      _is_valid_block d current_block previous_block
  | _, _ => false
  end.

(** [for i in range(1, len(self.chain))]: false at the first failing
    position, true when the loop runs to its end. *)
Definition is_chain_valid (s : st) : bool :=
  forallb (valid_at (difficulty s) (chain s)) (seq 1 (length (chain s) - 1)).

Definition create_genesis_block (now : string) (fuel : nat) (s : st)
  : outcome st unit :=
  let genesis_block := mkBlock 0 now genesis_data (Some "0"%string) 0 None in
  match _mine_block fuel (difficulty s) genesis_block with
  | None => OutOfFuel
  | Some (h, b, d) => Ok tt (mkAudit (chain s ++ [set_hash b (Some h)]) d)
  end.

(** [BlockchainAudit()] *)
Definition init (now : string) (fuel : nat) : outcome st unit :=
  create_genesis_block now fuel (mkAudit [] 4).

Definition add_block (d : payload) (now : string) (fuel : nat) (s : st)
  : outcome st blk :=
  match last (chain s) with
  | None => Raise IndexError s
  | Some previous_block =>
      let new_block :=
        mkBlock (Z.of_nat (length (chain s))) now d (hash previous_block) 0 None in
      match _mine_block fuel (difficulty s) new_block with
      | None => OutOfFuel
      | Some (h, b, d') =>
          let new_block := set_hash b (Some h) in
          let s' := mkAudit (chain s) d' in
          if _is_valid_block d' new_block previous_block then
            Ok new_block (mkAudit (chain s ++ [new_block]) d')
          else
            Raise (ValueError "Invalid block") s'
      end
  end.

(** [import_chain]: the candidate is checked by a fresh
    [BlockchainAudit()] whose chain is overwritten with the import. *)
Definition import_chain (chain_data format : string) (now : string) (fuel : nat)
  (s : st) : outcome st unit :=
  if String.eqb (lower format) "json" then
    match json_loads chain_data with
    | None => Raise JSONDecodeError s
    | Some imported_chain =>
        match init now fuel with
        | Ok _ temp_blockchain =>
            let temp_blockchain := mkAudit imported_chain (difficulty temp_blockchain) in
            if is_chain_valid temp_blockchain then
              Ok tt (mkAudit imported_chain (difficulty s))
            else
              Raise (ValueError "Invalid blockchain data") s
        | Raise e _ => Raise e s
        | OutOfFuel => OutOfFuel
        end
    end
  else
    Raise (ValueError ("Unsupported import format: " ++ format)) s.

(** Assigning a new payload to the block at position [i] in place. *)
Definition mutate_data (i : nat) (d : payload) (s : st) : st :=
  match chain s !! i with
  | Some b => mkAudit (<[i := set_data b d]> (chain s)) (difficulty s)
  | None => s
  end.

(** States of an object that was constructed and then only extended by
    [add_block]. *)
Inductive built : st -> Prop :=
| built_init now fuel s :
    init now fuel = Ok tt s -> built s
| built_add s d now fuel b s' :
    built s -> add_block d now fuel s = Ok b s' -> built s'.

(** The validity invariant of the data model, position by position. *)
Definition chain_invariant (s : st) : Prop :=
  forall (i : nat) (cur prev : blk),
    (0 < i)%nat -> chain s !! i = Some cur -> chain s !! (i - 1)%nat = Some prev ->
    previous_hash cur = hash prev /\
    hash cur = Some (_calculate_hash cur) /\
    (Z.to_nat (difficulty s) <= leading_zeros (_calculate_hash cur))%nat.

(** Shape of a chain whose blocks are numbered by their position. *)
Definition well_formed (s : st) : Prop :=
  chain s <> [] /\ 1 <= difficulty s /\
  forall (i : nat) (b : blk), chain s !! i = Some b -> index b = Z.of_nat i.

End Chain.

(** *** A small instance for running the model

    [demo_dumps] and [demo_digest] stand in for [json.dumps] and SHA-256 in
    the examples: the text of a block starts with as many ['0'] as its
    nonce, and the digest is the text itself, so a block mined at
    difficulty [d] ends with nonce [d]. *)
Definition demo_dumps (i : Z) (t : string) (d : string) (p : option string) (n : Z)
  : string :=
  (zeros (Z.to_nat n) ++ ":" ++ d ++ "|" ++ t ++ "|"
     ++ match p with Some h => h | None => "null" end)%string.

Definition demo_digest (text : string) : string := text.

Definition demo_genesis : block string :=
  mkBlock 0 "2025-01-01T00:00:00" "genesis_block" (Some "0"%string) 0 None.

(** The chain after [BlockchainAudit()] and one [add_block]. *)
Definition demo_state : audit string :=
  match init string demo_dumps demo_digest "genesis_block" "2025-01-01T00:00:00" 8 with
  | Ok _ s =>
      match add_block string demo_dumps demo_digest "login" "2025-01-01T00:00:01" 8 s with
      | Ok _ s' => s'
      | _ => s
      end
  | _ => mkAudit [] 4
  end.


(** [json.loads] on a text that denotes the list [c]. *)
Definition demo_loads (c : list (block string)) (text : string)
  : option (list (block string)) := Some c.


End Audit.

(* ===================================================================== *)
(** * backend/main_realtime.py: ThreatDetector *)
(* ===================================================================== *)

Module Detector.

(** The layers of a captured packet that [detect_attack] looks at;
    [haslayer(L)] is [is_Some] of the corresponding field. *)
Record ip_layer := mkIP { src : string; dst : string }.
Record tcp_layer := mkTCP { sport : Z; dport : Z; flags : Z }.
Record icmp_layer := mkICMP { icmp_type : Z; icmp_code : Z }.
Record arp_layer := mkARP { op : Z }.

Record packet := mkPacket {
  ip : option ip_layer;
  tcp : option tcp_layer;
  icmp : option icmp_layer;
  arp : option arp_layer
}.

(** The ['raw_data'] entry of a threat. *)
Inductive raw_data :=
| RawTCP (src_port dst_port tcp_flags : Z)
| RawScan (scanned_ports : list Z) (total_ports : Z)
| RawICMP (type code : Z)
| RawARP (operation : Z).

Record threat := mkThreat {
  id : string;
  timestamp : string;
  source_ip : string;
  destination_ip : string;
  attack_type : string;
  threat_level : string;
  confidence : float;
  description : string;
  blocked : bool;
  raw : raw_data
}.

(** [self.target_ip] and [self.attack_patterns]: one counter (or port set)
    and one threshold per pattern, shared by all sources. *)
Record detector := mkDetector {
  target_ip : string;
  syn_flood_count : Z;
  syn_flood_threshold : Z;
  port_scan_ports : gset Z;
  port_scan_threshold : Z;
  icmp_flood_count : Z;
  icmp_flood_threshold : Z;
  arp_scan_count : Z;
  arp_scan_threshold : Z
}.

(** [ThreatDetector()] *)
Definition new_detector : detector :=
  mkDetector "192.168.100.124" 0 50 ∅ 10 0 20 0 30.

Definition set_syn_count (s : detector) (c : Z) : detector :=
  mkDetector (target_ip s) c (syn_flood_threshold s)
    (port_scan_ports s) (port_scan_threshold s)
    (icmp_flood_count s) (icmp_flood_threshold s)
    (arp_scan_count s) (arp_scan_threshold s).
Definition set_ports (s : detector) (ports : gset Z) : detector :=
  mkDetector (target_ip s) (syn_flood_count s) (syn_flood_threshold s)
    ports (port_scan_threshold s)
    (icmp_flood_count s) (icmp_flood_threshold s)
    (arp_scan_count s) (arp_scan_threshold s).
Definition set_icmp_count (s : detector) (c : Z) : detector :=
  mkDetector (target_ip s) (syn_flood_count s) (syn_flood_threshold s)
    (port_scan_ports s) (port_scan_threshold s)
    c (icmp_flood_threshold s)
    (arp_scan_count s) (arp_scan_threshold s).
Definition set_arp_count (s : detector) (c : Z) : detector :=
  mkDetector (target_ip s) (syn_flood_count s) (syn_flood_threshold s)
    (port_scan_ports s) (port_scan_threshold s)
    (icmp_flood_count s) (icmp_flood_threshold s)
    c (arp_scan_threshold s).

(** [list(ports)[-10:]]: the last ten entries of the set's iteration
    order.  [elements] stands for that order, which Python leaves
    unspecified. *)
Definition last_ten (ports : gset Z) : list Z :=
  let l := elements ports in drop (length l - 10) l.

(** [detect_attack]; [uid] and [now] are the values of [uuid.uuid4()] and
    [datetime.now().isoformat()] that the call would read. *)
Definition detect_attack (pkt : packet) (uid now : string) (s : detector)
  : detector * option threat :=
  match ip pkt with
  | None => (s, None)
  | Some l3 =>
      let src_ip := src l3 in
      let dst_ip := dst l3 in
      if negb (String.eqb dst_ip (target_ip s)) then (s, None)
      else
        match tcp pkt, icmp pkt, arp pkt with
        | Some t, _, _ =>
            if flags t =? 2 then
              (* TCP SYN flood detection *)
              let s1 := set_syn_count s (syn_flood_count s + 1) in
              if syn_flood_count s1 >? syn_flood_threshold s1 then
                (set_syn_count s1 0,
                 Some (mkThreat uid now src_ip dst_ip "Flood Attacks" "HIGH" 95
                         ("SYN flood attack detected from " ++ src_ip) false
                         (RawTCP (sport t) (dport t) (flags t))))
              else (s1, None)
            else
              (* port scan detection *)
              let s1 := set_ports s ({[dport t]} ∪ port_scan_ports s) in
              let n := Z.of_nat (size (port_scan_ports s1)) in
              if n >? port_scan_threshold s1 then
                (set_ports s1 ∅,
                 Some (mkThreat uid now src_ip dst_ip "Reconnaissance" "MEDIUM" 85
                         ("Port scan detected from " ++ src_ip ++ " - "
                            ++ pretty n ++ " ports scanned") false
                         (RawScan (last_ten (port_scan_ports s1)) n)))
              else (s1, None)
        | None, Some i, _ =>
            let s1 := set_icmp_count s (icmp_flood_count s + 1) in
            if icmp_flood_count s1 >? icmp_flood_threshold s1 then
              (set_icmp_count s1 0,
               Some (mkThreat uid now src_ip dst_ip "Flood Attacks" "MEDIUM" 80
                       ("ICMP flood attack detected from " ++ src_ip) false
                       (RawICMP (icmp_type i) (icmp_code i))))
            else (s1, None)
        | None, None, Some a =>
            let s1 := set_arp_count s (arp_scan_count s + 1) in
            if arp_scan_count s1 >? arp_scan_threshold s1 then
              (set_arp_count s1 0,
               Some (mkThreat uid now src_ip dst_ip "Reconnaissance" "LOW" 70
                       ("ARP scan detected from " ++ src_ip) false
                       (RawARP (op a))))
            else (s1, None)
        | None, None, None => (s, None)
        end
  end.

(** One captured packet together with the identifier and the clock reading
    that an alert on it would get. *)
Record arrival := mkArrival { pkt : packet; uid : string; at_time : string }.

(** The detector driven by a packet sequence: the final state and what
    [detect_attack] returned for each packet, in order. *)
Fixpoint feed (s : detector) (arrivals : list arrival)
  : detector * list (option threat) :=
  match arrivals with
  | [] => (s, [])
  | a :: rest =>
      let '(s1, r) := detect_attack (pkt a) (uid a) (at_time a) s in
      let '(s2, rs) := feed s1 rest in
      (s2, r :: rs)
  end.

(** A TCP packet from [from] to [to] with the given flags byte. *)
Definition tcp_packet (from to : string) (sp dp fl : Z) : packet :=
  mkPacket (Some (mkIP from to)) (Some (mkTCP sp dp fl)) None None.

(** The packet is a TCP segment addressed to the monitored target. *)
Definition tcp_to_target (s : detector) (p : packet) : option tcp_layer :=
  match ip p, tcp p with
  | Some l3, Some t => if String.eqb (dst l3) (target_ip s) then Some t else None
  | _, _ => None
  end.

(** SYN-only: the flags byte is exactly SYN (0x02). *)
Definition is_syn_only (s : detector) (p : packet) : bool :=
  match tcp_to_target s p with
  | Some t => flags t =? 2
  | None => false
  end.

(** Destination port of a TCP segment to the target that is not SYN-only. *)
Definition scan_port (s : detector) (p : packet) : option Z :=
  match tcp_to_target s p with
  | Some t => if flags t =? 2 then None else Some (dport t)
  | None => None
  end.

(** Eleven arrivals from one source to the ports 1..11 of the target. *)
Definition demo_scan (fl : Z) : list arrival :=
  map (fun p => mkArrival
                  (tcp_packet "192.168.100.152" "192.168.100.124" 40000 (Z.of_nat p) fl)
                  "uid" "2025-01-01T00:00:00")
      (seq 1 11).

(** Fifty-one SYN-only arrivals from one source to port 80 of the target. *)
Definition demo_syn_flood : list arrival :=
  repeat (mkArrival (tcp_packet "192.168.100.152" "192.168.100.124" 40000 80 2)
            "uid" "2025-01-01T00:00:00") 51.

(** Fifty-one segments from one source to port 80 of the target whose
    flags are SYN, ECE and CWR (0xC2): SYN is set and ACK (0x10) is not. *)
Definition demo_ecn_syn_flood : list arrival :=
  repeat (mkArrival (tcp_packet "192.168.100.152" "192.168.100.124" 40000 80 194)
            "uid" "2025-01-01T00:00:00") 51.

(** Ten SYN-only arrivals from another source to port 80 of the target. *)
Definition demo_other_source : list arrival :=
  repeat (mkArrival (tcp_packet "192.168.100.153" "192.168.100.124" 40001 80 2)
            "uid" "2025-01-01T00:00:00") 10.

End Detector.

(* ===================================================================== *)
(** * backend/models/schemas.py and backend/services/ids_service.py *)
(* ===================================================================== *)

Module IDS.

(** [class ThreatLevel(str, Enum)] *)
Inductive ThreatLevel := LOW | MEDIUM | HIGH | CRITICAL.

(** [class AttackType(str, Enum)] *)
Inductive AttackType :=
| FLOOD_ATTACK | BOTNET_MIRAI | BACKDOOR_EXPLOIT | INJECTION_ATTACK
| RECONNAISSANCE | SPOOFING_MITM | BENIGN.

(** [member.value] *)
Definition level_value (l : ThreatLevel) : string :=
  match l with
  | LOW => "LOW" | MEDIUM => "MEDIUM" | HIGH => "HIGH" | CRITICAL => "CRITICAL"
  end.

Definition attack_value (a : AttackType) : string :=
  match a with
  | FLOOD_ATTACK => "Flood Attacks"
  | BOTNET_MIRAI => "Botnet/Mirai Attacks"
  | BACKDOOR_EXPLOIT => "Backdoors & Exploits"
  | INJECTION_ATTACK => "Injection Attacks"
  | RECONNAISSANCE => "Reconnaissance"
  | SPOOFING_MITM => "Spoofing / MITM"
  | BENIGN => "Benign"
  end.

(** [Enum(value)]: the member with that value, [None] where Python raises
    ValueError. *)
Definition member_of {E : Type} (members : list E) (value : E -> string) (v : string)
  : option E :=
  List.find (fun m => String.eqb (value m) v) members.

Definition ThreatLevel_of (v : string) : option ThreatLevel :=
  member_of [LOW; MEDIUM; HIGH; CRITICAL] level_value v.

Definition AttackType_of (v : string) : option AttackType :=
  member_of [FLOOD_ATTACK; BOTNET_MIRAI; BACKDOOR_EXPLOIT; INJECTION_ATTACK;
             RECONNAISSANCE; SPOOFING_MITM; BENIGN] attack_value v.

(** The binary64 value of the literal [0.7]. *)
Definition CONFIDENCE_CUT : float := 0x1.6666666666666p-1%float.

(** The two dictionaries of [_get_threat_level]. *)
Definition threat_mapping : gmap string string :=
  list_to_map
    [("Flood Attacks", "HIGH"); ("Botnet/Mirai Attacks", "HIGH");
     ("Backdoors & Exploits", "CRITICAL"); ("Injection Attacks", "HIGH");
     ("Spoofing / MITM", "MEDIUM"); ("Reconnaissance", "LOW")]%string.

Definition level_downgrade : gmap string string :=
  list_to_map
    [("CRITICAL", "HIGH"); ("HIGH", "MEDIUM"); ("MEDIUM", "LOW"); ("LOW", "LOW")]%string.

Definition _get_threat_level (class_name : string) (confidence : float) : string :=
  if String.eqb class_name "Benign" then "LOW"%string
  else
    let base_level := default "MEDIUM"%string (threat_mapping !! class_name) in
    if (confidence <? CONFIDENCE_CUT)%float then
      default "LOW"%string (level_downgrade !! base_level)
    else base_level.

(** The fixed table of the specification: base level per label, and one
    step down the scale. *)
Definition base_level (class_name : string) : ThreatLevel :=
  if String.eqb class_name "Benign" then LOW
  else if String.eqb class_name "Flood Attacks" then HIGH
  else if String.eqb class_name "Botnet/Mirai Attacks" then HIGH
  else if String.eqb class_name "Backdoors & Exploits" then CRITICAL
  else if String.eqb class_name "Injection Attacks" then HIGH
  else if String.eqb class_name "Spoofing / MITM" then MEDIUM
  else if String.eqb class_name "Reconnaissance" then LOW
  else MEDIUM.

Definition one_step_down (l : ThreatLevel) : ThreatLevel :=
  match l with
  | CRITICAL => HIGH | HIGH => MEDIUM | MEDIUM => LOW | LOW => LOW
  end.

(** The features extracted from one packet ([packet_info]). *)
Record packet_info := mkInfo {
  info_source_ip : string;
  info_destination_ip : string;
  info_protocol : Z;
  info_packet_size : Z;
  info_ttl : Z
}.

(** [class ThreatAlert(BaseModel)] *)
Record ThreatAlert := mkAlert {
  id : string;
  timestamp : string;
  source_ip : string;
  destination_ip : string;
  attack_type : AttackType;
  threat_level : ThreatLevel;
  confidence : float;
  description : string;
  blocked : bool;
  raw_data : option packet_info
}.

Definition set_blocked (a : ThreatAlert) (b : bool) : ThreatAlert :=
  mkAlert (id a) (timestamp a) (source_ip a) (destination_ip a) (attack_type a)
    (threat_level a) (confidence a) (description a) b (raw_data a).

(** The part of [IDSService] that the alert path reads and writes. *)
Record ids := mkIDS {
  is_initialized : bool;
  model_loaded : bool;
  recent_alerts : list ThreatAlert;
  total_attacks : Z;
  blocked_attacks : Z;
  attack_types : gmap string Z
}.

Definition set_alerts (s : ids) (alerts : list ThreatAlert) (blocked_n : Z) : ids :=
  mkIDS (is_initialized s) (model_loaded s) alerts (total_attacks s) blocked_n
    (attack_types s).

Section Predict.
(** The loaded pipeline: scaler, model and label encoder applied to the
    features, giving the class name and [max(prediction_proba)]. *)
Variable classify : packet_info -> string * float.
(** [f"Detected {class_name} with {confidence:.2%} confidence"] *)
Variable describe : string -> float -> string.

(** [predict_attack]; [uid] and [now] are the values read from
    [uuid.uuid4()] and [datetime.utcnow()].  The [confidence] field of
    [ThreatAlert] is declared with [ge=0.0, le=1.0]. *)
Definition predict_attack (network_features : packet_info) (uid now : string) (s : ids)
  : outcome ids ThreatAlert :=
  if (negb (is_initialized s) || negb (model_loaded s))%bool then
    Raise (RuntimeError "IDS Service not initialized") s
  else
    let '(class_name, confidence) := classify network_features in
    let threat_level := _get_threat_level class_name confidence in
    match (if negb (String.eqb class_name "Benign")
           then AttackType_of class_name else Some BENIGN),
          ThreatLevel_of threat_level with
    | Some ty, Some lv =>
        if ((0 <=? confidence) && (confidence <=? 1))%float then
          let alert :=
            mkAlert uid now (info_source_ip network_features)
              (info_destination_ip network_features) ty lv confidence
              (describe class_name confidence) false (Some network_features) in
          if negb (String.eqb class_name "Benign") then
            let alerts := recent_alerts s ++ [alert] in
            let alerts := drop (length alerts - 100) alerts in
            let blocked_n :=
              if blocked alert then blocked_attacks s + 1 else blocked_attacks s in
            Ok alert
              (mkIDS (is_initialized s) (model_loaded s) alerts
                 (total_attacks s + 1) blocked_n
                 (<[class_name := default 0 (attack_types s !! class_name) + 1]>
                    (attack_types s)))
          else Ok alert s
        else Raise ValidationError s
    | _, _ => Raise (ValueError "not a valid enum value") s
    end.
End Predict.

(** The loop of [block_threat]: the first alert whose id matches is marked
    in place; [None] when the loop ends without a match. *)
Fixpoint block_first (threat_id : string) (alerts : list ThreatAlert)
  : option (list ThreatAlert) :=
  match alerts with
  | [] => None
  | alert :: rest =>
      if String.eqb (id alert) threat_id then Some (set_blocked alert true :: rest)
      else cons alert <$> block_first threat_id rest
  end.

Definition block_threat (threat_id : string) (s : ids) : ids * bool :=
  match block_first threat_id (recent_alerts s) with
  | Some alerts => (set_alerts s alerts (blocked_attacks s + 1), true)
  | None => (s, false)
  end.

(** The loop of [unblock_threat]: the list after the call and the change of
    the [blocked_attacks] counter. *)
Fixpoint unblock_first (threat_id : string) (alerts : list ThreatAlert)
  : option (list ThreatAlert * Z) :=
  match alerts with
  | [] => None
  | alert :: rest =>
      if String.eqb (id alert) threat_id then
        if blocked alert then Some (set_blocked alert false :: rest, -1)
        else Some (alert :: rest, 0)
      else
        prod_map (cons alert) (fun x => x) <$> unblock_first threat_id rest
  end.

Definition unblock_threat (threat_id : string) (s : ids) : ids * bool :=
  match unblock_first threat_id (recent_alerts s) with
  | Some (alerts, delta) => (set_alerts s alerts (blocked_attacks s + delta), true)
  | None => (s, false)
  end.

(** Two stored alerts, the second one already blocked. *)
Definition demo_alert (uid : string) (b : bool) : ThreatAlert :=
  mkAlert uid "2025-01-01T00:00:00" "10.0.0.55" "192.168.1.10" BOTNET_MIRAI HIGH
    0x1.f5c28f5c28f5cp-1 "Mirai botnet activity detected" b None.


End IDS.

(* ===================================================================== *)
(** * backend/services/websocket_manager.py *)
(* ===================================================================== *)

Module Hub.

(** A [WebSocket] object, by identity. *)
Definition conn := nat.

Record info := mkInfo {
  connected_at : string;
  user_id : option string;
  subscriptions : list string
}.

Record manager := mkManager {
  active_connections : list conn;
  connection_info : gmap conn info
}.

(** [list.remove(x)]: the first occurrence only. *)
Fixpoint remove_first (x : conn) (l : list conn) : list conn :=
  match l with
  | [] => []
  | y :: rest => if Nat.eqb y x then rest else y :: remove_first x rest
  end.

Definition connect (websocket : conn) (s : manager) : manager :=
  mkManager (active_connections s ++ [websocket])
    (<[websocket := mkInfo "now" None []]> (connection_info s)).

Definition disconnect (websocket : conn) (s : manager) : manager :=
  if bool_decide (websocket ∈ active_connections s) then
    mkManager (remove_first websocket (active_connections s))
      (delete websocket (connection_info s))
  else s.

Definition get_connection_count (s : manager) : nat :=
  length (active_connections s).

Section Sockets.
(** [connection.client_state.name == 'CONNECTED'] *)
Variable connected : conn -> bool.
(** [await connection.send_text(message)]: [Some e] when the call raises. *)
Variable send_text : conn -> string -> option exn.

(** The first loop of [broadcast] over the copy of the list: the
    connections the message was delivered to, and the list
    [disconnected], both in iteration order. *)
Fixpoint send_all (message : string) (connections : list conn)
  : list conn * list conn :=
  match connections with
  | [] => ([], [])
  | connection :: rest =>
      let '(delivered, disconnected) := send_all message rest in
      if connected connection then
        match send_text connection message with
        | None => (connection :: delivered, disconnected)
        | Some _ => (delivered, connection :: disconnected)
        end
      else (delivered, connection :: disconnected)
  end.

(** [broadcast]: the manager afterwards and the connections that received
    the message. *)
Definition broadcast (message : string) (s : manager) : manager * list conn :=
  let '(delivered, disconnected) := send_all message (active_connections s) in
  (fold_left (fun s' connection => disconnect connection s') disconnected s,
   delivered).
End Sockets.

(** Three subscribers; delivery to subscriber 2 raises. *)
Definition demo_manager : manager :=
  connect 3%nat (connect 2%nat (connect 1%nat (mkManager [] ∅))).
Definition demo_send (c : conn) (message : string) : option exn :=
  if Nat.eqb c 2%nat then Some SendError else None.

End Hub.

(* ===================================================================== *)
(** * backend/services/network_monitor.py *)
(* ===================================================================== *)

Module Monitor.

(** One entry of [pcap_buffer]: the capture time ([datetime.now()], in
    microseconds), the raw bytes and the extracted features. *)
Record frame := mkFrame {
  timestamp : Z;
  raw_bytes : list Byte.byte;
  packet_info : IDS.packet_info
}.

(** [self.pcap_window_seconds = 30], in microseconds. *)
Definition pcap_window : Z := 30 * 1000000.

(** The per-connection cap of [_process_packet]. *)
Definition PER_KEY_CAP : nat := 100.

(** [f"{a}_{b}"] *)
Definition packet_key (a b : string) : string := (a ++ "_" ++ b)%string.

(** [_process_packet], the statements that maintain [pcap_buffer]: the
    frame is appended under the key of its direction and the last 100
    entries of that key are kept.  [now] is the reading of
    [datetime.now()]. *)
Definition _process_packet (info : IDS.packet_info) (raw : list Byte.byte) (now : Z)
  (pcap_buffer : gmap string (list frame)) : gmap string (list frame) :=
  let key := packet_key (IDS.info_source_ip info) (IDS.info_destination_ip info) in
  let buf1 :=
    match pcap_buffer !! key with
    | None => <[key := []]> pcap_buffer
    | Some _ => pcap_buffer
    end in
  let entries := default [] (buf1 !! key) ++ [mkFrame now raw info] in
  let buf2 := <[key := entries]> buf1 in
  if (PER_KEY_CAP <? length entries)%nat then
    <[key := drop (length entries - PER_KEY_CAP) entries]> buf2
  else buf2.

(** [list.sort(key=lambda x: x['timestamp'])]: the stable sort. *)
Fixpoint insert_frame (x : frame) (l : list frame) : list frame :=
  match l with
  | [] => [x]
  | y :: rest =>
      if timestamp x <=? timestamp y then x :: y :: rest
      else y :: insert_frame x rest
  end.

Fixpoint sort_frames (l : list frame) : list frame :=
  match l with
  | [] => []
  | x :: rest => insert_frame x (sort_frames rest)
  end.


(** The frames of one key that are inside the window at clock reading
    [now]. *)
Definition recent_of (pcap_buffer : gmap string (list frame)) (key : string) (now : Z)
  : list frame :=
  match pcap_buffer !! key with
  | Some entries =>
      let cutoff_time := now - pcap_window in
      List.filter (fun pkt => cutoff_time <=? timestamp pkt) entries
  | None => []
  end.

Section Pcap.
(** [Ether(raw_bytes)] succeeds on these bytes. *)
Variable reconstructs : list Byte.byte -> bool.
(** [from scapy.all import wrpcap, PcapWriter] succeeds. *)
Variable scapy_available : bool.
(** [wrpcap(pcap_buffer, temp_packets)] followed by
    [pcap_buffer.getvalue()]: the bytes read back, or [None] when one of
    the two calls raises, as [getvalue] does on a buffer that the writer
    has closed. *)
Variable wrpcap_getvalue : list frame -> option (list Byte.byte).

(** The list [temp_packets] that [_generate_pcap_for_threat] hands to
    [wrpcap]: the frames of the two keys that are inside the window,
    sorted by capture time, as far as scapy reconstructs them.  [now1]
    and [now2] are the clock readings taken when the first and the second
    key are examined. *)
Definition temp_packets (source_ip dest_ip : string) (now1 now2 : Z)
  (pcap_buffer : gmap string (list frame)) : list frame :=
  let packet_key1 := packet_key source_ip dest_ip in
  let packet_key2 := packet_key dest_ip source_ip in
  let relevant_packets :=
    recent_of pcap_buffer packet_key1 now1 ++ recent_of pcap_buffer packet_key2 now2 in
  let relevant_packets := sort_frames relevant_packets in
  List.filter (fun pkt_data => reconstructs (raw_bytes pkt_data)) relevant_packets.

(** [_generate_pcap_for_threat]: the bytes returned, or [None].  Every
    exception is caught and gives [None]. *)
Definition _generate_pcap_for_threat (source_ip dest_ip : string) (now1 now2 : Z)
  (pcap_buffer : gmap string (list frame)) : option (list Byte.byte) :=
  if negb scapy_available then None
  else
    let packet_key1 := packet_key source_ip dest_ip in
    let packet_key2 := packet_key dest_ip source_ip in
    let relevant_packets :=
      recent_of pcap_buffer packet_key1 now1 ++ recent_of pcap_buffer packet_key2 now2 in
    match relevant_packets with
    | [] => None
    | _ =>
        let packets := temp_packets source_ip dest_ip now1 now2 pcap_buffer in
        match packets with
        | [] => None
        | _ :: _ => wrpcap_getvalue packets
        end
    end.
End Pcap.



(** The settings read by [_analyze_packet_for_threats]. *)
Record settings := mkSettings {
  LOCAL_NETWORK_ONLY : bool;
  LOCAL_NETWORK_SUBNET : string;
  MONITOR_INTERNAL_ATTACKS : bool
}.

(** The defaults of core/config.py. *)
Definition default_settings : settings :=
  mkSettings false "192.168.100.0/24" true.

(** What leaves the monitor for one analysed packet. *)
Inductive event :=
| Broadcast (alert : IDS.ThreatAlert)
| SaveThreat (alert : IDS.ThreatAlert) (pcap_data : option (list Byte.byte)).

Section Analyze.
Variable classify : IDS.packet_info -> string * float.
Variable describe : string -> float -> string.
Variable reconstructs : list Byte.byte -> bool.
(** [utils.network_utils.is_local_network_ip] *)
Variable is_local_network_ip : string -> string -> bool.
Variable cfg : settings.
(** [self.websocket_manager] is set. *)
Variable has_websocket_manager : bool.
Variable scapy_available : bool.
Variable wrpcap_getvalue : list frame -> option (list Byte.byte).

Definition is_internal_attack (source_ip dest_ip local_subnet : string) : bool :=
  is_local_network_ip source_ip local_subnet
  && is_local_network_ip dest_ip local_subnet.

(** The local-network pre-filter: [true] when the packet is skipped. *)
Definition filtered_out (info : IDS.packet_info) : bool :=
  if LOCAL_NETWORK_ONLY cfg then
    let source_ip := IDS.info_source_ip info in
    let dest_ip := IDS.info_destination_ip info in
    let subnet := LOCAL_NETWORK_SUBNET cfg in
    if negb (is_local_network_ip source_ip subnet || is_local_network_ip dest_ip subnet)
    then true
    else if MONITOR_INTERNAL_ATTACKS cfg
            && negb (is_internal_attack source_ip dest_ip subnet)
         then negb (is_local_network_ip source_ip subnet)
         else false
  else false.

(** [_analyze_packet_for_threats]: the state of the IDS service afterwards
    and the alerts sent out.  An exception of [predict_attack] is caught
    and logged. *)
Definition _analyze_packet_for_threats (info : IDS.packet_info) (uid now : string)
  (now1 now2 : Z) (pcap_buffer : gmap string (list frame)) (s : IDS.ids)
  : IDS.ids * list event :=
  if filtered_out info then (s, [])
  else
    match IDS.predict_attack classify describe info uid now s with
    | Ok threat_alert s' =>
        if negb (String.eqb (IDS.attack_value (IDS.attack_type threat_alert)) "BENIGN")
           && (IDS.CONFIDENCE_CUT <? IDS.confidence threat_alert)%float
        then
          let pcap_data :=
            _generate_pcap_for_threat reconstructs scapy_available wrpcap_getvalue
              (IDS.source_ip threat_alert) (IDS.destination_ip threat_alert)
              now1 now2 pcap_buffer in
          (s', (if has_websocket_manager then [Broadcast threat_alert] else [])
                 ++ [SaveThreat threat_alert pcap_data])
        else (s', [])
    | Raise _ s' => (s', [])
    | OutOfFuel => (s, [])
    end.
End Analyze.

(** A classifier that labels every packet "Benign" with confidence 0.9. *)
Definition benign_classifier (info : IDS.packet_info) : string * float :=
  ("Benign"%string, 0x1.ccccccccccccdp-1%float).

Definition demo_info : IDS.packet_info :=
  IDS.mkInfo "192.168.100.152" "192.168.100.124" 6 60 64.


(** One frame each way, captured at 5 s and at 3 s. *)
Definition small_buffer : gmap string (list frame) :=
  _process_packet (IDS.mkInfo "192.168.100.124" "192.168.100.152" 6 60 64) [] 3000000
    (_process_packet demo_info [] 5000000 ∅).

(** A service with a loaded model and no alert yet. *)
Definition fresh_ids : IDS.ids := IDS.mkIDS true true [] 0 0 ∅.

(** A writer that closes the buffer it is given, so that [getvalue()]
    raises ValueError. *)
Definition closing_writer (packets : list frame) : option (list Byte.byte) := None.

End Monitor.

(* ===================================================================== *)
(** * Python list slices *)
(* ===================================================================== *)

(** [l[start:]]: a negative [start] counts from the end, and both ends are
    clamped to the list. *)
Definition py_slice_from {A : Type} (start : Z) (l : list A) : list A :=
  let len := Z.of_nat (length l) in
  let i := if start <? 0 then Z.max (len + start) 0 else Z.min start len in
  drop (Z.to_nat i) l.

(* ===================================================================== *)
(** * backend/services/blockchain_audit.py: queries, statistics, export *)
(* ===================================================================== *)

Module AuditApi.
Import Audit.

(** The dictionary returned by [get_chain_stats]. *)
Record chain_stats := mkStats {
  total_blocks : nat;
  chain_valid : bool;
  latest_block_hash : option string;
  genesis_timestamp : string;
  latest_timestamp : string;
  event_types : gmap string Z;
  stats_difficulty : Z
}.

Section Queries.
Variable payload : Type.
Variable json_dumps : Z -> string -> payload -> option string -> Z -> string.
Variable sha256_hexdigest : string -> string.
(** The ['event'] entry of a payload: [None] when the payload is not a
    dictionary, [Some None] when it is one without that key. *)
Variable event_of : payload -> option (option string).
(** [json.dumps(self.chain, indent=2)] *)
Variable dumps_chain : list (block payload) -> string.

Abbreviation blk := (block payload).
Abbreviation st := (audit payload).

Definition get_recent_blocks (n : Z) (s : st) : list blk :=
  if Z.of_nat (length (chain s)) >=? n then py_slice_from (- n) (chain s)
  else chain s.

Definition get_block_by_index (i : Z) (s : st) : option blk :=
  if (0 <=? i) && (i <? Z.of_nat (length (chain s))) then chain s !! Z.to_nat i
  else None.

(** [isinstance(block['data'], dict) and block['data'].get('event') == event_type] *)
Definition has_event (event_type : string) (b : blk) : bool :=
  match event_of (data b) with
  | Some (Some e) => String.eqb e event_type
  | _ => false
  end.

Definition get_blocks_by_event_type (event_type : string) (s : st) : list blk :=
  List.filter (has_event event_type) (chain s).

(** The counting loop of [get_chain_stats] over [self.chain[1:]]. *)
Definition count_event (event_types : gmap string Z) (b : blk) : gmap string Z :=
  match event_of (data b) with
  | Some e =>
      let event := default "unknown"%string e in
      <[event := default 0 (event_types !! event) + 1]> event_types
  | None => event_types
  end.

Definition get_chain_stats (s : st) : option chain_stats :=
  match chain s, last (chain s) with
  | first :: rest, Some latest =>
      Some (mkStats (length (chain s))
              (is_chain_valid payload json_dumps sha256_hexdigest s)
              (hash latest) (timestamp first) (timestamp latest)
              (fold_left count_event rest ∅)
              (difficulty s))
  | _, _ => None
  end.

Definition export_chain (format : string) (s : st) : exn + string :=
  if String.eqb (lower format) "json" then inr (dumps_chain (chain s))
  else inl (ValueError ("Unsupported export format: " ++ format)).

(** The counter [get_chain_stats] files a block under. *)
Definition stats_event (b : blk) : option string :=
  default "unknown"%string <$> event_of (data b).

End Queries.

(** The ['event'] entry of the demo payloads, which are event names. *)
Definition demo_event_of (d : string) : option (option string) := Some (Some d).

(** [demo_state] after one more [add_block]. *)
Definition demo_state3 : audit string :=
  match add_block string demo_dumps demo_digest "logout" "2025-01-01T00:00:02" 8
          demo_state with
  | Ok _ s => s
  | _ => demo_state
  end.

End AuditApi.

(* ===================================================================== *)
(** * backend/main_realtime.py: the packet handler and its globals *)
(* ===================================================================== *)

Module Realtime.
Import Detector.

(** The bound of the global [threats] list. *)
Definition MAX_THREATS : nat := 1000.

(** The global [stats] dictionary. *)
Record stats := mkStats {
  total_threats : Z;
  threat_levels : gmap string Z;
  attack_types : gmap string Z;
  last_updated : string
}.

(** The module globals next to the detector: [threats], [stats] and the
    broadcast tasks created so far. *)
Record app := mkApp {
  det : detector;
  threats : list threat;
  counters : stats;
  broadcasts : list threat
}.

(** The globals at import time. *)
Definition initial_stats (now : string) : stats :=
  mkStats 0
    (list_to_map [("LOW", 0); ("MEDIUM", 0); ("HIGH", 0); ("CRITICAL", 0)]%string)
    ∅ now.

Definition initial_app (now : string) : app :=
  mkApp new_detector [] (initial_stats now) [].

(** A call of the handler completes, or stops at a subscript of
    [stats["threat_levels"]] with a missing key, or stops at
    [asyncio.create_task], which raises RuntimeError ("no running event
    loop") when the calling thread runs no event loop; the globals
    written before that point stay written. *)
Inductive handled :=
| Done (a : app)
| KeyError (key : string) (a : app)
| NoRunningLoop (a : app).

(** [packet_handler]; [running_loop] tells whether the calling thread runs
    an event loop. *)
Definition packet_handler (running_loop : bool) (a : arrival) (g : app) : handled :=
  let '(d, r) := detect_attack (pkt a) (uid a) (at_time a) (det g) in
  match r with
  | None => Done (mkApp d (threats g) (counters g) (broadcasts g))
  | Some t =>
      let ts := threats g ++ [t] in
      let ts := if (MAX_THREATS <? length ts)%nat then drop 1 ts else ts in
      let st := counters g in
      let total := total_threats st + 1 in
      match threat_levels st !! threat_level t with
      | None =>
          KeyError (threat_level t)
            (mkApp d ts (mkStats total (threat_levels st) (attack_types st)
                           (last_updated st)) (broadcasts g))
      | Some n =>
          let levels := <[threat_level t := n + 1]> (threat_levels st) in
          let types :=
            match attack_types st !! attack_type t with
            | Some k => <[attack_type t := k + 1]> (attack_types st)
            | None => <[attack_type t := 1]> (attack_types st)
            end in
          let st := mkStats total levels types (at_time a) in
          if running_loop then Done (mkApp d ts st (broadcasts g ++ [t]))
          else NoRunningLoop (mkApp d ts st (broadcasts g))
      end
  end.

(** The handler called on the packets of a capture in order, up to the
    first call that raises. *)
Fixpoint handle_all (running_loop : bool) (arrivals : list arrival) (g : app)
  : handled :=
  match arrivals with
  | [] => Done g
  | a :: rest =>
      match packet_handler running_loop a g with
      | Done g' => handle_all running_loop rest g'
      | KeyError k g' => KeyError k g'
      | NoRunningLoop g' => NoRunningLoop g'
      end
  end.

(** [start_network_monitoring] runs [sniff], and with it the handler, on a
    [threading.Thread]: no event loop runs there. *)
Definition SNIFF_THREAD_LOOP : bool := false.

(** The alerts among the results of [detect_attack], in order. *)
Definition alerts_of (results : list (option threat)) : list threat :=
  omap (fun r => r) results.

(** The packet is a SYN-only TCP segment to the target. *)
Definition count_syn (s : detector) (arrivals : list arrival) : nat :=
  length (List.filter (fun a => is_syn_only s (pkt a)) arrivals).

(** The alerts of level HIGH among the results. *)
Definition count_high (results : list (option threat)) : nat :=
  length (List.filter (fun t => String.eqb (threat_level t) "HIGH")
            (alerts_of results)).

(** The packet is an ICMP packet to the target without a TCP layer. *)
Definition is_icmp_only (s : detector) (p : packet) : bool :=
  match ip p, tcp p, icmp p with
  | Some l3, None, Some _ => String.eqb (dst l3) (target_ip s)
  | _, _, _ => false
  end.

(** The packet has no IP layer or is not addressed to the target. *)
Definition not_monitored (s : detector) (p : packet) : bool :=
  match ip p with
  | None => true
  | Some l3 => negb (String.eqb (dst l3) (target_ip s))
  end.

(** The last [n] entries of a list. *)
Definition keep_last {A : Type} (n : nat) (l : list A) : list A :=
  drop (length l - n) l.

(** The alerts of a given level. *)
Definition count_level (lv : string) (alerts : list threat) : nat :=
  length (List.filter (fun t => String.eqb (threat_level t) lv) alerts).

(** [stats["threat_levels"]] has the three levels the detector uses. *)
Definition levels_ready (g : app) : Prop :=
  forall lv, In lv ["LOW"; "MEDIUM"; "HIGH"]%string ->
             is_Some (threat_levels (counters g) !! lv).

(** Twenty-one ICMP echo requests from one source to the target. *)
Definition demo_ping_flood : list arrival :=
  repeat (mkArrival
            (mkPacket (Some (mkIP "192.168.100.152" "192.168.100.124")) None
               (Some (mkICMP 8 0)) None)
            "uid" "2025-01-01T00:00:00") 21.

(** Thirty ACK segments from one source to the ports 80 and 443 of the
    target, in turn. *)
Definition demo_web_traffic : list arrival :=
  map (fun k => mkArrival
                  (tcp_packet "192.168.100.152" "192.168.100.124" 40000
                     (if Nat.even k then 80 else 443) 16)
                  "uid" "2025-01-01T00:00:00")
      (seq 0 30).

(** An ICMP echo request from [from] to [to]. *)
Definition icmp_packet (from to : string) : packet :=
  mkPacket (Some (mkIP from to)) None (Some (mkICMP 8 0)) None.

(** An ARP request, which carries no IP layer. *)
Definition arp_packet : packet := mkPacket None None None (Some (mkARP 1)).

End Realtime.

(* ===================================================================== *)
(** * backend/services/websocket_manager.py: the other operations *)
(* ===================================================================== *)

Module HubApi.
Import Hub.

Definition set_info_user (i : info) (u : option string) : info :=
  mkInfo (connected_at i) u (subscriptions i).
Definition set_info_topics (i : info) (topics : list string) : info :=
  mkInfo (connected_at i) (user_id i) topics.

(** [list.remove(x)] on a list of topics known to contain [x]. *)
Fixpoint remove_topic (x : string) (l : list string) : list string :=
  match l with
  | [] => []
  | y :: rest => if String.eqb y x then rest else y :: remove_topic x rest
  end.

Definition set_user_id (websocket : conn) (user : string) (s : manager) : manager :=
  match connection_info s !! websocket with
  | Some i =>
      mkManager (active_connections s)
        (<[websocket := set_info_user i (Some user)]> (connection_info s))
  | None => s
  end.

Definition subscribe_to_topic (websocket : conn) (topic : string) (s : manager)
  : manager :=
  match connection_info s !! websocket with
  | Some i =>
      if bool_decide (topic ∈ subscriptions i) then s
      else mkManager (active_connections s)
             (<[websocket := set_info_topics i (subscriptions i ++ [topic])]>
                (connection_info s))
  | None => s
  end.

Definition unsubscribe_from_topic (websocket : conn) (topic : string) (s : manager)
  : manager :=
  match connection_info s !! websocket with
  | Some i =>
      if bool_decide (topic ∈ subscriptions i) then
        mkManager (active_connections s)
          (<[websocket := set_info_topics i (remove_topic topic (subscriptions i))]>
             (connection_info s))
      else s
  | None => s
  end.

(** The topics a socket is subscribed to ([[]] for an unknown socket). *)
Definition topics_of (websocket : conn) (s : manager) : list string :=
  match connection_info s !! websocket with
  | Some i => subscriptions i
  | None => []
  end.

Section Sockets.
Variable connected : conn -> bool.
Variable send_text : conn -> string -> option exn.

(** [send_personal_message]: the manager afterwards and whether the message
    was delivered. *)
Definition send_personal_message (message : string) (websocket : conn) (s : manager)
  : manager * bool :=
  if negb (bool_decide (websocket ∈ active_connections s)) then (s, false)
  else if connected websocket then
    match send_text websocket message with
    | None => (s, true)
    | Some _ => (disconnect websocket s, false)
    end
  else (disconnect websocket s, false).

(** The connection is open and sending the message to it does not raise. *)
Definition healthy (message : string) (c : conn) : bool :=
  connected c && bool_decide (send_text c message = None).
End Sockets.

(** Every socket is registered once and has its record. *)
Definition consistent (s : manager) : Prop :=
  NoDup (active_connections s) /\
  dom (connection_info s) = list_to_set (active_connections s).

(** No socket is subscribed twice to a topic. *)
Definition topics_distinct (s : manager) : Prop :=
  forall c i, connection_info s !! c = Some i -> NoDup (subscriptions i).

End HubApi.

(* ===================================================================== *)
(** * backend/services/ids_service.py: the counters and the queries *)
(* ===================================================================== *)

Module IDSApi.
Import IDS.

(** The state built by [IDSService.__init__]. *)
Definition new_ids : ids :=
  mkIDS false false [] 0 0
    (list_to_map
       [("Flood Attacks", 0); ("Botnet/Mirai Attacks", 0);
        ("Backdoors & Exploits", 0); ("Injection Attacks", 0);
        ("Reconnaissance", 0); ("Spoofing / MITM", 0); ("Benign", 0)]%string).

(** [get_recent_alerts]: [self.recent_alerts[-limit:]]. *)
Definition get_recent_alerts (limit : Z) (s : ids) : list ThreatAlert :=
  py_slice_from (- limit) (recent_alerts s).

(** [get_stats], without the clock reading [last_updated]. *)
Record ids_stats := mkIdsStats {
  stats_total_attacks : Z;
  stats_blocked_attacks : Z;
  stats_attack_types : gmap string Z;
  detection_rate : Z;
  stats_model_loaded : bool
}.

Definition get_stats (s : ids) : ids_stats :=
  mkIdsStats (total_attacks s) (blocked_attacks s) (attack_types s)
    (Z.of_nat (length (recent_alerts s))) (model_loaded s).

(** The members of [AttackType], in the order of the class. *)
Definition all_attack_types : list AttackType :=
  [FLOOD_ATTACK; BOTNET_MIRAI; BACKDOOR_EXPLOIT; INJECTION_ATTACK;
   RECONNAISSANCE; SPOOFING_MITM; BENIGN].

(** The stored alerts that are flagged as blocked. *)
Definition count_blocked (alerts : list ThreatAlert) : Z :=
  Z.of_nat (length (List.filter blocked alerts)).

(** The sum of the per-label counters. *)
Definition types_total (m : gmap string Z) : Z :=
  map_fold (fun _ v acc => v + acc) 0 m.

(** The counters agree with what is stored: the [blocked_attacks] counter
    is not below the number of alerts flagged as blocked, the per-label
    counters add up to [total_attacks], and at most 100 alerts are kept. *)
Definition counters_sound (s : ids) : Prop :=
  count_blocked (recent_alerts s) <= blocked_attacks s /\
  types_total (attack_types s) = total_attacks s /\
  (length (recent_alerts s) <= 100)%nat.

(** A classifier that labels every packet "Reconnaissance" with
    confidence 0.65. *)
Definition recon_classifier (info : packet_info) : string * float :=
  ("Reconnaissance"%string, 0x1.4cccccccccccdp-1%float).

(** A service with a loaded model, two stored alerts of which the second
    is blocked, and counters that agree with them. *)
Definition loaded_ids : ids :=
  mkIDS true true [demo_alert "a1" false; demo_alert "a2" true] 2 1
    (list_to_map [("Botnet/Mirai Attacks"%string, 2)]).

End IDSApi.

(* ===================================================================== *)
(** * backend/utils/network_utils.py *)
(* ===================================================================== *)

Module NetworkUtils.

Section Filter.
(** [is_local_network_ip], which rests on the [ipaddress] library. *)
Variable is_local_network_ip : string -> string -> bool.

(** [filter_local_threats]; a threat is a dictionary, of which the two
    address entries are read with [.get(key, '')]. *)
Definition filter_local_threats (threats : list (gmap string string))
  (local_subnet : string) (internal_only : bool) : list (gmap string string) :=
  List.filter
    (fun threat =>
       let source_ip := default ""%string (threat !! "source_ip"%string) in
       let dest_ip := default ""%string (threat !! "destination_ip"%string) in
       if internal_only then
         Monitor.is_internal_attack is_local_network_ip source_ip dest_ip local_subnet
       else
         is_local_network_ip source_ip local_subnet
         || is_local_network_ip dest_ip local_subnet)
    threats.
End Filter.

(** Membership in 192.168.100.0/24 for the addresses of the examples. *)
Definition demo_is_local (ip_address local_subnet : string) : bool :=
  String.prefix "192.168.100." ip_address.

Definition demo_threat (source_ip dest_ip : string) : gmap string string :=
  list_to_map [("source_ip", source_ip); ("destination_ip", dest_ip)]%string.

(** An internal threat, an inbound one and one between foreign hosts. *)
Definition demo_threats : list (gmap string string) :=
  [demo_threat "192.168.100.7" "192.168.100.124";
   demo_threat "203.0.113.42" "192.168.100.50";
   demo_threat "8.8.8.8" "1.1.1.1"].

End NetworkUtils.

(* ===================================================================== *)
(** * backend/services/network_monitor.py: capture and statistics *)
(* ===================================================================== *)

Module MonitorApi.
Import Monitor.

(** One captured packet: its features, its bytes and the reading of
    [datetime.now()] when it is stored. *)
Record capture := mkCapture {
  cap_info : IDS.packet_info;
  cap_raw : list Byte.byte;
  cap_now : Z
}.

(** The buffer after [_process_packet] has seen the packets in order. *)
Definition process_all (packets : list capture) (pcap_buffer : gmap string (list frame))
  : gmap string (list frame) :=
  fold_left (fun buf c => _process_packet (cap_info c) (cap_raw c) (cap_now c) buf)
    packets pcap_buffer.

Definition key_of (c : capture) : string :=
  packet_key (IDS.info_source_ip (cap_info c)) (IDS.info_destination_ip (cap_info c)).

(** The frames of the captured packets that travel under one key. *)
Definition frames_of (key : string) (packets : list capture) : list frame :=
  (fun c => mkFrame (cap_now c) (cap_raw c) (cap_info c))
    <$> List.filter (fun c => String.eqb (key_of c) key) packets.

(** [d[key] += n] on a [defaultdict(int)]. *)
Definition bump (key : string) (n : Z) (d : gmap string Z) : gmap string Z :=
  <[key := default 0 (d !! key) + n]> d.

(** [{1: 'ICMP', 6: 'TCP', 17: 'UDP'}.get(protocol, 'OTHER')] *)
Definition protocol_names : gmap Z string :=
  list_to_map [(1, "ICMP"); (6, "TCP"); (17, "UDP")]%string.

Definition protocol_name (protocol : Z) : string :=
  default "OTHER"%string (protocol_names !! protocol).

(** [_update_traffic_stats] *)
Definition _update_traffic_stats (info : IDS.packet_info) (traffic_stats : gmap string Z)
  : gmap string Z :=
  let traffic_stats := bump "total_packets" 1 traffic_stats in
  let traffic_stats := bump "total_bytes" (IDS.info_packet_size info) traffic_stats in
  bump (protocol_name (IDS.info_protocol info) ++ "_packets") 1 traffic_stats.

(** [self.traffic_stats.get(key, 0)], as read by [get_stats]. *)
Definition stat (key : string) (traffic_stats : gmap string Z) : Z :=
  default 0 (traffic_stats !! key).

(** The statistics after the packets have been processed in order. *)
Definition update_all (packets : list IDS.packet_info) (traffic_stats : gmap string Z)
  : gmap string Z :=
  fold_left (fun d info => _update_traffic_stats info d) packets traffic_stats.

(** The packets of one protocol number, and the bytes of all packets. *)
Definition count_protocol (protocol : Z) (packets : list IDS.packet_info) : Z :=
  Z.of_nat (length (List.filter (fun i => IDS.info_protocol i =? protocol) packets)).

Definition total_size (packets : list IDS.packet_info) : Z :=
  fold_right (fun i acc => IDS.info_packet_size i + acc) 0 packets.

(** Local traffic only, internal attacks monitored; and a packet from
    outside to a local host. *)
Definition strict_settings : settings :=
  mkSettings true "192.168.100.0/24" true.

Definition inbound_info : IDS.packet_info :=
  IDS.mkInfo "203.0.113.42" "192.168.100.124" 6 60 64.

(** A classifier that labels every packet "Flood Attacks" with a given
    confidence. *)
Definition flood_classifier (c : float) (info : IDS.packet_info) : string * float :=
  ("Flood Attacks"%string, c).

End MonitorApi.

(* ===================================================================== *)
(** * backend/services/kali_attack_detector.py *)
(* ===================================================================== *)

Module Kali.

(** The entries of [packet_info] that the detector reads; each is read
    with [.get], so each may be missing. *)
Record packet_info := mkPacket {
  protocol : option Z;
  tcp_flags : option Z;
  destination_port : option Z;
  packet_size : option Z;
  ttl : option Z;
  source_ip : option string;
  destination_ip : option string
}.

(** The entries of a signature that [_create_attack_alert] reads. *)
Record signature := mkSignature {
  sig_description : string;
  sig_attack_type : string;
  sig_threat_level : string
}.

(** [_load_attack_signatures] *)
Definition attack_signatures : gmap string signature :=
  list_to_map
    [("nmap_syn_scan", mkSignature "Nmap SYN scan detected" "Reconnaissance" "MEDIUM");
     ("nmap_version_scan",
      mkSignature "Nmap version scan detected" "Reconnaissance" "HIGH");
     ("nmap_os_detection",
      mkSignature "Nmap OS detection scan" "Reconnaissance" "MEDIUM");
     ("nikto_scan", mkSignature "Nikto web vulnerability scan" "Reconnaissance" "HIGH");
     ("sqlmap_injection",
      mkSignature "SQLMap injection attempt" "Injection Attacks" "CRITICAL");
     ("metasploit_exploit",
      mkSignature "Metasploit exploit attempt" "Backdoors & Exploits" "CRITICAL");
     ("hydra_bruteforce",
      mkSignature "Hydra brute force attack" "Backdoors & Exploits" "HIGH");
     ("aircrack_deauth",
      mkSignature "WiFi deauthentication attack" "Spoofing / MITM" "HIGH");
     ("ddos_flood", mkSignature "DDoS flood attack from Kali" "Flood Attacks" "CRITICAL")
    ]%string.

(** The dictionary returned by [_create_attack_alert]. *)
Record alert := mkAlert {
  alert_id : string;
  alert_timestamp : string;
  alert_source_ip : string;
  alert_destination_ip : string;
  attack_type : string;
  threat_level : string;
  description : string;
  confidence : float;
  detection_method : string;
  tool_detected : string;
  raw_data : packet_info;
  blocked : bool
}.

(** The binary64 value of the literal [0.85]. *)
Definition SIGNATURE_CONFIDENCE : float := 0x1.b333333333333p-1%float.

(** [value in ports], where [value] may be [None]. *)
Definition port_in (port : option Z) (ports : list Z) : bool :=
  match port with
  | Some p => bool_decide (p ∈ ports)
  | None => false
  end.

Definition _detect_nmap_scan (p : packet_info) : bool :=
  if bool_decide (protocol p = Some 6) && bool_decide (tcp_flags p = Some 2) then true
  else if port_in (destination_port p) [22; 23; 53; 80; 110; 443; 993; 995]
          && (default 0 (packet_size p) <? 100)
       then true
       else false.

Definition _detect_port_scan (p : packet_info) : bool :=
  bool_decide (protocol p = Some 6)
  && (default 0 (packet_size p) <? 80)
  && (default 0 (ttl p) <? 64).

Definition _detect_flood_attack (p : packet_info) : bool :=
  match source_ip p with
  | Some ip =>
      if negb (String.eqb ip "") then
        (1000 <? default 0 (packet_size p))
        && negb (String.prefix "127." ip)
        && negb (String.prefix "192.168.100." ip)
      else false
  | None => false
  end.

Definition _detect_web_attack (p : packet_info) : bool :=
  if port_in (destination_port p) [80; 443; 8000; 3000; 8080]
  then 500 <? default 0 (packet_size p)
  else false.

(** [_create_attack_alert]; [uid] and [now] are the values read from
    [uuid.uuid4()] and [datetime.utcnow()]. *)
Definition _create_attack_alert (tool : string) (p : packet_info) (uid now : string)
  : alert :=
  let signature := attack_signatures !! tool in
  mkAlert uid now
    (default "unknown"%string (source_ip p))
    (default "unknown"%string (destination_ip p))
    (from_option sig_attack_type "Unknown"%string signature)
    (from_option sig_threat_level "MEDIUM"%string signature)
    (from_option sig_description "Kali attack detected"%string signature)
    SIGNATURE_CONFIDENCE "kali_signature" tool p false.

(** [analyze_packet]: the alert returned, if any, and the list
    [detected_attacks] afterwards. *)
Definition analyze_packet (p : packet_info) (uid now : string)
  (detected_attacks : list alert) : option alert * list alert :=
  let detected_attack :=
    if _detect_nmap_scan p then Some (_create_attack_alert "nmap_syn_scan" p uid now)
    else if _detect_port_scan p
         then Some (_create_attack_alert "nmap_version_scan" p uid now)
    else if _detect_flood_attack p then Some (_create_attack_alert "ddos_flood" p uid now)
    else if _detect_web_attack p then Some (_create_attack_alert "nikto_scan" p uid now)
    else None in
  match detected_attack with
  | Some a => (Some a, detected_attacks ++ [a])
  | None => (None, detected_attacks)
  end.

(** [d[key] = d.get(key, 0) + 1] *)
Definition count_into (key : string) (d : gmap string Z) : gmap string Z :=
  <[key := default 0 (d !! key) + 1]> d.

(** The counts of [get_attack_statistics]; the entry [last_attack] is
    left out. *)
Record statistics := mkStatistics {
  total_attacks : Z;
  attack_types : gmap string Z;
  source_ips : gmap string Z
}.

Definition get_attack_statistics (detected_attacks : list alert) : statistics :=
  fold_left
    (fun stats attack =>
       mkStatistics (total_attacks stats)
         (count_into (attack_type attack) (attack_types stats))
         (count_into (alert_source_ip attack) (source_ips stats)))
    detected_attacks
    (mkStatistics (Z.of_nat (length detected_attacks)) ∅ ∅).

(** The packets of a capture analysed in order; the [k]-th alert gets the
    [k]-th identifier. *)
Fixpoint analyze_all (packets : list (packet_info * string * string))
  (detected_attacks : list alert) : list alert :=
  match packets with
  | [] => detected_attacks
  | (p, uid, now) :: rest => analyze_all rest (snd (analyze_packet p uid now detected_attacks))
  end.

(** The alerts of a log with a given attack type. *)
Definition count_type (ty : string) (detected_attacks : list alert) : Z :=
  Z.of_nat (length (List.filter (fun a => String.eqb (attack_type a) ty) detected_attacks)).

(** A SYN probe of port 8443, and a DNS answer of 300 bytes. *)
Definition syn_probe : packet_info :=
  mkPacket (Some 6) (Some 2) (Some 8443) (Some 60) (Some 64)
    (Some "192.168.100.7"%string) (Some "192.168.100.124"%string).

Definition dns_answer : packet_info :=
  mkPacket (Some 17) None (Some 5353) (Some 300) (Some 64)
    (Some "192.168.100.1"%string) (Some "192.168.100.124"%string).

End Kali.

(** ** List facts shared by the developments below *)

Lemma forallb_ext_in {A : Type} (f g : A -> bool) (l : list A) :
  (forall x, In x l -> f x = g x) -> forallb f l = forallb g l.
Proof.
  induction l as [|a l IH]; intros H; [reflexivity|].
  simpl. rewrite (H a) by (left; reflexivity).
  rewrite IH; [reflexivity|]. intros x Hx. apply H. right. exact Hx.
Qed.

Lemma split_last {A : Type} (n : nat) (l : list A) :
  length l = S n -> exists front a, l = front ++ [a] /\ length front = n.
Proof.
  intros Hl. destruct l as [|x l'] using rev_ind; [discriminate|].
  exists l', x. split; [reflexivity|].
  rewrite length_app in Hl. simpl in Hl. lia.
Qed.

(* ===================================================================== *)
(** * Properties of the audit chain *)
(* ===================================================================== *)

Section AuditFacts.
Import Audit.
Variable payload : Type.
Variable json_dumps : Z -> string -> payload -> option string -> Z -> string.
Variable sha256_hexdigest : string -> string.
Variable genesis_data : payload.

Abbreviation blk := (block payload).
Abbreviation st := (audit payload).
Abbreviation _calculate_hash := (Audit._calculate_hash payload json_dumps sha256_hexdigest).
Abbreviation _mine_block := (Audit._mine_block payload json_dumps sha256_hexdigest).
Abbreviation _is_valid_block := (Audit._is_valid_block payload json_dumps sha256_hexdigest).
Abbreviation valid_at := (Audit.valid_at payload json_dumps sha256_hexdigest).
Abbreviation is_chain_valid := (Audit.is_chain_valid payload json_dumps sha256_hexdigest).
Abbreviation chain_invariant := (Audit.chain_invariant payload json_dumps sha256_hexdigest).
Abbreviation init := (Audit.init payload json_dumps sha256_hexdigest genesis_data).
Abbreviation add_block := (Audit.add_block payload json_dumps sha256_hexdigest).
Abbreviation mutate_data := (Audit.mutate_data payload).
Abbreviation built := (Audit.built payload json_dumps sha256_hexdigest genesis_data).
Abbreviation well_formed := (Audit.well_formed payload).

(** *** Digests and targets *)

Lemma prefix_zeros_leading (n : nat) (h : string) :
  String.prefix (zeros n) h = true <-> (n <= leading_zeros h)%nat.
Proof.
  revert h; induction n as [|n IH]; intros h.
  - destruct h; simpl; split; auto; lia.
  - destruct h as [|c h]; cbn [zeros String.prefix leading_zeros].
    + split; [discriminate | lia].
    + destruct (ascii_dec "0" c) as [<-|Hne].
      * rewrite IH. simpl. lia.
      * destruct (Ascii.eqb_spec c "0"%char) as [->|_]; [congruence|].
        split; [discriminate | lia].
Qed.

Lemma prefix_zeros_le (n m : nat) (h : string) :
  (m <= n)%nat -> String.prefix (zeros n) h = true ->
  String.prefix (zeros m) h = true.
Proof. rewrite !prefix_zeros_leading. lia. Qed.

Lemma calculate_hash_set_hash (b : blk) (h : option string) :
  _calculate_hash (set_hash b h) = _calculate_hash b.
Proof. reflexivity. Qed.

(** *** The mining loop *)

Lemma mine_step_found (fuel : nat) (d : Z) (b : blk) :
  String.prefix (zeros (Z.to_nat d)) (_calculate_hash b) = true ->
  _mine_block (S fuel) d b = Some (_calculate_hash b, b, d).
Proof. intros H. simpl. now rewrite H. Qed.

Lemma mine_step_next (fuel : nat) (d : Z) (b : blk) :
  String.prefix (zeros (Z.to_nat d)) (_calculate_hash b) = false ->
  nonce b + 1 <= NONCE_BUDGET ->
  _mine_block (S fuel) d b = _mine_block fuel d (set_nonce b (nonce b + 1)).
Proof.
  intros H Hn. simpl. rewrite H.
  destruct (Z.gtb_spec (nonce b + 1) NONCE_BUDGET); [lia | reflexivity].
Qed.

Lemma mine_step_restart (fuel : nat) (d : Z) (b : blk) :
  String.prefix (zeros (Z.to_nat d)) (_calculate_hash b) = false ->
  nonce b + 1 > NONCE_BUDGET ->
  _mine_block (S fuel) d b = _mine_block fuel (Z.max 1 (d - 1)) (set_nonce b 0).
Proof.
  intros H Hn. simpl. rewrite H.
  destruct (Z.gtb_spec (nonce b + 1) NONCE_BUDGET); [reflexivity | lia].
Qed.

Lemma mine_sound (fuel : nat) :
  forall (d : Z) (b : blk) (h : string) (b' : blk) (d' : Z),
    _mine_block fuel d b = Some (h, b', d') ->
    h = _calculate_hash b' /\
    String.prefix (zeros (Z.to_nat d')) h = true /\
    b' = set_nonce b (nonce b') /\
    (1 <= d -> 1 <= d' <= d).
Proof.
  induction fuel as [|fuel IH]; intros d b h b' d' Hm; [discriminate|].
  simpl in Hm.
  destruct (String.prefix (zeros (Z.to_nat d)) (_calculate_hash b)) eqn:Hp.
  - injection Hm as <- <- <-. repeat split; try lia; auto.
    destruct b; reflexivity.
  - destruct (nonce b + 1 >? NONCE_BUDGET).
    + apply IH in Hm as (-> & Hp' & Hb & Hd).
      split; [reflexivity|]. split; [exact Hp'|]. split; [exact Hb|]. lia.
    + apply IH in Hm as (-> & Hp' & Hb & Hd).
      split; [reflexivity|]. split; [exact Hp'|]. split; [exact Hb|]. exact Hd.
Qed.

Lemma mine_more_fuel (fuel : nat) :
  forall (d : Z) (b : blk) r,
    _mine_block fuel d b = Some r -> _mine_block (S fuel) d b = Some r.
Proof.
  induction fuel as [|fuel IH]; intros d b r Hm; [discriminate|].
  revert Hm. simpl.
  destruct (String.prefix (zeros (Z.to_nat d)) (_calculate_hash b)); [auto|].
  destruct (nonce b + 1 >? NONCE_BUDGET); intros Hm; apply IH in Hm; exact Hm.
Qed.

(** A nonce at or above the current one, within the budget, that meets the
    current target is found without any restart. *)
Lemma mine_finds_ahead (b : blk) (d n : Z) (steps : nat) :
  forall k : Z,
    Z.to_nat (n - k) = steps -> k <= n <= NONCE_BUDGET ->
    String.prefix (zeros (Z.to_nat d)) (_calculate_hash (set_nonce b n)) = true ->
    exists fuel r, _mine_block fuel d (set_nonce b k) = Some r.
Proof.
  induction steps as [|steps IH]; intros k Hs Hk Hn.
  - assert (k = n) as -> by lia.
    exists 1%nat. eexists. apply mine_step_found. exact Hn.
  - destruct (String.prefix (zeros (Z.to_nat d))
                (_calculate_hash (set_nonce b k))) eqn:Hp.
    + exists 1%nat. eexists. apply mine_step_found. exact Hp.
    + destruct (IH (k + 1)) as (fuel & r & Hr); [lia | lia | exact Hn |].
      exists (S fuel), r. rewrite mine_step_next; [exact Hr | exact Hp |].
      simpl. lia.
Qed.

(** The search space of the loop is the nonces [0..NONCE_BUDGET] at the
    difficulties [d, d-1, ..., 1]: the loop returns as soon as one nonce of
    that range gives a digest that starts with one ['0']. *)
Lemma mine_terminates_if (b : blk) (n : Z) :
  0 <= n <= NONCE_BUDGET ->
  String.prefix "0" (_calculate_hash (set_nonce b n)) = true ->
  forall (m : nat) (d k : Z),
    (Z.to_nat (d - 1) * Z.to_nat (NONCE_BUDGET + 2)
       + Z.to_nat (NONCE_BUDGET + 1 - k) <= m)%nat ->
    exists fuel r, _mine_block fuel d (set_nonce b k) = Some r.
Proof.
  intros Hn Hgood.
  induction m as [m IH] using lt_wf_ind. intros d k Hm.
  destruct (String.prefix (zeros (Z.to_nat d))
              (_calculate_hash (set_nonce b k))) eqn:Hp.
  { exists 1%nat. eexists. apply mine_step_found. exact Hp. }
  assert (1 <= d) as Hd.
  { destruct (Z.le_gt_cases 1 d) as [|Hlt]; [assumption|].
    replace (Z.to_nat d) with 0%nat in Hp by lia.
    destruct (_calculate_hash (set_nonce b k)); discriminate. }
  destruct (Z.le_gt_cases (k + 1) NONCE_BUDGET) as [Hle|Hgt].
  - destruct (IH (pred m)) with (d := d) (k := k + 1) as (fuel & r & Hr).
    + unfold NONCE_BUDGET in *. lia.
    + unfold NONCE_BUDGET in *. lia.
    + exists (S fuel), r. rewrite mine_step_next; [exact Hr | exact Hp |].
      simpl. lia.
  - assert (exists fuel r,
               _mine_block fuel (Z.max 1 (d - 1)) (set_nonce b 0) = Some r)
      as (fuel & r & Hr).
    { destruct (Z.eq_dec d 1) as [->|Hne].
      - apply (mine_finds_ahead b _ n (Z.to_nat (n - 0)) 0);
          [reflexivity | lia | exact Hgood].
      - apply (IH (pred m)); unfold NONCE_BUDGET in *; lia. }
    exists (S fuel), r. rewrite mine_step_restart; [exact Hr | exact Hp |].
    simpl. lia.
Qed.

(** When no nonce of the budget gives a digest that starts with ['0'], the
    loop never returns once the difficulty is at least 1. *)
Lemma mine_diverges_if (b : blk) :
  (forall n, String.prefix "0" (_calculate_hash (set_nonce b n)) = false) ->
  forall (fuel : nat) (d k : Z),
    1 <= d -> _mine_block fuel d (set_nonce b k) = None.
Proof.
  intros Hbad. induction fuel as [|fuel IH]; intros d k Hd; [reflexivity|].
  assert (String.prefix (zeros (Z.to_nat d))
            (_calculate_hash (set_nonce b k)) = false) as Hp.
  { destruct (String.prefix _ _) eqn:Hp; [|reflexivity].
    apply (prefix_zeros_le _ 1) in Hp; [|lia].
    simpl zeros in Hp. rewrite Hbad in Hp. discriminate. }
  destruct (Z.le_gt_cases (nonce (set_nonce b k) + 1) NONCE_BUDGET).
  - rewrite mine_step_next; [apply IH; lia | exact Hp | assumption].
  - rewrite mine_step_restart; [apply (IH _ 0); lia | exact Hp | lia].
Qed.

(** *** Validation *)

Lemma is_valid_block_true (d : Z) (b p : blk) :
  _is_valid_block d b p = true <->
  index b = index p + 1 /\ previous_hash b = hash p /\
  hash b = Some (_calculate_hash b) /\
  String.prefix (zeros (Z.to_nat d)) (_calculate_hash b) = true.
Proof.
  unfold Audit._is_valid_block.
  destruct (Z.eqb_spec (index b) (index p + 1)); simpl; [|intuition congruence].
  destruct (bool_decide_reflect (previous_hash b = hash p)); simpl;
    [|intuition congruence].
  destruct (bool_decide_reflect (hash b = Some (_calculate_hash b))) as [Hh|Hh];
    simpl; [|intuition congruence].
  rewrite Hh.
  destruct (String.prefix _ _); simpl; intuition congruence.
Qed.

Lemma is_valid_block_weaken (d d' : Z) (b p : blk) :
  d' <= d -> _is_valid_block d b p = true -> _is_valid_block d' b p = true.
Proof.
  rewrite !is_valid_block_true. intros Hd (? & ? & ? & Hp).
  repeat split; auto. apply (prefix_zeros_le (Z.to_nat d)); [lia | exact Hp].
Qed.

Lemma is_chain_valid_true (s : st) :
  is_chain_valid s = true <->
  forall i, (1 <= i < length (chain s))%nat ->
       valid_at (difficulty s) (chain s) i = true.
Proof.
  unfold Audit.is_chain_valid. rewrite forallb_forall. split; intros H i Hi.
  - apply H, in_seq. lia.
  - apply in_seq in Hi. apply H. lia.
Qed.

Lemma is_chain_valid_invariant (s : st) :
  is_chain_valid s = true -> chain_invariant s.
Proof.
  rewrite is_chain_valid_true. intros H i cur prev Hi Hc Hp.
  assert (i < length (chain s))%nat as Hlt by (eapply lookup_lt_Some; eauto).
  specialize (H i ltac:(lia)). unfold Audit.valid_at in H. rewrite Hc, Hp in H.
  apply is_valid_block_true in H as (_ & H1 & H2 & H3).
  repeat split; auto. apply prefix_zeros_leading. exact H3.
Qed.

(** Tampering with a checked block whose stored hash no longer matches. *)
Lemma mutated_block_detected (s : st) (i : nat) (b : blk) (d' : payload) :
  (1 <= i)%nat -> chain s !! i = Some b ->
  hash b <> Some (_calculate_hash (set_data b d')) ->
  is_chain_valid (mutate_data i d' s) = false.
Proof.
  intros Hi Hb Hne.
  destruct (is_chain_valid (mutate_data i d' s)) eqn:Hv; [|reflexivity].
  exfalso. rewrite is_chain_valid_true in Hv.
  unfold Audit.mutate_data in Hv. rewrite Hb in Hv. simpl in Hv.
  assert (i < length (chain s))%nat as Hlt by (eapply lookup_lt_Some; eauto).
  specialize (Hv i). rewrite length_insert in Hv. specialize (Hv ltac:(lia)).
  unfold Audit.valid_at in Hv.
  rewrite list_lookup_insert_eq in Hv by exact Hlt.
  destruct (<[i:=set_data b d']> (chain s) !! (i - 1)%nat); [|discriminate].
  apply is_valid_block_true in Hv as (_ & _ & Hh & _).
  apply Hne. exact Hh.
Qed.

(** The block at position 0 is only ever read as a predecessor, and only
    through its ['index'] and ['hash'] entries. *)
Lemma genesis_payload_unchecked (s : st) (d' : payload) :
  is_chain_valid (mutate_data 0 d' s) = is_chain_valid s.
Proof.
  unfold Audit.mutate_data. destruct (chain s !! 0%nat) as [g|] eqn:Hg; [|reflexivity].
  unfold Audit.is_chain_valid. simpl. rewrite length_insert.
  apply forallb_ext_in. intros i Hi. apply in_seq in Hi.
  unfold Audit.valid_at.
  rewrite list_lookup_insert_ne by lia.
  destruct (chain s !! i) as [cur|]; [|reflexivity].
  destruct (Nat.eq_dec (i - 1)%nat 0%nat) as [He|He].
  - rewrite He, Hg. rewrite list_lookup_insert_eq
      by (apply lookup_lt_Some in Hg; exact Hg).
    reflexivity.
  - rewrite list_lookup_insert_ne by lia. reflexivity.
Qed.

(** *** Construction and extension *)

Lemma valid_at_app (d : Z) (c : list blk) (x : blk) (i : nat) :
  (i < length c)%nat -> valid_at d (c ++ [x]) i = valid_at d c i.
Proof.
  intros Hi. unfold Audit.valid_at.
  rewrite !lookup_app_l by lia. reflexivity.
Qed.

Lemma init_spec (now : string) (fuel : nat) (s : st) :
  init now fuel = Ok tt s ->
  well_formed s /\ is_chain_valid s = true /\ length (chain s) = 1%nat.
Proof.
  unfold Audit.init, Audit.create_genesis_block. simpl.
  destruct (_mine_block fuel 4 _) as [[[h b] d]|] eqn:Hm; [|discriminate].
  intros [= <-]. apply mine_sound in Hm as (_ & _ & Hb & Hd).
  split; [|split; reflexivity].
  split; [discriminate|]. split; [simpl; lia|].
  intros [|i] b'; simpl; [|discriminate].
  intros [= <-]. rewrite Hb. reflexivity.
Qed.

Lemma add_block_spec (s : st) (d : payload) (now : string) (fuel : nat) :
  well_formed s -> is_chain_valid s = true ->
  match add_block d now fuel s with
  | Ok b s' =>
      well_formed s' /\ is_chain_valid s' = true /\
      chain s' = chain s ++ [b] /\ data b = d /\ difficulty s' <= difficulty s
  | Raise _ _ => False
  | OutOfFuel => True
  end.
Proof.
  intros (Hne & Hd & Hidx) Hv. unfold Audit.add_block.
  destruct (last (chain s)) as [prev|] eqn:Hlast;
    [|apply last_None in Hlast; contradiction].
  rewrite last_lookup in Hlast.
  assert (0 < length (chain s))%nat as Hlen.
  { destruct (chain s); [contradiction | simpl; lia]. }
  destruct (_mine_block fuel (difficulty s) _) as [[[h b] d']|] eqn:Hm; [|exact I].
  apply mine_sound in Hm as (Hh & Hp & Hb & Hd'). specialize (Hd' Hd).
  assert (_is_valid_block d' (set_hash b (Some h)) prev = true) as Hnew.
  { apply is_valid_block_true. rewrite Hb. simpl.
    rewrite (Hidx _ _ Hlast). split; [lia|]. split; [reflexivity|].
    rewrite Hh, Hb in *. simpl in *. split; [reflexivity | exact Hp]. }
  rewrite Hnew. simpl.
  split; [|split; [|split; [reflexivity|split; [rewrite Hb; reflexivity | lia]]]].
  - split; [destruct (chain s); discriminate|]. split; [simpl; lia|].
    simpl. intros i b' Hi.
    destruct (Nat.lt_ge_cases i (length (chain s))) as [Hlt|Hge].
    + rewrite lookup_app_l in Hi by exact Hlt. eauto.
    + assert (i = length (chain s)) as ->.
      { apply lookup_lt_Some in Hi. rewrite length_app in Hi. simpl in Hi. lia. }
      rewrite list_lookup_middle in Hi by reflexivity.
      injection Hi as <-. rewrite Hb. reflexivity.
  - apply is_chain_valid_true. simpl. rewrite length_app. simpl.
    intros i Hi.
    destruct (Nat.lt_ge_cases i (length (chain s))) as [Hlt|Hge].
    + rewrite valid_at_app by exact Hlt.
      rewrite is_chain_valid_true in Hv. specialize (Hv i ltac:(lia)).
      unfold Audit.valid_at in *.
      destruct (chain s !! i); [|discriminate].
      destruct (chain s !! (i - 1)%nat); [|discriminate].
      eapply is_valid_block_weaken; [|exact Hv]. lia.
    + assert (i = length (chain s)) as -> by lia.
      unfold Audit.valid_at.
      rewrite list_lookup_middle by reflexivity.
      rewrite lookup_app_l by lia.
      replace (length (chain s) - 1)%nat with (pred (length (chain s))) by lia.
      rewrite Hlast. exact Hnew.
Qed.

Lemma built_well_formed (s : st) :
  built s -> well_formed s /\ is_chain_valid s = true.
Proof.
  induction 1 as [now fuel s Hi | s d now fuel b s' Hb [Hwf Hv] Ha].
  - apply init_spec in Hi. tauto.
  - pose proof (add_block_spec s d now fuel Hwf Hv) as H.
    rewrite Ha in H. tauto.
Qed.

(** *** The claims on the audit chain *)

(** X28.  Mining is a bounded search that restarts: when a failed attempt
    pushes the nonce past [NONCE_BUDGET] the difficulty becomes
    [max 1 (difficulty - 1)], the nonce is reset to 0 and the search goes
    on with the same block; a returned hash is the digest of the block at
    its final nonce and has at least as many leading zeros as the
    difficulty in effect at that moment, which is between 1 and the initial
    difficulty; the loop returns whenever some nonce in [0..NONCE_BUDGET]
    gives the block a digest that starts with ['0']; and it never returns
    if no nonce does, since the difficulty is not lowered below 1. *)
Theorem mine_block_restarts_and_meets_target (d : Z) (b : blk) :
  (forall fuel,
      String.prefix (zeros (Z.to_nat d)) (_calculate_hash b) = false ->
      nonce b + 1 > NONCE_BUDGET ->
      _mine_block (S fuel) d b
      = _mine_block fuel (Z.max 1 (d - 1)) (set_nonce b 0)) /\
  (forall fuel h b' d',
      _mine_block fuel d b = Some (h, b', d') ->
      h = _calculate_hash b' /\ b' = set_nonce b (nonce b') /\
      (Z.to_nat d' <= leading_zeros h)%nat /\ (1 <= d -> 1 <= d' <= d)) /\
  ((exists n, 0 <= n <= NONCE_BUDGET /\
              String.prefix "0" (_calculate_hash (set_nonce b n)) = true) ->
   exists fuel r, _mine_block fuel d b = Some r) /\
  ((forall n, String.prefix "0" (_calculate_hash (set_nonce b n)) = false) ->
   1 <= d -> forall fuel, _mine_block fuel d b = None).
Proof.
  split; [|split; [|split]].
  - intros fuel Hp Hn. apply mine_step_restart; assumption.
  - intros fuel h b' d' Hm.
    apply mine_sound in Hm as (Hh & Hp & Hb & Hd).
    repeat split; auto; try (apply Hd; assumption).
    apply prefix_zeros_leading. exact Hp.
  - intros (n & Hn & Hgood).
    replace b with (set_nonce b (nonce b)) by (destruct b; reflexivity).
    eapply (mine_terminates_if b n Hn Hgood). apply Nat.le_refl.
  - intros Hbad Hd fuel.
    replace b with (set_nonce b (nonce b)) at 1 by (destruct b; reflexivity).
    apply mine_diverges_if; assumption.
Qed.

(** C1 (as amended).  Every chain obtained from the constructor by
    [add_block] calls passes [is_chain_valid] and satisfies the validity
    invariant for every position [i > 0]; [add_block] never rejects its own
    block on such a chain and the extended chain is valid again; and
    replacing the payload of a block at a position [i > 0] by one that
    changes the block's digest makes [is_chain_valid] return false.  The
    payload of the block at position 0 is not covered. *)
Theorem built_chain_valid_and_tamper_evident (s : st) :
  built s ->
  is_chain_valid s = true /\ chain_invariant s /\
  (forall d now fuel,
      match add_block d now fuel s with
      | Ok b s' =>
          chain s' = chain s ++ [b] /\ built s' /\
          is_chain_valid s' = true /\ chain_invariant s'
      | Raise _ _ => False
      | OutOfFuel => True
      end) /\
  (forall (i : nat) (b : blk) (d' : payload),
      (1 <= i)%nat -> chain s !! i = Some b ->
      _calculate_hash (set_data b d') <> _calculate_hash b ->
      is_chain_valid (mutate_data i d' s) = false).
Proof.
  intros Hb. destruct (built_well_formed s Hb) as [Hwf Hv].
  split; [exact Hv|]. split; [apply is_chain_valid_invariant; exact Hv|]. split.
  - intros d now fuel. pose proof (add_block_spec s d now fuel Hwf Hv) as H.
    destruct (add_block d now fuel s) as [b s'|e s'|] eqn:Ha; [|exact H|exact I].
    destruct H as (_ & Hv' & Hc & _).
    split; [exact Hc|]. split; [exact (Audit.built_add _ _ _ _ s d now fuel b s' Hb Ha)|].
    split; [exact Hv' | apply is_chain_valid_invariant; exact Hv'].
  - intros i b d' Hi Hl Hne.
    apply (mutated_block_detected s i b d' Hi Hl).
    assert (i < length (chain s))%nat as Hlt by (eapply lookup_lt_Some; eauto).
    destruct (lookup_lt_is_Some_2 (chain s) (i - 1)%nat ltac:(lia)) as [prev Hp].
    destruct (is_chain_valid_invariant s Hv i b prev ltac:(lia) Hl Hp)
      as (_ & Hh & _).
    rewrite Hh. intros [= Heq]. apply Hne. symmetry. exact Heq.
Qed.

Section ChainImport.
Variable json_loads : string -> option (list (block payload)).
Abbreviation import_chain :=
  (Audit.import_chain payload json_dumps sha256_hexdigest genesis_data json_loads).



End ChainImport.

End AuditFacts.

(** *** The audit chain on the demo instance *)

Lemma demo_state_built :
  Audit.built string Audit.demo_dumps Audit.demo_digest "genesis_block" Audit.demo_state.
Proof.
  eapply (Audit.built_add _ _ _ _ _ "login"%string "2025-01-01T00:00:01"%string 8%nat).
  - eapply (Audit.built_init _ _ _ _ "2025-01-01T00:00:00"%string 8%nat).
    vm_compute. reflexivity.
  - vm_compute. reflexivity.
Qed.

Lemma mine_block_witness :
  exists fuel r,
    Audit._mine_block string Audit.demo_dumps Audit.demo_digest fuel 4 Audit.demo_genesis
    = Some r.
Proof.
  apply (proj1 (proj2 (proj2 (mine_block_restarts_and_meets_target
                                string Audit.demo_dumps Audit.demo_digest 4
                                Audit.demo_genesis)))).
  exists 1. split; [unfold Audit.NONCE_BUDGET; lia | reflexivity].
Defined.

Lemma built_chain_witness :
  Audit.is_chain_valid string Audit.demo_dumps Audit.demo_digest Audit.demo_state = true /\
  Audit.is_chain_valid string Audit.demo_dumps Audit.demo_digest
    (Audit.mutate_data string 1 "logout" Audit.demo_state) = false.
Proof.
  destruct (built_chain_valid_and_tamper_evident
              string Audit.demo_dumps Audit.demo_digest "genesis_block"%string
              Audit.demo_state demo_state_built) as (Hv & _ & _ & Ht).
  split; [exact Hv|].
  eapply (Ht 1%nat); [apply Nat.le_refl | reflexivity | vm_compute; discriminate].
Defined.

(** C1, counterexample: on the two-block chain [demo_state], replacing the
    payload of the genesis block changes that block's digest, which no
    longer equals its stored hash, and [is_chain_valid] still returns
    true. *)
Lemma genesis_tamper_not_detected :
  Audit.built string Audit.demo_dumps Audit.demo_digest "genesis_block" Audit.demo_state /\
  (exists g,
      Audit.chain Audit.demo_state !! 0%nat = Some g /\
      Audit.data g <> "tampered"%string /\
      Audit.hash g <>
      Some (Audit._calculate_hash string Audit.demo_dumps Audit.demo_digest
              (Audit.set_data g "tampered"%string))) /\
  Audit.is_chain_valid string Audit.demo_dumps Audit.demo_digest
    (Audit.mutate_data string 0 "tampered" Audit.demo_state) = true.
Proof.
  split; [exact demo_state_built|]. split.
  - eexists. split; [vm_compute; reflexivity|].
    split; vm_compute; discriminate.
  - vm_compute. reflexivity.
Qed.



(* ===================================================================== *)
(** * Properties of the signature detector *)
(* ===================================================================== *)

Section DetectorFacts.
Import Detector.

Lemma feed_app (l1 l2 : list arrival) (s : detector) :
  feed s (l1 ++ l2)
  = let '(s1, r1) := feed s l1 in
    let '(s2, r2) := feed s1 l2 in (s2, r1 ++ r2).
Proof.
  revert s; induction l1 as [|a l1 IH]; intros s; simpl.
  - destruct (feed s l2); reflexivity.
  - destruct (detect_attack (pkt a) (uid a) (at_time a) s) as [s1 r].
    rewrite IH. destruct (feed s1 l1) as [s2 r1].
    destruct (feed s2 l2); reflexivity.
Qed.

Lemma tcp_to_target_inv (s : detector) (p : packet) (t : tcp_layer) :
  tcp_to_target s p = Some t ->
  exists l3, ip p = Some l3 /\ tcp p = Some t /\
             String.eqb (dst l3) (target_ip s) = true.
Proof.
  unfold tcp_to_target. destruct (ip p) as [l3|]; [|discriminate].
  destruct (tcp p) as [t'|]; [|discriminate].
  destruct (String.eqb (dst l3) (target_ip s)) eqn:E; [|discriminate].
  intros [= <-]. eauto.
Qed.

(** *** SYN flood *)

Lemma detect_syn_below (s : detector) (p : packet) (u n : string) :
  is_syn_only s p = true ->
  syn_flood_count s + 1 <= syn_flood_threshold s ->
  detect_attack p u n s = (set_syn_count s (syn_flood_count s + 1), None).
Proof.
  unfold is_syn_only. destruct (tcp_to_target s p) as [t|] eqn:Ht; [|discriminate].
  apply tcp_to_target_inv in Ht as (l3 & Hip & Htcp & Hdst).
  intros Hf Hc. unfold detect_attack. rewrite Hip, Htcp, Hdst, Hf. simpl.
  destruct (Z.gtb_spec (syn_flood_count s + 1) (syn_flood_threshold s));
    [lia | reflexivity].
Qed.

Lemma detect_syn_fire (s : detector) (p : packet) (u n : string) :
  is_syn_only s p = true ->
  syn_flood_count s + 1 > syn_flood_threshold s ->
  exists t,
    detect_attack p u n s = (set_syn_count s 0, Some t) /\
    attack_type t = "Flood Attacks"%string /\ threat_level t = "HIGH"%string /\
    Some (source_ip t) = src <$> ip p.
Proof.
  unfold is_syn_only. destruct (tcp_to_target s p) as [t|] eqn:Ht; [|discriminate].
  apply tcp_to_target_inv in Ht as (l3 & Hip & Htcp & Hdst).
  intros Hf Hc. unfold detect_attack. rewrite Hip, Htcp, Hdst, Hf. simpl.
  destruct (Z.gtb_spec (syn_flood_count s + 1) (syn_flood_threshold s)); [|lia].
  eexists. split; [reflexivity|]. simpl. auto.
Qed.

Lemma feed_syn_quiet (arrivals : list arrival) :
  forall s : detector,
    Forall (fun a => is_syn_only s (pkt a) = true) arrivals ->
    syn_flood_count s + Z.of_nat (length arrivals) <= syn_flood_threshold s ->
    feed s arrivals
    = (set_syn_count s (syn_flood_count s + Z.of_nat (length arrivals)),
       replicate (length arrivals) None).
Proof.
  induction arrivals as [|a rest IH]; intros s Hall Hc.
  - simpl. rewrite Z.add_0_r. destruct s; reflexivity.
  - inversion Hall as [|? ? Ha Hrest]; subst.
    cbn [feed]. rewrite detect_syn_below; [|exact Ha|simpl length in Hc; lia].
    rewrite IH; [| exact Hrest | simpl in *; lia].
    simpl. f_equal. unfold set_syn_count. simpl. f_equal. lia.
Qed.

(** *** Port scan *)

Lemma scan_port_inv (s : detector) (p : packet) (d : Z) :
  scan_port s p = Some d ->
  exists l3 t, ip p = Some l3 /\ tcp p = Some t /\
               String.eqb (dst l3) (target_ip s) = true /\
               (flags t =? 2) = false /\ dport t = d.
Proof.
  unfold scan_port. destruct (tcp_to_target s p) as [t|] eqn:Ht; [|discriminate].
  apply tcp_to_target_inv in Ht as (l3 & Hip & Htcp & Hdst).
  destruct (flags t =? 2) eqn:Hf; [discriminate|].
  intros [= <-]. exists l3, t. auto.
Qed.

Lemma detect_scan_below (s : detector) (p : packet) (u n : string) (d : Z) :
  scan_port s p = Some d ->
  Z.of_nat (size ({[d]} ∪ port_scan_ports s)) <= port_scan_threshold s ->
  detect_attack p u n s = (set_ports s ({[d]} ∪ port_scan_ports s), None).
Proof.
  intros Hs Hc. apply scan_port_inv in Hs as (l3 & t & Hip & Htcp & Hdst & Hf & <-).
  unfold detect_attack. rewrite Hip, Htcp, Hdst, Hf. simpl.
  destruct (Z.gtb_spec (Z.of_nat (size ({[dport t]} ∪ port_scan_ports s)))
              (port_scan_threshold s)); [lia | reflexivity].
Qed.

Lemma detect_scan_fire (s : detector) (p : packet) (u n : string) (d : Z) :
  scan_port s p = Some d ->
  Z.of_nat (size ({[d]} ∪ port_scan_ports s)) > port_scan_threshold s ->
  exists t,
    detect_attack p u n s = (set_ports s ∅, Some t) /\
    attack_type t = "Reconnaissance"%string /\ threat_level t = "MEDIUM"%string /\
    raw t = RawScan (last_ten ({[d]} ∪ port_scan_ports s))
              (Z.of_nat (size ({[d]} ∪ port_scan_ports s))).
Proof.
  intros Hs Hc. apply scan_port_inv in Hs as (l3 & t & Hip & Htcp & Hdst & Hf & <-).
  unfold detect_attack. rewrite Hip, Htcp, Hdst, Hf. simpl.
  destruct (Z.gtb_spec (Z.of_nat (size ({[dport t]} ∪ port_scan_ports s)))
              (port_scan_threshold s)); [|lia].
  eexists. split; [reflexivity|]. simpl. auto.
Qed.

Lemma size_add_fresh (d : Z) (X : gset Z) :
  d ∉ X -> size ({[d]} ∪ X) = S (size X).
Proof.
  intros Hd. rewrite size_union by set_solver. rewrite size_singleton. reflexivity.
Qed.

Lemma feed_scan_quiet (arrivals : list arrival) :
  forall (s : detector) (ports : list Z),
    map (fun a => scan_port s (pkt a)) arrivals = map Some ports ->
    NoDup ports ->
    (forall d, d ∈ ports -> d ∉ port_scan_ports s) ->
    Z.of_nat (size (port_scan_ports s) + length ports) <= port_scan_threshold s ->
    feed s arrivals
    = (set_ports s (list_to_set ports ∪ port_scan_ports s),
       replicate (length arrivals) None).
Proof.
  induction arrivals as [|a rest IH]; intros s ports Hmap Hnd Hfresh Hc.
  - destruct ports; [|discriminate]. simpl.
    rewrite (left_id_L ∅ (∪)). destruct s; reflexivity.
  - destruct ports as [|d ports]; [discriminate|].
    simpl in Hmap. injection Hmap as Hd Hmap.
    apply NoDup_cons in Hnd as [Hd_notin Hnd].
    assert (d ∉ port_scan_ports s) as Hd_fresh by (apply Hfresh; left).
    cbn [feed]. rewrite (detect_scan_below s (pkt a) _ _ d Hd);
      [|rewrite size_add_fresh by exact Hd_fresh; simpl length in Hc; lia].
    rewrite (IH _ ports); simpl.
    + f_equal. unfold set_ports. simpl. f_equal.
      rewrite (assoc_L (∪)). f_equal. apply (comm_L (∪)).
    + exact Hmap.
    + exact Hnd.
    + intros d' Hd'. specialize (Hfresh d' ltac:(right; exact Hd')).
      rewrite not_elem_of_union, not_elem_of_singleton. split; [|exact Hfresh].
      intros ->. contradiction.
    + rewrite size_add_fresh by exact Hd_fresh. simpl length in Hc. lia.
Qed.

Lemma last_ten_spec (X : gset Z) :
  (10 <= size X)%nat ->
  length (last_ten X) = 10%nat /\ NoDup (last_ten X) /\
  (forall d, d ∈ last_ten X -> d ∈ X).
Proof.
  intros Hs. unfold last_ten. unfold size, set_size in Hs. simpl in Hs.
  split; [rewrite length_drop; lia|]. split.
  - apply (sublist_NoDup _ (elements X)); [apply NoDup_elements | apply sublist_drop].
  - intros d Hd. apply elem_of_elements.
    apply (elem_of_sublist _ _ _ Hd). apply sublist_drop.
Qed.

(** *** The claims on the detector *)

(** C2 (as amended).  From a detector whose SYN counter, the one counter
    shared by all sources, is 0 and whose threshold is 50, fifty-one TCP
    packets from one source to the monitored target whose flags are
    exactly SYN (the flags value is 2), with nothing in between, give no
    alert on the first fifty packets and one "Flood Attacks"/HIGH alert
    for that source on the 51st, after which the SYN counter is 0. *)
Theorem syn_flood_alert_on_51st (s : detector) (from : string) (arrivals : list arrival) :
  syn_flood_count s = 0 -> syn_flood_threshold s = 50 ->
  length arrivals = 51%nat ->
  Forall (fun a => is_syn_only s (pkt a) = true /\
                   src <$> ip (pkt a) = Some from) arrivals ->
  exists s' t,
    feed s arrivals = (s', replicate 50 None ++ [Some t]) /\
    attack_type t = "Flood Attacks"%string /\ threat_level t = "HIGH"%string /\
    source_ip t = from /\ destination_ip t = target_ip s /\
    syn_flood_count s' = 0.
Proof.
  intros Hc Hth Hlen Hall.
  destruct (split_last 50 arrivals Hlen) as (front & a & -> & Hfront).
  apply Forall_app in Hall as [Hfr Ha].
  apply Forall_singleton in Ha as [Hsyn Hsrc].
  rewrite feed_app.
  rewrite feed_syn_quiet;
    [| eapply Forall_impl; [exact Hfr|]; simpl; tauto | rewrite Hfront; lia].
  rewrite Hfront, Hc. cbn [feed].
  set (s1 := set_syn_count s (0 + Z.of_nat 50)).
  destruct (detect_syn_fire s1 (pkt a) (uid a) (at_time a))
    as (t & Hd & Hty & Hlv & Hs); [exact Hsyn | simpl; lia |].
  rewrite Hd. exists (set_syn_count s1 0), t.
  split; [reflexivity|]. split; [exact Hty|]. split; [exact Hlv|].
  split; [rewrite Hsrc in Hs; congruence|]. split; [|reflexivity].
  clear - Hd Hsyn. subst s1. unfold is_syn_only in Hsyn.
  destruct (tcp_to_target s (pkt a)) as [l4|] eqn:Ht; [|discriminate].
  apply tcp_to_target_inv in Ht as (l3 & Hip & Htcp & Hdst).
  unfold detect_attack in Hd. rewrite Hip, Htcp in Hd. simpl in Hd.
  rewrite Hdst, Hsyn in Hd. simpl in Hd.
  destruct (_ >? _) in Hd; [|discriminate].
  injection Hd as <-. simpl. apply String.eqb_eq. exact Hdst.
Qed.

(** C3 (as amended).  A TCP packet to the monitored target that is not
    SYN-only has its destination port added to the port set before the
    threshold test (a SYN-only packet goes to the SYN-flood rule instead).
    From an empty port set and threshold 10, such packets to eleven
    distinct destination ports give no alert on the first ten and one
    "Reconnaissance"/MEDIUM alert on the eleventh; the alert reports the
    total of 11 ports and lists ten of them, and the port set is empty
    afterwards. *)
Theorem port_scan_alert_on_11th (s : detector) :
  (forall p u n d,
      scan_port s p = Some d ->
      let '(s', r) := detect_attack p u n s in
      (r = None /\ port_scan_ports s' = {[d]} ∪ port_scan_ports s) \/
      (exists t, r = Some t /\ port_scan_ports s' = ∅ /\
                 Z.of_nat (size ({[d]} ∪ port_scan_ports s)) > port_scan_threshold s)) /\
  (forall (arrivals : list arrival) (ports : list Z),
      port_scan_ports s = ∅ -> port_scan_threshold s = 10 ->
      map (fun a => scan_port s (pkt a)) arrivals = map Some ports ->
      NoDup ports -> length ports = 11%nat ->
      exists s' t listed,
        feed s arrivals = (s', replicate 10 None ++ [Some t]) /\
        attack_type t = "Reconnaissance"%string /\
        threat_level t = "MEDIUM"%string /\
        raw t = RawScan listed 11 /\
        length listed = 10%nat /\ NoDup listed /\
        (forall d, d ∈ listed -> d ∈ ports) /\
        port_scan_ports s' = ∅).
Proof.
  split.
  - intros p u n d Hs.
    destruct (Z.le_gt_cases (Z.of_nat (size ({[d]} ∪ port_scan_ports s)))
                (port_scan_threshold s)) as [Hle|Hgt].
    + rewrite (detect_scan_below s p u n d Hs Hle). left. auto.
    + destruct (detect_scan_fire s p u n d Hs) as (t & -> & _); [lia|].
      right. exists t. repeat split; auto. lia.
  - intros arrivals ports Hempty Hth Hmap Hnd Hlen.
    assert (length arrivals = 11%nat) as Hla.
    { rewrite <- (length_map (fun a => scan_port s (pkt a))), Hmap, length_map.
      exact Hlen. }
    destruct (split_last 10 arrivals Hla) as (front & a & -> & Hfront).
    destruct (split_last 10 ports Hlen) as (pfront & d & -> & Hpf).
    rewrite !map_app in Hmap. simpl in Hmap.
    apply app_inj_2 in Hmap as [Hmf Hma]; [|reflexivity].
    injection Hma as Hd.
    apply NoDup_app in Hnd as (Hndf & Hdisj & _).
    rewrite feed_app.
    rewrite (feed_scan_quiet front s pfront Hmf Hndf);
      [| intros d' _; rewrite Hempty; apply not_elem_of_empty
       | rewrite Hempty, size_empty, Hth; lia].
    rewrite Hempty, (right_id_L ∅ (∪)), Hfront. cbn [feed].
    set (s1 := set_ports s (list_to_set pfront)).
    assert (size (list_to_set pfront : gset Z) = 10%nat) as Hsz.
    { rewrite size_list_to_set by exact Hndf. lia. }
    assert (d ∉ (list_to_set pfront : gset Z)) as Hfresh.
    { rewrite elem_of_list_to_set. intros Hin. apply (Hdisj d Hin). left. }
    destruct (detect_scan_fire s1 (pkt a) (uid a) (at_time a) d)
      as (t & Hdet & Hty & Hlv & Hraw).
    { exact Hd. }
    { simpl. rewrite size_add_fresh by exact Hfresh. rewrite Hsz, Hth. lia. }
    rewrite Hdet. simpl in Hraw.
    rewrite size_add_fresh in Hraw by exact Hfresh. rewrite Hsz in Hraw.
    destruct (last_ten_spec ({[d]} ∪ list_to_set pfront)) as (Hl10 & Hnd10 & Hsub).
    { rewrite size_add_fresh by exact Hfresh. lia. }
    exists (set_ports s1 ∅), t, (last_ten ({[d]} ∪ list_to_set pfront)).
    split; [reflexivity|]. split; [exact Hty|]. split; [exact Hlv|].
    split; [exact Hraw|]. split; [exact Hl10|]. split; [exact Hnd10|].
    split; [|reflexivity].
    intros d' Hd'. apply Hsub in Hd'.
    rewrite elem_of_union, elem_of_singleton, elem_of_list_to_set in Hd'.
    rewrite elem_of_app, list_elem_of_singleton. tauto.
Qed.

End DetectorFacts.

(** *** The detector on the demo traffic *)

Lemma syn_flood_witness :
  exists s' t,
    Detector.feed Detector.new_detector Detector.demo_syn_flood
    = (s', replicate 50 None ++ [Some t]) /\
    Detector.attack_type t = "Flood Attacks"%string /\
    Detector.threat_level t = "HIGH"%string /\
    Detector.source_ip t = "192.168.100.152"%string /\
    Detector.destination_ip t = Detector.target_ip Detector.new_detector /\
    Detector.syn_flood_count s' = 0.
Proof.
  apply (syn_flood_alert_on_51st Detector.new_detector "192.168.100.152"
           Detector.demo_syn_flood); try reflexivity.
  unfold Detector.demo_syn_flood. simpl repeat.
  repeat (constructor; [split; reflexivity|]). constructor.
Defined.

Lemma port_scan_witness :
  exists s' t listed,
    Detector.feed Detector.new_detector (Detector.demo_scan 16)
    = (s', replicate 10 None ++ [Some t]) /\
    Detector.attack_type t = "Reconnaissance"%string /\
    Detector.threat_level t = "MEDIUM"%string /\
    Detector.raw t = Detector.RawScan listed 11 /\
    length listed = 10%nat /\ NoDup listed /\
    (forall d, d ∈ listed -> d ∈ map Z.of_nat (seq 1 11)) /\
    Detector.port_scan_ports s' = ∅.
Proof.
  apply (proj2 (port_scan_alert_on_11th Detector.new_detector)
           (Detector.demo_scan 16) (map Z.of_nat (seq 1 11)));
    try reflexivity.
  apply (NoDup_fmap_2 Z.of_nat), NoDup_seq.
Defined.

(** C2, counterexample: fifty-one segments from one source with SYN set
    and ACK clear, which also carry ECE and CWR, raise no alert and leave
    the SYN counter at 0; and after ten SYN-only segments from another
    source, fifty-one SYN-only segments from the source raise the alert on
    the source's 41st segment, none on its 51st, and leave the counter at
    10. *)
Lemma syn_flood_claim_fails :
  Z.land 194 2 = 2 /\ Z.land 194 16 = 0 /\
  snd (Detector.feed Detector.new_detector Detector.demo_ecn_syn_flood)
  = replicate 51 None /\
  Detector.syn_flood_count
    (fst (Detector.feed Detector.new_detector Detector.demo_ecn_syn_flood)) = 0 /\
  exists t,
    snd (Detector.feed
           (fst (Detector.feed Detector.new_detector Detector.demo_other_source))
           Detector.demo_syn_flood)
    = replicate 40 None ++ [Some t] ++ replicate 10 None /\
    Detector.source_ip t = "192.168.100.152"%string /\
    Detector.syn_flood_count
      (fst (Detector.feed
              (fst (Detector.feed Detector.new_detector Detector.demo_other_source))
              Detector.demo_syn_flood)) = 10.
Proof.
  split; [reflexivity|]. split; [reflexivity|].
  split; [vm_compute; reflexivity|]. split; [vm_compute; reflexivity|].
  eexists. split; [vm_compute; reflexivity|].
  split; [reflexivity | vm_compute; reflexivity].
Qed.

(** C3, counterexample: a SYN-only segment to port 80 of the target is
    evaluated by the detector and leaves the port set empty; and the alert
    raised by a scan of the eleven ports 1..11 reports 11 ports but lists
    only ten of them, so one scanned port is missing from it. *)
Lemma port_scan_claim_fails :
  Detector.port_scan_ports
    (fst (Detector.detect_attack
            (Detector.tcp_packet "192.168.100.152" "192.168.100.124" 40000 80 2)
            "uid" "2025-01-01T00:00:00" Detector.new_detector)) = ∅ /\
  exists t listed,
    snd (Detector.feed Detector.new_detector (Detector.demo_scan 16))
    = replicate 10 None ++ [Some t] /\
    Detector.raw t = Detector.RawScan listed 11 /\
    length listed = 10%nat /\
    exists d, In d (map Z.of_nat (seq 1 11)) /\ ~ In d listed.
Proof.
  split; [vm_compute; reflexivity|].
  eexists. eexists. split; [vm_compute; reflexivity|].
  split; [reflexivity|]. split; [reflexivity|].
  exists 11. split; [vm_compute; tauto|].
  vm_compute. intros H.
  repeat (destruct H as [H|H]; [discriminate H|]). exact H.
Qed.

(* ===================================================================== *)
(** * Properties of the IDS service *)
(* ===================================================================== *)

Section IDSFacts.
Import IDS.

(** *** Comparisons of binary64 values *)

Lemma SFcompare_antisym (a b : spec_float) :
  SFcompare b a = option_map CompOpp (SFcompare a b).
Proof.
  destruct a as [sa|sa| |sa ma ea], b as [sb|sb| |sb mb eb]; simpl;
    try reflexivity;
    try (destruct sa; reflexivity); try (destruct sb; reflexivity);
    try (destruct sa, sb; reflexivity).
  f_equal. rewrite (Z.compare_antisym ea eb).
  destruct sa, sb; simpl; try reflexivity;
    destruct (ea ?= eb); simpl; try reflexivity.
  - rewrite (Pos.compare_cont_antisym ma mb Eq). reflexivity.
  - rewrite (Pos.compare_cont_antisym ma mb Eq). reflexivity.
Qed.

Lemma float_leb_not_ltb (x y : float) :
  (y <=? x)%float = true -> (x <? y)%float = false.
Proof.
  rewrite leb_spec, ltb_spec. unfold SFleb, SFltb.
  rewrite (SFcompare_antisym (Prim2SF x) (Prim2SF y)).
  destruct (SFcompare (Prim2SF x) (Prim2SF y)) as [[]|]; simpl; congruence.
Qed.

(** *** Threat levels *)

Lemma threat_mapping_base (class_name : string) :
  String.eqb class_name "Benign" = false ->
  default "MEDIUM"%string (threat_mapping !! class_name)
  = level_value (base_level class_name).
Proof.
  intros Hb. unfold base_level. rewrite Hb.
  repeat match goal with
         | |- context [String.eqb class_name ?k] =>
             destruct (String.eqb_spec class_name k) as [->|?]; [reflexivity|]
         end.
  unfold threat_mapping. simpl list_to_map.
  rewrite !lookup_insert_ne by congruence. rewrite lookup_empty. reflexivity.
Qed.

Lemma level_downgrade_step (l : ThreatLevel) :
  default "LOW"%string (level_downgrade !! level_value l)
  = level_value (one_step_down l).
Proof. destruct l; reflexivity. Qed.

(** *** Blocking and unblocking *)





(** *** The claims on the IDS service *)

(** C9.  Below confidence 0.7 the level returned for a label is one step
    down from the label's base level in the fixed table (CRITICAL to HIGH,
    HIGH to MEDIUM, MEDIUM to LOW, LOW to LOW); from 0.7 on it is the base
    level itself; "Backdoors & Exploits", whose base level is CRITICAL,
    gets HIGH at confidence 0.65. *)
Theorem low_confidence_downgrades_one_step (class_name : string) (confidence : float) :
  ((confidence <? CONFIDENCE_CUT)%float = true ->
   _get_threat_level class_name confidence
   = level_value (one_step_down (base_level class_name))) /\
  ((CONFIDENCE_CUT <=? confidence)%float = true ->
   _get_threat_level class_name confidence = level_value (base_level class_name)) /\
  base_level "Backdoors & Exploits" = CRITICAL /\
  _get_threat_level "Backdoors & Exploits" 0x1.4cccccccccccdp-1 = "HIGH"%string /\
  (one_step_down CRITICAL = HIGH /\ one_step_down HIGH = MEDIUM /\
   one_step_down MEDIUM = LOW /\ one_step_down LOW = LOW).
Proof.
  split; [|split; [|repeat split]].
  - intros Hlt. unfold _get_threat_level.
    destruct (String.eqb class_name "Benign") eqn:Hb.
    + unfold base_level. rewrite Hb. reflexivity.
    + rewrite Hlt, (threat_mapping_base _ Hb). apply level_downgrade_step.
  - intros Hge. apply float_leb_not_ltb in Hge. unfold _get_threat_level.
    destruct (String.eqb class_name "Benign") eqn:Hb.
    + unfold base_level. rewrite Hb. reflexivity.
    + rewrite Hge. apply (threat_mapping_base _ Hb).
Qed.


End IDSFacts.

(* ===================================================================== *)
(** * Properties of the alert hub *)
(* ===================================================================== *)

Section HubFacts.
Import Hub.
Variable connected : conn -> bool.
Variable send_text : conn -> string -> option exn.

Abbreviation send_all := (Hub.send_all connected send_text).
Abbreviation broadcast := (Hub.broadcast connected send_text).

Lemma send_all_app (message : string) (l1 l2 : list conn) :
  send_all message (l1 ++ l2)
  = (fst (send_all message l1) ++ fst (send_all message l2),
     snd (send_all message l1) ++ snd (send_all message l2)).
Proof.
  induction l1 as [|c l1 IH]; simpl.
  - destruct (send_all message l2); reflexivity.
  - rewrite IH. destruct (send_all message l1) as [d1 x1]. simpl.
    destruct (connected c); [destruct (send_text c message)|]; reflexivity.
Qed.

Lemma send_all_healthy (message : string) (l : list conn) :
  (forall c, c ∈ l -> connected c = true /\ send_text c message = None) ->
  send_all message l = (l, []).
Proof.
  induction l as [|c l IH]; intros H; simpl; [reflexivity|].
  rewrite IH by (intros c' Hc'; apply H; right; exact Hc').
  destruct (H c ltac:(left)) as [-> ->]. reflexivity.
Qed.

Lemma remove_first_middle (j : conn) (l1 l2 : list conn) :
  j ∉ l1 -> remove_first j (l1 ++ j :: l2) = l1 ++ l2.
Proof.
  induction l1 as [|c l1 IH]; intros Hj; simpl.
  - rewrite Nat.eqb_refl. reflexivity.
  - apply not_elem_of_cons in Hj as [Hne Hj].
    destruct (Nat.eqb_spec c j); [congruence|]. rewrite IH by exact Hj. reflexivity.
Qed.

(** *** The claim on the hub *)

(** C6.  When the K subscribers of the hub are distinct and connected and
    sending the message raises for subscriber [j] only, [broadcast]
    delivers the message to the K-1 others, in list order, removes [j]
    and its connection record, keeps all the others, and the connection
    count afterwards is K-1. *)
Theorem broadcast_isolates_failure (s : manager) (j : conn) (message : string) (e : exn) :
  NoDup (active_connections s) ->
  j ∈ active_connections s ->
  (forall c, c ∈ active_connections s -> connected c = true) ->
  send_text j message = Some e ->
  (forall c, c ∈ active_connections s -> c <> j -> send_text c message = None) ->
  exists l1 l2,
    active_connections s = l1 ++ j :: l2 /\
    broadcast message s
    = (mkManager (l1 ++ l2) (delete j (connection_info s)), l1 ++ l2) /\
    (j ∉ (l1 ++ l2)) /\
    (forall c, c ∈ active_connections s -> c <> j -> c ∈ (l1 ++ l2)) /\
    S (get_connection_count (fst (broadcast message s))) = get_connection_count s.
Proof.
  intros Hnd Hj Hconn Hfail Hok.
  apply list_elem_of_split in Hj as (l1 & l2 & Hs).
  rewrite Hs in Hnd. apply NoDup_app in Hnd as (_ & Hj1 & Hnd2).
  apply NoDup_cons in Hnd2 as [Hj2 _].
  assert (j ∉ l1) as Hnot1.
  { intros Hin. apply (Hj1 j Hin). left. }
  assert (forall l, (forall c, c ∈ l -> c ∈ active_connections s /\ c <> j) ->
                    send_all message l = (l, [])) as Hhealthy.
  { intros l Hl. apply send_all_healthy. intros c Hc.
    destruct (Hl c Hc) as [Hin Hne]. auto. }
  assert (send_all message l1 = (l1, [])) as H1.
  { apply Hhealthy. intros c Hc. split.
    - rewrite Hs. apply elem_of_app. left. exact Hc.
    - intros ->. contradiction. }
  assert (send_all message l2 = (l2, [])) as H2.
  { apply Hhealthy. intros c Hc. split.
    - rewrite Hs. apply elem_of_app. right. right. exact Hc.
    - intros ->. contradiction. }
  assert (broadcast message s
          = (mkManager (l1 ++ l2) (delete j (connection_info s)), l1 ++ l2)) as Hb.
  { unfold Hub.broadcast. rewrite Hs, send_all_app. rewrite H1.
    cbn [Hub.send_all]. rewrite H2.
    rewrite (Hconn j) by (rewrite Hs; apply elem_of_app; right; left).
    rewrite Hfail. simpl. unfold disconnect.
    rewrite bool_decide_eq_true_2 by (rewrite Hs; apply elem_of_app; right; left).
    rewrite Hs, remove_first_middle by exact Hnot1. reflexivity. }
  exists l1, l2. split; [exact Hs|]. split; [exact Hb|]. split; [|split].
  - rewrite elem_of_app. tauto.
  - intros c Hc Hne. rewrite Hs in Hc.
    rewrite elem_of_app, elem_of_cons in Hc. rewrite elem_of_app. tauto.
  - rewrite Hb. unfold get_connection_count. simpl.
    rewrite Hs, !length_app. simpl. lia.
Qed.

End HubFacts.

Lemma broadcast_witness :
  exists l1 l2,
    Hub.active_connections Hub.demo_manager = l1 ++ 2%nat :: l2 /\
    Hub.broadcast (fun _ => true) Hub.demo_send "alert" Hub.demo_manager
    = (Hub.mkManager (l1 ++ l2)
         (delete 2%nat (Hub.connection_info Hub.demo_manager)), l1 ++ l2) /\
    (2%nat ∉ (l1 ++ l2)) /\
    (forall c, c ∈ Hub.active_connections Hub.demo_manager -> c <> 2%nat ->
               c ∈ (l1 ++ l2)) /\
    S (Hub.get_connection_count
         (fst (Hub.broadcast (fun _ => true) Hub.demo_send "alert" Hub.demo_manager)))
    = Hub.get_connection_count Hub.demo_manager.
Proof.
  apply (broadcast_isolates_failure (fun _ => true) Hub.demo_send
           Hub.demo_manager 2%nat "alert" SendError).
  - apply (NoDup_fmap_2 S (seq 0 3)), NoDup_seq.
  - right. left.
  - reflexivity.
  - reflexivity.
  - intros c _ Hc. unfold Hub.demo_send.
    destruct (Nat.eqb_spec c 2); [contradiction | reflexivity].
Defined.

(** *** The IDS service on concrete inputs *)

Lemma low_confidence_witness :
  IDS._get_threat_level "Flood Attacks" 0.5 = "MEDIUM"%string /\
  IDS._get_threat_level "Flood Attacks" 0.75 = "HIGH"%string.
Proof.
  split.
  - exact (proj1 (low_confidence_downgrades_one_step "Flood Attacks" 0.5) eq_refl).
  - exact (proj1 (proj2 (low_confidence_downgrades_one_step "Flood Attacks" 0.75))
             eq_refl).
Defined.


(* ===================================================================== *)
(** * Properties of the evidence buffer and of the alert path *)
(* ===================================================================== *)

Section MonitorFacts.
Import Monitor.

(** *** The per-key cap *)



(** *** The window *)



(** *** The stable sort *)






Section Snapshot.
Variable reconstructs : list Byte.byte -> bool.
Variable scapy_available : bool.
Variable wrpcap_getvalue : list frame -> option (list Byte.byte).
Abbreviation snapshot := (Monitor.temp_packets reconstructs).
Abbreviation generate_pcap :=
  (Monitor._generate_pcap_for_threat reconstructs scapy_available wrpcap_getvalue).

Lemma generate_pcap_eq (source_ip dest_ip : string) (now1 now2 : Z)
  (buf : gmap string (list frame)) :
  generate_pcap source_ip dest_ip now1 now2 buf
  = match snapshot source_ip dest_ip now1 now2 buf with
    | [] => None
    | _ :: _ =>
        if scapy_available
        then wrpcap_getvalue (snapshot source_ip dest_ip now1 now2 buf)
        else None
    end.
Proof.
  unfold Monitor._generate_pcap_for_threat, Monitor.temp_packets.
  destruct scapy_available; simpl.
  - destruct (recent_of buf (packet_key source_ip dest_ip) now1
                ++ recent_of buf (packet_key dest_ip source_ip) now2) as [|f l];
      reflexivity.
  - destruct (List.filter _ _); reflexivity.
Qed.

Lemma generate_pcap_closed (source_ip dest_ip : string) (now1 now2 : Z)
  (buf : gmap string (list frame)) :
  (forall packets, wrpcap_getvalue packets = None) ->
  generate_pcap source_ip dest_ip now1 now2 buf = None.
Proof.
  intros Hw. rewrite generate_pcap_eq, Hw.
  destruct (snapshot _ _ _ _ _); [reflexivity|].
  destruct scapy_available; reflexivity.
Qed.


(** *** The claim on the evidence snapshot *)


End Snapshot.

(** *** The alert path *)

Section AlertPath.
Variable classify : IDS.packet_info -> string * float.
Variable describe : string -> float -> string.
Variable reconstructs : list Byte.byte -> bool.
Variable is_local_network_ip : string -> string -> bool.
Variable cfg : settings.
Variable scapy_available : bool.
Variable wrpcap_getvalue : list frame -> option (list Byte.byte).

Abbreviation analyze :=
  (Monitor._analyze_packet_for_threats classify describe reconstructs
     is_local_network_ip cfg true scapy_available wrpcap_getvalue).

(** C5 (the behaviour of the code).  A packet that passes the pre-filter
    and is classified "Benign" with a confidence above 0.7 (and within
    [0, 1]) is not stored in the recent alerts, but its alert, of type
    BENIGN, is broadcast to the subscribers and handed to the database:
    the guard compares the type with "BENIGN", which is not the value
    "Benign" of any member. *)
Theorem benign_prediction_is_sent_out (info : IDS.packet_info) (uid now : string)
  (now1 now2 : Z) (buf : gmap string (list frame)) (s : IDS.ids) (c : float) :
  IDS.is_initialized s = true -> IDS.model_loaded s = true ->
  filtered_out is_local_network_ip cfg info = false ->
  classify info = ("Benign"%string, c) ->
  (0 <=? c)%float = true -> (c <=? 1)%float = true ->
  (IDS.CONFIDENCE_CUT <? c)%float = true ->
  exists alert pcap_data,
    analyze info uid now now1 now2 buf s
    = (s, [Broadcast alert; SaveThreat alert pcap_data]) /\
    IDS.attack_type alert = IDS.BENIGN /\ IDS.confidence alert = c /\
    IDS.attack_value (IDS.attack_type alert) = "Benign"%string.
Proof.
  intros Hi Hm Hf Hc H0 H1 Hcut.
  unfold Monitor._analyze_packet_for_threats, IDS.predict_attack.
  rewrite Hf, Hi, Hm, Hc. simpl. rewrite H0, H1. simpl. rewrite Hcut. simpl.
  eexists. eexists. split; [reflexivity|]. simpl. auto.
Qed.

End AlertPath.

End MonitorFacts.

(** *** The monitor on concrete traffic *)





Lemma benign_alert_witness :
  exists alert pcap_data,
    Monitor._analyze_packet_for_threats Monitor.benign_classifier
      (fun _ _ => "Detected Benign"%string) (fun _ => true) (fun _ _ => false)
      Monitor.default_settings true true Monitor.closing_writer Monitor.demo_info
      "uid" "2025-01-01T00:00:00" 1 1 Monitor.small_buffer Monitor.fresh_ids
    = (Monitor.fresh_ids,
       [Monitor.Broadcast alert; Monitor.SaveThreat alert pcap_data]) /\
    IDS.attack_type alert = IDS.BENIGN /\
    IDS.confidence alert = 0x1.ccccccccccccdp-1%float /\
    IDS.attack_value (IDS.attack_type alert) = "Benign"%string.
Proof.
  apply (benign_prediction_is_sent_out Monitor.benign_classifier
           (fun _ _ => "Detected Benign"%string) (fun _ => true) (fun _ _ => false)
           Monitor.default_settings true Monitor.closing_writer Monitor.demo_info);
    reflexivity.
Defined.

(* ===================================================================== *)
(** * Further properties of the audit chain *)
(* ===================================================================== *)

Lemma py_slice_from_last {A : Type} (n : Z) (l : list A) :
  1 <= n <= Z.of_nat (length l) ->
  py_slice_from (- n) l = drop (length l - Z.to_nat n) l.
Proof.
  intros Hn. unfold py_slice_from.
  destruct (Z.ltb_spec (- n) 0); [|lia]. f_equal. lia.
Qed.

Lemma py_slice_from_0 {A : Type} (l : list A) : py_slice_from 0 l = l.
Proof. unfold py_slice_from. simpl. rewrite Z.min_l by lia. reflexivity. Qed.

Lemma py_slice_from_all {A : Type} (n : Z) (l : list A) :
  Z.of_nat (length l) <= n -> py_slice_from (- n) l = l.
Proof.
  intros Hn. unfold py_slice_from.
  destruct (Z.ltb_spec (- n) 0).
  - rewrite Z.max_r by lia. reflexivity.
  - assert (n = 0) as -> by lia. simpl. rewrite Z.min_l by lia. reflexivity.
Qed.

Section AuditApiFacts.
Import Audit AuditApi.
Variable payload : Type.
Variable json_dumps : Z -> string -> payload -> option string -> Z -> string.
Variable sha256_hexdigest : string -> string.
Variable genesis_data : payload.

Abbreviation blk := (block payload).
Abbreviation st := (audit payload).
Abbreviation _calculate_hash := (Audit._calculate_hash payload json_dumps sha256_hexdigest).
Abbreviation _mine_block := (Audit._mine_block payload json_dumps sha256_hexdigest).
Abbreviation _is_valid_block := (Audit._is_valid_block payload json_dumps sha256_hexdigest).
Abbreviation valid_at := (Audit.valid_at payload json_dumps sha256_hexdigest).
Abbreviation is_chain_valid := (Audit.is_chain_valid payload json_dumps sha256_hexdigest).
Abbreviation init := (Audit.init payload json_dumps sha256_hexdigest genesis_data).
Abbreviation add_block := (Audit.add_block payload json_dumps sha256_hexdigest).
Abbreviation built := (Audit.built payload json_dumps sha256_hexdigest genesis_data).
Abbreviation get_recent_blocks := (AuditApi.get_recent_blocks payload).
Abbreviation get_block_by_index := (AuditApi.get_block_by_index payload).

(** X1.  [get_recent_blocks(n)] returns the last [n] blocks when
    [1 <= n <= len(chain)]; it returns the whole chain when [n] exceeds
    the length and also when [n] is 0; a negative [n] drops the first
    [-n] blocks. *)
Theorem get_recent_blocks_cases (n : Z) (s : st) :
  (1 <= n <= Z.of_nat (length (chain s)) ->
   get_recent_blocks n s = drop (length (chain s) - Z.to_nat n) (chain s) /\
   length (get_recent_blocks n s) = Z.to_nat n) /\
  (Z.of_nat (length (chain s)) < n -> get_recent_blocks n s = chain s) /\
  (n = 0 -> get_recent_blocks n s = chain s) /\
  (n < 0 -> get_recent_blocks n s = drop (Z.to_nat (- n)) (chain s)).
Proof.
  unfold AuditApi.get_recent_blocks.
  split; [|split; [|split]].
  - intros Hn. destruct (Z.geb_spec (Z.of_nat (length (chain s))) n); [|lia].
    rewrite py_slice_from_last by lia. split; [reflexivity|].
    rewrite length_drop. lia.
  - intros Hn. destruct (Z.geb_spec (Z.of_nat (length (chain s))) n); [lia|].
    reflexivity.
  - intros ->. simpl. destruct (Z.geb_spec (Z.of_nat (length (chain s))) 0); [|lia].
    apply py_slice_from_0.
  - intros Hn. destruct (Z.geb_spec (Z.of_nat (length (chain s))) n); [|lia].
    unfold py_slice_from. destruct (Z.ltb_spec (- n) 0); [lia|].
    destruct (Z.le_gt_cases (- n) (Z.of_nat (length (chain s)))).
    + rewrite Z.min_l by lia. reflexivity.
    + rewrite Z.min_r by lia. rewrite Nat2Z.id.
      rewrite !drop_ge by lia. reflexivity.
Qed.

(** *** The shape of built chains *)

Lemma mine_nonce_bounds (fuel : nat) :
  forall (d : Z) (b : blk) (h : string) (b' : blk) (d' : Z),
    _mine_block fuel d b = Some (h, b', d') ->
    0 <= nonce b <= NONCE_BUDGET -> 0 <= nonce b' <= NONCE_BUDGET.
Proof.
  induction fuel as [|fuel IH]; intros d b h b' d' Hm Hb; [discriminate|].
  simpl in Hm.
  destruct (String.prefix (zeros (Z.to_nat d)) (_calculate_hash b)).
  - injection Hm as _ <- _. exact Hb.
  - destruct (Z.gtb_spec (nonce b + 1) NONCE_BUDGET).
    + apply IH in Hm; [exact Hm|]. simpl. unfold NONCE_BUDGET. lia.
    + apply IH in Hm; [exact Hm|]. simpl. lia.
Qed.

(** What every block of the chain satisfies at difficulty [d]. *)
Lemma mined_block_shape (fuel : nat) (d : Z) (b0 : blk) (h : string) (b : blk) (d' : Z) :
  _mine_block fuel d b0 = Some (h, b, d') -> nonce b0 = 0 -> hash b0 = None ->
  let b' := set_hash b (Some h) in
  index b' = index b0 /\ data b' = data b0 /\ previous_hash b' = previous_hash b0 /\
  hash b' = Some (_calculate_hash b') /\
  0 <= nonce b' <= NONCE_BUDGET /\
  (Z.to_nat d' <= leading_zeros (_calculate_hash b'))%nat.
Proof.
  intros Hm Hn Hh.
  pose proof (mine_nonce_bounds _ _ _ _ _ _ Hm) as Hnb.
  apply mine_sound in Hm as (-> & Hp & Hb & _).
  rewrite Hb. simpl. repeat split; try reflexivity.
  - rewrite Hb in Hnb. simpl in Hnb. apply Hnb. unfold NONCE_BUDGET. lia.
  - rewrite Hb in Hnb. simpl in Hnb. apply Hnb. unfold NONCE_BUDGET. lia.
  - apply prefix_zeros_leading. rewrite Hb in Hp. exact Hp.
Qed.

Lemma built_blocks (s : st) :
  built s ->
  1 <= difficulty s <= 4 /\
  (exists g, chain s !! 0%nat = Some g /\ index g = 0 /\
             previous_hash g = Some "0"%string /\ data g = genesis_data) /\
  (forall (i : nat) (b : blk),
      chain s !! i = Some b ->
      index b = Z.of_nat i /\ hash b = Some (_calculate_hash b) /\
      0 <= nonce b <= NONCE_BUDGET /\
      (Z.to_nat (difficulty s) <= leading_zeros (_calculate_hash b))%nat).
Proof.
  induction 1 as [now fuel s Hi | s d now fuel b s' Hb IH Ha].
  - unfold Audit.init, Audit.create_genesis_block in Hi. simpl in Hi.
    destruct (_mine_block fuel 4 _) as [[[h g] d']|] eqn:Hm; [|discriminate].
    injection Hi as <-.
    pose proof (mined_block_shape _ _ _ _ _ _ Hm eq_refl eq_refl)
      as (Hix & Hdt & Hph & Hh & Hn & Hz).
    apply mine_sound in Hm as (_ & _ & _ & Hd). simpl.
    split; [lia|]. split.
    + eexists. split; [reflexivity|]. auto.
    + intros [|i] b'; simpl; [|discriminate]. intros [= <-].
      rewrite Hix. auto.
  - destruct IH as (Hd & (g & Hg & Hgen) & Hall).
    unfold Audit.add_block in Ha.
    destruct (last (chain s)) as [prev|] eqn:Hlast; [|discriminate].
    destruct (_mine_block fuel (difficulty s) _) as [[[h b0] d']|] eqn:Hm;
      [|discriminate].
    pose proof (mined_block_shape _ _ _ _ _ _ Hm eq_refl eq_refl)
      as (Hix & _ & _ & Hh & Hn & Hz).
    apply mine_sound in Hm as (_ & _ & _ & Hd'). specialize (Hd' ltac:(lia)).
    destruct (Audit._is_valid_block _ _ _ d' _ prev); [|discriminate].
    injection Ha as <- <-. simpl.
    split; [lia|]. split.
    + exists g. split; [|exact Hgen].
      rewrite lookup_app_l; [exact Hg|]. eapply lookup_lt_Some; eauto.
    + intros i b' Hi.
      destruct (Nat.lt_ge_cases i (length (chain s))) as [Hlt|Hge].
      * rewrite lookup_app_l in Hi by exact Hlt.
        destruct (Hall i b' Hi) as (? & ? & ? & ?). repeat split; auto; lia.
      * assert (i = length (chain s)) as ->.
        { apply lookup_lt_Some in Hi. rewrite length_app in Hi. simpl in Hi. lia. }
        rewrite list_lookup_middle in Hi by reflexivity. injection Hi as <-.
        rewrite Hix. simpl. auto.
Qed.

(** X2.  In a chain built by the constructor and [add_block], the
    difficulty stays between 1 and 4, the first block is the genesis
    block, and every block, the genesis block included, is numbered by its
    position, stores the digest of its own contents, has a nonce within
    the budget and a digest with at least [difficulty] leading zeros. *)
Theorem built_chain_shape (s : st) :
  built s ->
  1 <= difficulty s <= 4 /\
  (exists g, chain s !! 0%nat = Some g /\ index g = 0 /\
             previous_hash g = Some "0"%string /\ data g = genesis_data) /\
  (forall (i : nat) (b : blk),
      chain s !! i = Some b ->
      index b = Z.of_nat i /\ hash b = Some (_calculate_hash b) /\
      0 <= nonce b <= NONCE_BUDGET /\
      (Z.to_nat (difficulty s) <= leading_zeros (_calculate_hash b))%nat).
Proof. apply built_blocks. Qed.

(** X3.  On a built chain [get_block_by_index(i)] returns, for
    [0 <= i < len(chain)], a block whose ['index'] entry is [i]; outside
    that range (negative indices included) it returns None. *)
Theorem get_block_by_index_built (s : st) (i : Z) :
  (built s -> 0 <= i < Z.of_nat (length (chain s)) ->
   exists b, get_block_by_index i s = Some b /\ index b = i) /\
  (i < 0 \/ Z.of_nat (length (chain s)) <= i -> get_block_by_index i s = None).
Proof.
  unfold AuditApi.get_block_by_index. split.
  - intros Hb Hi.
    destruct (Z.leb_spec 0 i); [|lia].
    destruct (Z.ltb_spec i (Z.of_nat (length (chain s)))); [|lia]. simpl.
    destruct (lookup_lt_is_Some_2 (chain s) (Z.to_nat i) ltac:(lia)) as [b Hl].
    exists b. split; [exact Hl|].
    destruct (built_blocks s Hb) as (_ & _ & Hall).
    destruct (Hall _ _ Hl) as (-> & _). lia.
  - intros [Hi|Hi].
    + destruct (Z.leb_spec 0 i); [lia | reflexivity].
    + destruct (Z.ltb_spec i (Z.of_nat (length (chain s)))); [lia|].
      rewrite andb_false_r. reflexivity.
Qed.

(** X4.  Every contiguous segment of a chain that passes
    [is_chain_valid] passes it too: cutting blocks off the end of the
    chain, or off its beginning, is not detected. *)
Theorem chain_segment_still_valid (s : st) (m n : nat) :
  is_chain_valid s = true ->
  is_chain_valid (mkAudit (take n (drop m (chain s))) (difficulty s)) = true.
Proof.
  intros Hv. rewrite is_chain_valid_true in Hv.
  apply is_chain_valid_true. simpl. intros i Hi.
  rewrite length_take, length_drop in Hi.
  specialize (Hv (m + i)%nat ltac:(lia)).
  unfold Audit.valid_at in *.
  rewrite !lookup_take_lt, !lookup_drop by lia.
  replace (m + (i - 1))%nat with (m + i - 1)%nat by lia. exact Hv.
Qed.

(** X5.  Removing a block that has both a predecessor and a successor
    from a built chain is detected: [is_chain_valid] returns false. *)
Theorem removed_inner_block_detected (s : st) (i : nat) :
  built s -> (1 <= i)%nat -> (i + 1 < length (chain s))%nat ->
  is_chain_valid (mkAudit (delete i (chain s)) (difficulty s)) = false.
Proof.
  intros Hb H1 H2.
  destruct (is_chain_valid _) eqn:Hv; [|reflexivity]. exfalso.
  rewrite is_chain_valid_true in Hv. simpl in Hv.
  specialize (Hv i). rewrite length_delete in Hv
    by (apply lookup_lt_is_Some_2; lia).
  specialize (Hv ltac:(lia)). unfold Audit.valid_at in Hv.
  rewrite list_lookup_delete_ge, list_lookup_delete_lt in Hv by lia.
  destruct (lookup_lt_is_Some_2 (chain s) (S i) ltac:(lia)) as [cur Hc].
  destruct (lookup_lt_is_Some_2 (chain s) (i - 1)%nat ltac:(lia)) as [prev Hp].
  rewrite Hc, Hp in Hv. apply is_valid_block_true in Hv as (Hix & _).
  destruct (built_blocks s Hb) as (_ & _ & Hall).
  destruct (Hall _ _ Hc) as (Hic & _). destruct (Hall _ _ Hp) as (Hip & _).
  lia.
Qed.

Section RoundTrip.
Variable json_loads : string -> option (list blk).
Variable dumps_chain : list blk -> string.
Abbreviation import_chain :=
  (Audit.import_chain payload json_dumps sha256_hexdigest genesis_data json_loads).
Abbreviation export_chain := (AuditApi.export_chain payload dumps_chain).

Lemma init_difficulty (now : string) (fuel : nat) (tmp : st) :
  init now fuel = Ok tt tmp -> 1 <= difficulty tmp <= 4.
Proof.
  intros Hi. apply (built_blocks tmp (Audit.built_init _ _ _ _ now fuel tmp Hi)).
Qed.

(** X6.  Exporting a built chain as JSON and importing the text back into
    the same object succeeds and leaves the object as it was, provided
    the chain's difficulty was never lowered (it is 4) or, more generally,
    is not below the difficulty of the validator built during the import;
    any other export format raises ValueError. *)
Theorem export_import_round_trip (s tmp : st) (format now : string) (fuel : nat) :
  (lower format <> "json"%string ->
   export_chain format s
   = inl (ValueError ("Unsupported export format: " ++ format))) /\
  (built s -> lower format = "json"%string ->
   json_loads (dumps_chain (chain s)) = Some (chain s) ->
   init now fuel = Ok tt tmp ->
   difficulty s = 4 \/ difficulty tmp <= difficulty s ->
   exists text,
     export_chain format s = inr text /\
     import_chain text format now fuel s = Ok tt s).
Proof.
  unfold AuditApi.export_chain. split.
  - intros Hf. destruct (String.eqb_spec (lower format) "json"); [contradiction|].
    reflexivity.
  - intros Hb Hf Hl Hi Hd. rewrite Hf. simpl. eexists. split; [reflexivity|].
    pose proof (init_difficulty _ _ _ Hi) as Ht.
    destruct (built_well_formed _ _ _ _ s Hb) as [_ Hv].
    assert (is_chain_valid (mkAudit (chain s) (difficulty tmp)) = true) as Hv'.
    { rewrite is_chain_valid_true in Hv. apply is_chain_valid_true. simpl.
      intros i Hlt. specialize (Hv i Hlt). unfold Audit.valid_at in *.
      destruct (chain s !! i) as [cur|]; [|discriminate].
      destruct (chain s !! (i - 1)%nat) as [prev|]; [|discriminate].
      eapply is_valid_block_weaken; [|exact Hv]. lia. }
    unfold Audit.import_chain. rewrite Hf, Hl. simpl. rewrite Hi.
    unfold Audit.is_chain_valid in Hv' |- *. simpl in Hv' |- *. rewrite Hv'.
    destruct s; reflexivity.
Qed.


End RoundTrip.

Section Statistics.
Variable event_of : payload -> option (option string).
Abbreviation count_event := (AuditApi.count_event payload event_of).
Abbreviation stats_event := (AuditApi.stats_event payload event_of).
Abbreviation get_chain_stats :=
  (AuditApi.get_chain_stats payload json_dumps sha256_hexdigest event_of).
Abbreviation get_blocks_by_event_type :=
  (AuditApi.get_blocks_by_event_type payload event_of).

Lemma count_event_fold (e : string) (l : list blk) :
  forall m : gmap string Z,
    default 0 (fold_left count_event l m !! e)
    = default 0 (m !! e)
      + Z.of_nat (length (List.filter
                            (fun b => bool_decide (stats_event b = Some e)) l)).
Proof.
  induction l as [|b l IH]; intros m; [simpl; lia|].
  cbn [fold_left List.filter]. rewrite IH.
  assert (default 0 (count_event m b !! e)
          = default 0 (m !! e)
            + if bool_decide (stats_event b = Some e) then 1 else 0) as ->.
  { clear IH. unfold AuditApi.count_event, AuditApi.stats_event.
    destruct (event_of (data b)) as [ev|]; simpl.
    - destruct (decide (default "unknown"%string ev = e)) as [<-|Hne].
      + rewrite lookup_insert_eq. case_bool_decide; [reflexivity | congruence].
      + rewrite lookup_insert_ne by exact Hne.
        case_bool_decide; [congruence | lia].
    - lia. }
  destruct (bool_decide (stats_event b = Some e)); simpl length; lia.
Qed.

(** X8.  For a non-empty chain [get_chain_stats] reports the length of
    the chain and the result of [is_chain_valid]; its counter of an event
    name is the number of blocks after the genesis block filed under that
    name, and for every name other than "unknown" that is the number of
    blocks [get_blocks_by_event_type] finds after the genesis block. *)
Theorem chain_stats_counts (s : st) (first : blk) (rest : list blk) :
  chain s = first :: rest ->
  exists stats,
    get_chain_stats s = Some stats /\
    total_blocks stats = S (length rest) /\
    chain_valid stats = is_chain_valid s /\
    stats_difficulty stats = difficulty s /\
    genesis_timestamp stats = timestamp first /\
    (forall e,
        default 0 (event_types stats !! e)
        = Z.of_nat (length (List.filter
                              (fun b => bool_decide (stats_event b = Some e)) rest))) /\
    (forall e, e <> "unknown"%string ->
        default 0 (event_types stats !! e)
        = Z.of_nat (length (get_blocks_by_event_type e (mkAudit rest (difficulty s))))).
Proof.
  intros Hc. unfold AuditApi.get_chain_stats. rewrite Hc.
  destruct (last (first :: rest)) as [latest|] eqn:Hl;
    [|apply last_None in Hl; discriminate].
  eexists. split; [reflexivity|]. simpl.
  repeat split; try reflexivity.
  - intros e. rewrite count_event_fold, lookup_empty. simpl. lia.
  - intros e He. rewrite count_event_fold, lookup_empty. simpl.
    unfold AuditApi.get_blocks_by_event_type. simpl.
    rewrite Z.add_0_l. do 2 f_equal.
    apply List.filter_ext. intros b. unfold AuditApi.stats_event, AuditApi.has_event.
    destruct (event_of (data b)) as [[ev|]|]; simpl.
    + destruct (String.eqb_spec ev e) as [->|Hne].
      * apply bool_decide_eq_true_2. reflexivity.
      * apply bool_decide_eq_false_2. congruence.
    + apply bool_decide_eq_false_2. congruence.
    + reflexivity.
Qed.

End Statistics.

End AuditApiFacts.

(** *** The audit queries on the demo chain *)

Lemma demo_state3_built :
  Audit.built string Audit.demo_dumps Audit.demo_digest "genesis_block"
    AuditApi.demo_state3.
Proof.
  eapply (Audit.built_add _ _ _ _ _ "logout"%string "2025-01-01T00:00:02"%string 8%nat).
  - exact demo_state_built.
  - vm_compute. reflexivity.
Qed.

Lemma get_recent_blocks_witness :
  AuditApi.get_recent_blocks string 2 AuditApi.demo_state3
  = drop 1 (Audit.chain AuditApi.demo_state3) /\
  AuditApi.get_recent_blocks string 7 AuditApi.demo_state3
  = Audit.chain AuditApi.demo_state3 /\
  AuditApi.get_recent_blocks string 0 AuditApi.demo_state3
  = Audit.chain AuditApi.demo_state3 /\
  AuditApi.get_recent_blocks string (-1) AuditApi.demo_state3
  = drop 1 (Audit.chain AuditApi.demo_state3).
Proof.
  destruct (get_recent_blocks_cases string 2 AuditApi.demo_state3) as (H1 & _).
  destruct (get_recent_blocks_cases string 7 AuditApi.demo_state3) as (_ & H2 & _).
  destruct (get_recent_blocks_cases string 0 AuditApi.demo_state3) as (_ & _ & H3 & _).
  destruct (get_recent_blocks_cases string (-1) AuditApi.demo_state3)
    as (_ & _ & _ & H4).
  split; [apply H1; vm_compute; split; discriminate|].
  split; [apply H2; reflexivity|].
  split; [apply H3; reflexivity | apply H4; reflexivity].
Defined.

Lemma built_chain_shape_witness :
  1 <= Audit.difficulty AuditApi.demo_state3 <= 4 /\
  length (Audit.chain AuditApi.demo_state3) = 3%nat.
Proof.
  split; [|reflexivity].
  exact (proj1 (built_chain_shape string Audit.demo_dumps Audit.demo_digest
                  "genesis_block"%string AuditApi.demo_state3 demo_state3_built)).
Defined.

Lemma get_block_by_index_witness :
  (exists b, AuditApi.get_block_by_index string 2 AuditApi.demo_state3 = Some b /\
             Audit.index b = 2) /\
  AuditApi.get_block_by_index string 3 AuditApi.demo_state3 = None /\
  AuditApi.get_block_by_index string (-1) AuditApi.demo_state3 = None.
Proof.
  split; [|split].
  - apply (proj1 (get_block_by_index_built string Audit.demo_dumps Audit.demo_digest
                    "genesis_block"%string AuditApi.demo_state3 2) demo_state3_built).
    vm_compute. split; [discriminate | reflexivity].
  - apply (proj2 (get_block_by_index_built string Audit.demo_dumps Audit.demo_digest
                    "genesis_block"%string AuditApi.demo_state3 3)).
    right. vm_compute. discriminate.
  - apply (proj2 (get_block_by_index_built string Audit.demo_dumps Audit.demo_digest
                    "genesis_block"%string AuditApi.demo_state3 (-1))).
    left. reflexivity.
Defined.

Lemma chain_segment_witness :
  Audit.is_chain_valid string Audit.demo_dumps Audit.demo_digest
    (Audit.mkAudit (take 2 (drop 1 (Audit.chain AuditApi.demo_state3)))
       (Audit.difficulty AuditApi.demo_state3)) = true.
Proof.
  apply (chain_segment_still_valid string Audit.demo_dumps Audit.demo_digest
           AuditApi.demo_state3 1 2).
  reflexivity.
Defined.

Lemma removed_inner_block_witness :
  Audit.is_chain_valid string Audit.demo_dumps Audit.demo_digest
    (Audit.mkAudit (delete 1%nat (Audit.chain AuditApi.demo_state3))
       (Audit.difficulty AuditApi.demo_state3)) = false.
Proof.
  apply (removed_inner_block_detected string Audit.demo_dumps Audit.demo_digest
           "genesis_block"%string AuditApi.demo_state3 1 demo_state3_built).
  - apply Nat.le_refl.
  - vm_compute. apply Nat.le_refl.
Defined.

Lemma export_import_witness :
  exists text,
    AuditApi.export_chain string (fun _ => "[...]"%string) "JSON" AuditApi.demo_state3
    = inr text /\
    Audit.import_chain string Audit.demo_dumps Audit.demo_digest "genesis_block"
      (Audit.demo_loads (Audit.chain AuditApi.demo_state3)) text "JSON"
      "2025-01-02T00:00:00" 8 AuditApi.demo_state3
    = Ok tt AuditApi.demo_state3.
Proof.
  assert (exists tmp,
             Audit.init string Audit.demo_dumps Audit.demo_digest "genesis_block"
               "2025-01-02T00:00:00" 8 = Ok tt tmp) as (tmp & Hi).
  { eexists. vm_compute. reflexivity. }
  apply (proj2 (export_import_round_trip string Audit.demo_dumps Audit.demo_digest
                  "genesis_block"%string
                  (Audit.demo_loads (Audit.chain AuditApi.demo_state3))
                  (fun _ => "[...]"%string) AuditApi.demo_state3 tmp "JSON"
                  "2025-01-02T00:00:00" 8) demo_state3_built eq_refl eq_refl Hi).
  left. reflexivity.
Defined.


Lemma chain_stats_witness :
  exists stats,
    AuditApi.get_chain_stats string Audit.demo_dumps Audit.demo_digest
      AuditApi.demo_event_of AuditApi.demo_state3 = Some stats /\
    AuditApi.total_blocks stats = 3%nat /\
    default 0 (AuditApi.event_types stats !! "login"%string) = 1 /\
    default 0 (AuditApi.event_types stats !! "genesis_block"%string) = 0.
Proof.
  destruct (chain_stats_counts string Audit.demo_dumps Audit.demo_digest
              AuditApi.demo_event_of AuditApi.demo_state3
              (Audit.mkBlock 0 "2025-01-01T00:00:00" "genesis_block" (Some "0"%string) 4
                 (Some "0000:genesis_block|2025-01-01T00:00:00|0"%string))
              (drop 1 (Audit.chain AuditApi.demo_state3)) eq_refl)
    as (stats & Hs & Ht & _ & _ & _ & Hcount & _).
  exists stats. split; [exact Hs|]. split; [exact Ht|].
  split; rewrite Hcount; reflexivity.
Defined.

(* ===================================================================== *)
(** * Further properties of the signature detector and its handler *)
(* ===================================================================== *)

Section RealtimeFacts.
Import Detector Realtime.

(** The configuration of the detector is never written. *)
Lemma detect_attack_config (p : packet) (u n : string) (s : detector) :
  let s' := fst (detect_attack p u n s) in
  target_ip s' = target_ip s /\
  syn_flood_threshold s' = syn_flood_threshold s /\
  port_scan_threshold s' = port_scan_threshold s /\
  icmp_flood_threshold s' = icmp_flood_threshold s /\
  arp_scan_threshold s' = arp_scan_threshold s.
Proof.
  unfold detect_attack.
  destruct (ip p) as [l3|]; [|simpl; auto].
  destruct (negb (String.eqb (dst l3) (target_ip s))); [simpl; auto|].
  destruct (tcp p) as [t|].
  - destruct (flags t =? 2).
    + destruct (_ >? _); simpl; auto.
    + destruct (_ >? _); simpl; auto.
  - destruct (icmp p) as [i|].
    + destruct (_ >? _); simpl; auto.
    + destruct (arp p) as [a|]; [|simpl; auto].
      destruct (_ >? _); simpl; auto.
Qed.

Lemma is_syn_only_target (s s' : detector) (p : packet) :
  target_ip s' = target_ip s -> is_syn_only s' p = is_syn_only s p.
Proof. intros H. unfold is_syn_only, tcp_to_target. rewrite H. reflexivity. Qed.

Lemma not_monitored_ignored (s : detector) (p : packet) (u n : string) :
  not_monitored s p = true -> detect_attack p u n s = (s, None).
Proof.
  unfold not_monitored, detect_attack. destruct (ip p) as [l3|]; [|reflexivity].
  intros ->. reflexivity.
Qed.

(** X9.  Packets without an IP layer (ARP frames among them) and packets
    whose destination is not [target_ip] never change the detector and
    never raise an alert, however many there are. *)
Theorem unmonitored_traffic_is_ignored (s : detector) (arrivals : list arrival) :
  Forall (fun a => not_monitored s (pkt a) = true) arrivals ->
  feed s arrivals = (s, replicate (length arrivals) None).
Proof.
  induction 1 as [|a rest Ha _ IH]; [reflexivity|].
  cbn [feed]. rewrite (not_monitored_ignored _ _ _ _ Ha), IH. reflexivity.
Qed.

(** *** The cadence of SYN-flood alerts *)

(** What one packet does to the SYN counter: a SYN-only segment to the
    target advances it, or resets it with a HIGH alert; anything else
    leaves it alone and gives no HIGH alert. *)
Lemma detect_attack_syn_step (p : packet) (u n : string) (s : detector) :
  let '(s', r) := detect_attack p u n s in
  if is_syn_only s p then
    if syn_flood_count s + 1 >? syn_flood_threshold s then
      syn_flood_count s' = 0 /\ count_high [r] = 1%nat
    else syn_flood_count s' = syn_flood_count s + 1 /\ count_high [r] = 0%nat
  else syn_flood_count s' = syn_flood_count s /\ count_high [r] = 0%nat.
Proof.
  unfold is_syn_only, tcp_to_target, detect_attack.
  destruct (ip p) as [l3|]; [|auto].
  destruct (String.eqb (dst l3) (target_ip s)); simpl; [|destruct (tcp p); auto].
  destruct (tcp p) as [t|].
  - destruct (flags t =? 2).
    + simpl. destruct (_ >? _); simpl; auto.
    + destruct (_ >? _); simpl; auto.
  - destruct (icmp p) as [i|].
    + destruct (_ >? _); simpl; auto.
    + destruct (arp p) as [a|]; [|simpl; auto].
      destruct (_ >? _); simpl; auto.
Qed.

Lemma count_high_cons (r : option threat) (rs : list (option threat)) :
  count_high (r :: rs) = (count_high [r] + count_high rs)%nat.
Proof.
  unfold count_high, alerts_of. destruct r as [t|]; simpl; [|reflexivity].
  destruct (String.eqb (threat_level t) "HIGH"); reflexivity.
Qed.

(** X10.  Whatever other traffic is interleaved, the SYN counter counts
    the SYN-only segments to the target modulo [threshold + 1], and the
    number of HIGH alerts is the number of completed periods: with the
    default threshold, every 51st such segment raises the alert, from
    whichever source it comes. *)
Theorem syn_alert_cadence (arrivals : list arrival) :
  forall s : detector,
    0 <= syn_flood_count s <= syn_flood_threshold s ->
    let '(s', results) := feed s arrivals in
    let seen := syn_flood_count s + Z.of_nat (count_syn s arrivals) in
    let period := syn_flood_threshold s + 1 in
    syn_flood_count s' = seen mod period /\
    Z.of_nat (count_high results) = seen / period.
Proof.
  induction arrivals as [|a rest IH]; intros s Hc.
  - simpl. unfold count_syn, count_high. simpl. rewrite Z.add_0_r.
    rewrite Z.mod_small, Z.div_small by lia. auto.
  - cbn [feed].
    pose proof (detect_attack_syn_step (pkt a) (uid a) (at_time a) s) as Hstep.
    pose proof (detect_attack_config (pkt a) (uid a) (at_time a) s) as Hcfg.
    destruct (detect_attack (pkt a) (uid a) (at_time a) s) as [s1 r].
    simpl in Hcfg. destruct Hcfg as (Htgt & Hth & _).
    assert (count_syn s1 rest = count_syn s rest) as Hcs.
    { unfold count_syn. f_equal. apply List.filter_ext. intros x.
      apply is_syn_only_target. exact Htgt. }
    assert (Z.of_nat (count_syn s (a :: rest))
            = (if is_syn_only s (pkt a) then 1 else 0) + Z.of_nat (count_syn s rest))
      as Hcount.
    { unfold count_syn. simpl. destruct (is_syn_only s (pkt a)); simpl length; lia. }
    assert (0 <= syn_flood_count s1 <= syn_flood_threshold s1) as Hc1.
    { rewrite Hth. destruct (is_syn_only s (pkt a)).
      - destruct (Z.gtb_spec (syn_flood_count s + 1) (syn_flood_threshold s));
          destruct Hstep as [-> _]; lia.
      - destruct Hstep as [-> _]. lia. }
    specialize (IH s1 Hc1). destruct (feed s1 rest) as [s2 rs].
    cbn zeta in IH. destruct IH as [IHc IHh].
    rewrite Hcs, Hth in IHc, IHh. rewrite count_high_cons, Hcount.
    rewrite Nat2Z.inj_add, IHc, IHh. cbn zeta.
    set (P := syn_flood_threshold s + 1) in *.
    set (k := Z.of_nat (count_syn s rest)) in *.
    destruct (is_syn_only s (pkt a)).
    + destruct (Z.gtb_spec (syn_flood_count s + 1) (syn_flood_threshold s)).
      * destruct Hstep as [Hs1 Hr]. rewrite Hs1, Hr.
        assert (syn_flood_count s + (1 + k) = k + 1 * P) as Heq by (subst P; lia).
        rewrite Heq, Z_mod_plus_full, Z_div_plus_full by (subst P; lia).
        rewrite Z.add_0_l. split; [reflexivity | simpl; lia].
      * destruct Hstep as [Hs1 Hr]. rewrite Hs1, Hr.
        replace (syn_flood_count s + (1 + k)) with (syn_flood_count s + 1 + k) by lia.
        split; [reflexivity | simpl; lia].
    + destruct Hstep as [Hs1 Hr]. rewrite Hs1, Hr.
      rewrite Z.add_0_l. split; [reflexivity | simpl; lia].
Qed.

(** *** ICMP flood *)

Lemma is_icmp_only_inv (s : detector) (p : packet) :
  is_icmp_only s p = true ->
  exists l3 i, ip p = Some l3 /\ tcp p = None /\ icmp p = Some i /\
               String.eqb (dst l3) (target_ip s) = true.
Proof.
  unfold is_icmp_only. destruct (ip p) as [l3|]; [|discriminate].
  destruct (tcp p); [discriminate|]. destruct (icmp p) as [i|]; [|discriminate].
  intros H. exists l3, i. auto.
Qed.

Lemma detect_icmp_below (s : detector) (p : packet) (u n : string) :
  is_icmp_only s p = true ->
  icmp_flood_count s + 1 <= icmp_flood_threshold s ->
  detect_attack p u n s = (set_icmp_count s (icmp_flood_count s + 1), None).
Proof.
  intros Hi Hc. apply is_icmp_only_inv in Hi as (l3 & i & Hip & Htcp & Hicmp & Hdst).
  unfold detect_attack. rewrite Hip, Htcp, Hicmp, Hdst. simpl.
  destruct (Z.gtb_spec (icmp_flood_count s + 1) (icmp_flood_threshold s));
    [lia | reflexivity].
Qed.

Lemma detect_icmp_fire (s : detector) (p : packet) (u n : string) :
  is_icmp_only s p = true ->
  icmp_flood_count s + 1 > icmp_flood_threshold s ->
  exists t,
    detect_attack p u n s = (set_icmp_count s 0, Some t) /\
    attack_type t = "Flood Attacks"%string /\ threat_level t = "MEDIUM"%string /\
    Some (source_ip t) = src <$> ip p.
Proof.
  intros Hi Hc. apply is_icmp_only_inv in Hi as (l3 & i & Hip & Htcp & Hicmp & Hdst).
  unfold detect_attack. rewrite Hip, Htcp, Hicmp, Hdst. simpl.
  destruct (Z.gtb_spec (icmp_flood_count s + 1) (icmp_flood_threshold s)); [|lia].
  eexists. split; [reflexivity|]. simpl. auto.
Qed.

Lemma feed_icmp_quiet (arrivals : list arrival) :
  forall s : detector,
    Forall (fun a => is_icmp_only s (pkt a) = true) arrivals ->
    icmp_flood_count s + Z.of_nat (length arrivals) <= icmp_flood_threshold s ->
    feed s arrivals
    = (set_icmp_count s (icmp_flood_count s + Z.of_nat (length arrivals)),
       replicate (length arrivals) None).
Proof.
  induction arrivals as [|a rest IH]; intros s Hall Hc.
  - simpl. rewrite Z.add_0_r. destruct s; reflexivity.
  - inversion Hall as [|? ? Ha Hrest]; subst.
    cbn [feed]. rewrite detect_icmp_below; [|exact Ha|simpl length in Hc; lia].
    rewrite IH; [| exact Hrest | simpl in *; lia].
    simpl. f_equal. unfold set_icmp_count. simpl. f_equal. lia.
Qed.

(** X11.  From an ICMP counter of 0 and the threshold 20, twenty-one ICMP
    packets to the target that carry no TCP layer give no alert on the
    first twenty and one "Flood Attacks"/MEDIUM alert on the 21st, naming
    the source of that packet; the ICMP counter is 0 afterwards and the
    SYN counter and the port set are untouched. *)
Theorem icmp_flood_alert_on_21st (s : detector) (arrivals : list arrival) :
  icmp_flood_count s = 0 -> icmp_flood_threshold s = 20 ->
  length arrivals = 21%nat ->
  Forall (fun a => is_icmp_only s (pkt a) = true) arrivals ->
  exists s' t,
    feed s arrivals = (s', replicate 20 None ++ [Some t]) /\
    attack_type t = "Flood Attacks"%string /\ threat_level t = "MEDIUM"%string /\
    Some (source_ip t) = (last arrivals ≫= fun a => src <$> ip (pkt a)) /\
    icmp_flood_count s' = 0 /\
    syn_flood_count s' = syn_flood_count s /\
    port_scan_ports s' = port_scan_ports s.
Proof.
  intros Hc Hth Hlen Hall.
  destruct (split_last 20 arrivals Hlen) as (front & a & -> & Hfront).
  apply Forall_app in Hall as [Hfr Ha]. rewrite Forall_singleton in Ha.
  rewrite feed_app, feed_icmp_quiet; [| exact Hfr | rewrite Hfront; lia].
  rewrite Hfront, Hc. cbn [feed].
  set (s1 := set_icmp_count s (0 + Z.of_nat 20)).
  destruct (detect_icmp_fire s1 (pkt a) (uid a) (at_time a))
    as (t & Hd & Hty & Hlv & Hs); [exact Ha | simpl; lia |].
  rewrite Hd. exists (set_icmp_count s1 0), t.
  split; [reflexivity|]. split; [exact Hty|]. split; [exact Hlv|].
  split; [rewrite last_snoc; exact Hs|]. repeat split.
Qed.

(** *** Port scans that stay below the threshold *)

(** X12.  TCP traffic to the target that is not SYN-only and stays within
    a set of destination ports no larger than the threshold never raises
    an alert, however many packets there are; the port set stays inside
    that set and the SYN counter is untouched. *)
Theorem confined_ports_never_alert (Q : gset Z) (arrivals : list arrival) :
  forall s : detector,
    port_scan_ports s ⊆ Q ->
    Z.of_nat (size Q) <= port_scan_threshold s ->
    Forall (fun a => exists d, scan_port s (pkt a) = Some d /\ d ∈ Q) arrivals ->
    exists s',
      feed s arrivals = (s', replicate (length arrivals) None) /\
      port_scan_ports s' ⊆ Q /\
      syn_flood_count s' = syn_flood_count s.
Proof.
  induction arrivals as [|a rest IH]; intros s Hsub Hsz Hall.
  - exists s. auto.
  - inversion Hall as [|? ? (d & Hd & HdQ) Hrest]; subst.
    assert ({[d]} ∪ port_scan_ports s ⊆ Q) as Hsub'.
    { apply union_least; [|exact Hsub]. apply singleton_subseteq_l. exact HdQ. }
    cbn [feed]. rewrite (detect_scan_below s (pkt a) _ _ d Hd).
    2:{ apply subseteq_size in Hsub'. lia. }
    destruct (IH (set_ports s ({[d]} ∪ port_scan_ports s)) Hsub' Hsz Hrest)
      as (s' & Hf & Hs' & Hc).
    rewrite Hf. exists s'. auto.
Qed.

(** *** The packet handler *)

Lemma keep_last_step {A : Type} (n : nat) (l : list A) (x : A) :
  (length l <= n)%nat ->
  (if (n <? length (l ++ [x]))%nat then drop 1 (l ++ [x]) else l ++ [x])
  = keep_last n (l ++ [x]).
Proof.
  intros Hl. unfold keep_last. rewrite length_app. simpl.
  destruct (Nat.ltb_spec n (length l + 1)).
  - f_equal. lia.
  - replace (length l + 1 - n)%nat with 0%nat by lia. reflexivity.
Qed.

Lemma keep_last_app {A : Type} (n : nat) (l r : list A) :
  keep_last n (keep_last n l ++ r) = keep_last n (l ++ r).
Proof.
  unfold keep_last. rewrite !length_app, length_drop.
  destruct (Nat.le_gt_cases (length l) n) as [Hle|Hgt].
  - replace (length l - n)%nat with 0%nat by lia. rewrite drop_0.
    f_equal. lia.
  - rewrite <- (drop_app_le l r (length l - n)) by lia.
    rewrite drop_drop. f_equal. lia.
Qed.

Lemma keep_last_length {A : Type} (n : nat) (l : list A) :
  (length (keep_last n l) <= n)%nat.
Proof. unfold keep_last. rewrite length_drop. lia. Qed.

Lemma detect_attack_level (p : packet) (u n : string) (s s' : detector) (t : threat) :
  detect_attack p u n s = (s', Some t) ->
  In (threat_level t) ["LOW"; "MEDIUM"; "HIGH"]%string.
Proof.
  unfold detect_attack.
  destruct (ip p) as [l3|]; [|discriminate].
  destruct (negb (String.eqb (dst l3) (target_ip s))); [discriminate|].
  destruct (tcp p) as [l4|].
  - destruct (flags l4 =? 2); destruct (_ >? _); intros [= _ <-]; simpl; auto.
  - destruct (icmp p) as [i|].
    + destruct (_ >? _); intros [= _ <-]; simpl; auto.
    + destruct (arp p) as [a|]; [|discriminate].
      destruct (_ >? _); intros [= _ <-]; simpl; auto.
Qed.

Lemma handle_all_loop (arrivals : list arrival) :
  forall g : app,
    (length (threats g) <= MAX_THREATS)%nat -> levels_ready g ->
    let alerts := alerts_of (snd (feed (det g) arrivals)) in
    exists g',
      handle_all true arrivals g = Done g' /\
      det g' = fst (feed (det g) arrivals) /\
      threats g' = keep_last MAX_THREATS (threats g ++ alerts) /\
      (length (threats g') <= MAX_THREATS)%nat /\
      total_threats (counters g')
      = total_threats (counters g) + Z.of_nat (length alerts) /\
      broadcasts g' = broadcasts g ++ alerts /\
      (forall lv,
          default 0 (threat_levels (counters g') !! lv)
          = default 0 (threat_levels (counters g) !! lv)
            + Z.of_nat (count_level lv alerts)).
Proof.
  induction arrivals as [|a rest IH]; intros g Hlen Hready; cbn zeta.
  - exists g. simpl. rewrite !app_nil_r. unfold keep_last, count_level. simpl.
    replace (length (threats g) - MAX_THREATS)%nat with 0%nat by lia.
    repeat split; auto; try lia.
  - cbn [handle_all feed]. unfold packet_handler.
    destruct (detect_attack (pkt a) (uid a) (at_time a) (det g)) as [d r] eqn:Hd.
    destruct r as [t|].
    + destruct (Hready (threat_level t) (detect_attack_level _ _ _ _ _ _ Hd))
        as [k Hk].
      rewrite Hk. rewrite keep_last_step by exact Hlen. cbv iota zeta.
      match goal with
      | |- context [handle_all true rest ?g1] => set (g1' := g1)
      end.
      destruct (IH g1') as (g' & Hh & Hdet & Hth & Hle & Htot & Hbr & Hlv).
      { apply keep_last_length. }
      { intros lv Hin. subst g1'. simpl.
        destruct (decide (lv = threat_level t)) as [->|Hne].
        - rewrite lookup_insert_eq. eauto.
        - rewrite lookup_insert_ne by congruence. apply Hready. exact Hin. }
      subst g1'. simpl in *.
      destruct (feed d rest) as [s2 rs] eqn:Hfeed. simpl in *.
      exists g'. split; [exact Hh|]. split; [exact Hdet|].
      split; [rewrite Hth, keep_last_app, <- app_assoc; reflexivity|].
      split; [exact Hle|].
      split; [rewrite Htot; unfold alerts_of; simpl; lia|].
      split; [rewrite Hbr, <- app_assoc; reflexivity|].
      intros lv. rewrite Hlv. unfold count_level, alerts_of. simpl.
      destruct (decide (threat_level t = lv)) as [<-|Hne].
      * rewrite lookup_insert_eq, Hk, String.eqb_refl. simpl. lia.
      * rewrite lookup_insert_ne by exact Hne.
        destruct (String.eqb_spec (threat_level t) lv); [contradiction|]. lia.
    + match goal with
      | |- context [handle_all true rest ?g1] => set (g1' := g1)
      end.
      destruct (IH g1' Hlen Hready) as (g' & Hh & Hdet & Hth & Hle & Htot & Hbr & Hlv).
      subst g1'. simpl in *.
      destruct (feed d rest) as [s2 rs] eqn:Hfeed. simpl in *.
      exists g'. repeat split; auto.
Qed.

Lemma handle_all_no_loop (arrivals : list arrival) :
  forall g : app,
    (length (threats g) <= MAX_THREATS)%nat -> levels_ready g ->
    match alerts_of (snd (feed (det g) arrivals)) with
    | [] =>
        handle_all false arrivals g
        = Done (mkApp (fst (feed (det g) arrivals)) (threats g) (counters g)
                  (broadcasts g))
    | t :: _ =>
        exists g',
          handle_all false arrivals g = NoRunningLoop g' /\
          threats g' = keep_last MAX_THREATS (threats g ++ [t]) /\
          total_threats (counters g') = total_threats (counters g) + 1 /\
          broadcasts g' = broadcasts g /\
          (forall lv,
              default 0 (threat_levels (counters g') !! lv)
              = default 0 (threat_levels (counters g) !! lv)
                + Z.of_nat (count_level lv [t]))
    end.
Proof.
  induction arrivals as [|a rest IH]; intros g Hlen Hready.
  - simpl. destruct g; reflexivity.
  - cbn [handle_all feed]. unfold packet_handler.
    destruct (detect_attack (pkt a) (uid a) (at_time a) (det g)) as [d r] eqn:Hd.
    destruct r as [t|].
    + destruct (Hready (threat_level t) (detect_attack_level _ _ _ _ _ _ Hd))
        as [k Hk].
      rewrite Hk. rewrite keep_last_step by exact Hlen. cbv iota zeta.
      destruct (feed d rest) as [s2 rs]. unfold alerts_of. simpl.
      eexists. split; [reflexivity|]. simpl.
      split; [reflexivity|]. split; [reflexivity|]. split; [reflexivity|].
      intros lv. unfold count_level. simpl.
      destruct (decide (threat_level t = lv)) as [<-|Hne].
      * rewrite lookup_insert_eq, Hk, String.eqb_refl. simpl. lia.
      * rewrite lookup_insert_ne by exact Hne.
        destruct (String.eqb_spec (threat_level t) lv); [contradiction|]. simpl. lia.
    + specialize (IH (mkApp d (threats g) (counters g) (broadcasts g)) Hlen Hready).
      simpl in IH. destruct (feed d rest) as [s2 rs]. unfold alerts_of in *.
      simpl in *. exact IH.
Qed.

(** X13.  The packet handler, started with at most 1000 stored threats and
    the three level counters in place.  On the monitoring thread, where
    [sniff] calls it and no event loop runs, packets that raise no alert
    only advance the detector; at the first alert the handler stores the
    threat (keeping the last 1000), counts it in [total_threats] and in
    the counter of its level, and then stops at [asyncio.create_task]
    with RuntimeError: no broadcast task is created.  Called where an
    event loop runs, it never raises: it keeps in [threats] the last 1000
    of the old threats followed by the new alerts, in order, counts every
    alert, and creates one broadcast task per alert. *)
Theorem packet_handler_bookkeeping (arrivals : list arrival) (g : app) :
  (length (threats g) <= MAX_THREATS)%nat -> levels_ready g ->
  let alerts := alerts_of (snd (feed (det g) arrivals)) in
  match alerts with
  | [] =>
      handle_all SNIFF_THREAD_LOOP arrivals g
      = Done (mkApp (fst (feed (det g) arrivals)) (threats g) (counters g)
                (broadcasts g))
  | t :: _ =>
      exists g',
        handle_all SNIFF_THREAD_LOOP arrivals g = NoRunningLoop g' /\
        threats g' = keep_last MAX_THREATS (threats g ++ [t]) /\
        total_threats (counters g') = total_threats (counters g) + 1 /\
        broadcasts g' = broadcasts g /\
        (forall lv,
            default 0 (threat_levels (counters g') !! lv)
            = default 0 (threat_levels (counters g) !! lv)
              + Z.of_nat (count_level lv [t]))
  end /\
  exists g',
    handle_all true arrivals g = Done g' /\
    det g' = fst (feed (det g) arrivals) /\
    threats g' = keep_last MAX_THREATS (threats g ++ alerts) /\
    (length (threats g') <= MAX_THREATS)%nat /\
    total_threats (counters g')
    = total_threats (counters g) + Z.of_nat (length alerts) /\
    broadcasts g' = broadcasts g ++ alerts /\
    (forall lv,
        default 0 (threat_levels (counters g') !! lv)
        = default 0 (threat_levels (counters g) !! lv)
          + Z.of_nat (count_level lv alerts)).
Proof.
  intros Hlen Hready alerts. split.
  - apply (handle_all_no_loop arrivals g Hlen Hready).
  - apply (handle_all_loop arrivals g Hlen Hready).
Qed.

End RealtimeFacts.

(** *** The detector and the handler on the demo traffic *)

Lemma unmonitored_traffic_witness :
  Detector.feed Detector.new_detector
    [Detector.mkArrival Realtime.arp_packet "u1" "t1";
     Detector.mkArrival
       (Detector.tcp_packet "192.168.100.124" "192.168.100.152" 80 40000 18) "u2" "t2"]
  = (Detector.new_detector, [None; None]).
Proof.
  apply (unmonitored_traffic_is_ignored Detector.new_detector).
  repeat constructor.
Defined.

Lemma syn_alert_cadence_witness :
  let '(s', results) := Detector.feed Detector.new_detector Detector.demo_syn_flood in
  let seen :=
    Detector.syn_flood_count Detector.new_detector
    + Z.of_nat (Realtime.count_syn Detector.new_detector Detector.demo_syn_flood) in
  let period := Detector.syn_flood_threshold Detector.new_detector + 1 in
  Detector.syn_flood_count s' = seen mod period /\
  Z.of_nat (Realtime.count_high results) = seen / period.
Proof.
  apply (syn_alert_cadence Detector.demo_syn_flood Detector.new_detector).
  split; discriminate.
Defined.

Lemma icmp_flood_witness :
  exists s' t,
    Detector.feed Detector.new_detector Realtime.demo_ping_flood
    = (s', replicate 20 None ++ [Some t]) /\
    Detector.attack_type t = "Flood Attacks"%string /\
    Detector.threat_level t = "MEDIUM"%string /\
    Some (Detector.source_ip t)
    = (last Realtime.demo_ping_flood
         ≫= fun a => Detector.src <$> Detector.ip (Detector.pkt a)) /\
    Detector.icmp_flood_count s' = 0 /\
    Detector.syn_flood_count s' = Detector.syn_flood_count Detector.new_detector /\
    Detector.port_scan_ports s' = Detector.port_scan_ports Detector.new_detector.
Proof.
  apply (icmp_flood_alert_on_21st Detector.new_detector Realtime.demo_ping_flood);
    try reflexivity.
  unfold Realtime.demo_ping_flood. simpl repeat.
  repeat (constructor; [reflexivity|]). constructor.
Defined.

Lemma confined_ports_witness :
  exists s',
    Detector.feed Detector.new_detector Realtime.demo_web_traffic
    = (s', replicate (length Realtime.demo_web_traffic) None) /\
    Detector.port_scan_ports s' ⊆ ({[80; 443]} : gset Z) /\
    Detector.syn_flood_count s' = Detector.syn_flood_count Detector.new_detector.
Proof.
  apply (confined_ports_never_alert {[80; 443]} Realtime.demo_web_traffic
           Detector.new_detector).
  - apply empty_subseteq.
  - vm_compute. discriminate.
  - unfold Realtime.demo_web_traffic. simpl map.
    repeat (constructor;
            [eexists; split; [reflexivity|];
             rewrite elem_of_union, !elem_of_singleton; auto|]).
    constructor.
Defined.

Lemma packet_handler_witness :
  exists g' t,
    Realtime.handle_all Realtime.SNIFF_THREAD_LOOP Detector.demo_syn_flood
      (Realtime.initial_app "t0") = Realtime.NoRunningLoop g' /\
    Realtime.threats g' = [t] /\
    Realtime.total_threats (Realtime.counters g') = 1 /\
    Realtime.broadcasts g' = [].
Proof.
  assert (exists t,
             Realtime.alerts_of
               (snd (Detector.feed (Realtime.det (Realtime.initial_app "t0"))
                       Detector.demo_syn_flood)) = [t]) as [t E].
  { eexists. vm_compute. reflexivity. }
  pose proof (packet_handler_bookkeeping Detector.demo_syn_flood
                (Realtime.initial_app "t0")) as H.
  cbv zeta in H. rewrite E in H.
  destruct H as [(g' & Hh & Hth & Htot & Hbr & _) _].
  - apply Nat.le_0_l.
  - intros lv Hin. simpl in Hin.
    destruct Hin as [<-|[<-|[<-|[]]]]; eexists; reflexivity.
  - exists g', t. split; [exact Hh|]. split; [exact Hth|]. split; [exact Htot|exact Hbr].
Defined.

(* ===================================================================== *)
(** * Further properties of the alert hub *)
(* ===================================================================== *)

Section HubApiFacts.
Import Hub HubApi.
Variable connected : conn -> bool.
Variable send_text : conn -> string -> option exn.

Abbreviation send_all := (Hub.send_all connected send_text).
Abbreviation broadcast := (Hub.broadcast connected send_text).
Abbreviation healthy := (HubApi.healthy connected send_text).

Lemma send_all_partition (message : string) (l : list conn) :
  send_all message l
  = (List.filter (healthy message) l,
     List.filter (fun c => negb (healthy message c)) l).
Proof.
  induction l as [|c l IH]; [reflexivity|].
  cbn [Hub.send_all List.filter]. rewrite IH. unfold HubApi.healthy.
  destruct (connected c); [|reflexivity].
  destruct (send_text c message); reflexivity.
Qed.

Lemma remove_first_absent (x : conn) (l : list conn) :
  x ∉ l -> remove_first x l = l.
Proof.
  induction l as [|y l IH]; intros Hx; [reflexivity|]. simpl.
  apply not_elem_of_cons in Hx as [Hne Hx].
  destruct (Nat.eqb_spec y x); [congruence|]. rewrite IH by exact Hx. reflexivity.
Qed.

Lemma remove_first_bad (good : conn -> bool) (c : conn) (l bs : list conn) :
  List.filter (fun x => negb (good x)) l = c :: bs ->
  List.filter (fun x => negb (good x)) (remove_first c l) = bs /\
  List.filter good (remove_first c l) = List.filter good l /\
  c ∈ l.
Proof.
  revert bs. induction l as [|y l IH]; intros bs; simpl; [discriminate|].
  destruct (good y) eqn:Hy; simpl.
  - intros Hf. destruct (IH bs Hf) as (H1 & H2 & H3).
    assert (good c = false) as Hc.
    { assert (In c (List.filter (fun x => negb (good x)) l)) as Hin
        by (rewrite Hf; left; reflexivity).
      apply filter_In in Hin as [_ Hin]. destruct (good c); [discriminate|reflexivity]. }
    destruct (Nat.eqb_spec y c) as [->|Hne]; [congruence|].
    simpl. rewrite Hy. simpl. rewrite H1, H2.
    split; [reflexivity|]. split; [reflexivity|]. right. exact H3.
  - intros [= -> <-]. rewrite Nat.eqb_refl.
    split; [reflexivity|]. split; [reflexivity|]. left.
Qed.

Lemma fold_disconnect (good : conn -> bool) (bs : list conn) :
  forall s : manager,
    List.filter (fun x => negb (good x)) (active_connections s) = bs ->
    fold_left (fun s' c => disconnect c s') bs s
    = mkManager (List.filter good (active_connections s))
        (fold_left (fun m c => delete c m) bs (connection_info s)).
Proof.
  induction bs as [|c bs IH]; intros s Hf; simpl.
  - destruct s as [l m]. simpl in *. f_equal.
    clear m. induction l as [|y l IHl]; [reflexivity|]. simpl in *.
    destruct (good y); simpl in *; [|discriminate]. f_equal. apply IHl. exact Hf.
  - destruct (remove_first_bad good c _ bs Hf) as (H1 & H2 & H3).
    unfold disconnect at 2. rewrite bool_decide_eq_true_2 by exact H3.
    rewrite IH by exact H1. simpl. rewrite H2. reflexivity.
Qed.

Lemma fold_delete_lookup (bs : list conn) :
  forall (m : gmap conn info) (c : conn),
    fold_left (fun m x => delete x m) bs m !! c
    = if bool_decide (c ∈ bs) then None else m !! c.
Proof.
  induction bs as [|b bs IH]; intros m c; simpl; [reflexivity|].
  rewrite IH. destruct (decide (c = b)) as [->|Hne].
  - rewrite lookup_delete_eq.
    rewrite (bool_decide_eq_true_2 (b ∈ b :: bs)) by left.
    destruct (bool_decide (b ∈ bs)); reflexivity.
  - rewrite lookup_delete_ne by congruence.
    destruct (decide (c ∈ bs)) as [Hin|Hnin].
    + rewrite !bool_decide_eq_true_2; [reflexivity | right; exact Hin | exact Hin].
    + rewrite !bool_decide_eq_false_2; [reflexivity | | exact Hnin].
      intros Hc. apply elem_of_cons in Hc as [?|?]; contradiction.
Qed.

Lemma broadcast_result (message : string) (s : manager) :
  snd (broadcast message s) = List.filter (healthy message) (active_connections s) /\
  active_connections (fst (broadcast message s))
  = List.filter (healthy message) (active_connections s) /\
  (forall c,
      connection_info (fst (broadcast message s)) !! c
      = if bool_decide (c ∈ active_connections s) && negb (healthy message c)
        then None else connection_info s !! c).
Proof.
  unfold Hub.broadcast. rewrite send_all_partition.
  rewrite (fold_disconnect (healthy message)) by reflexivity.
  split; [reflexivity|]. split; [reflexivity|]. intros c. simpl.
  rewrite fold_delete_lookup.
  destruct (decide (c ∈ active_connections s)) as [Hin|Hnin].
  - rewrite (bool_decide_eq_true_2 (c ∈ active_connections s)) by exact Hin.
    destruct (healthy message c) eqn:Hh; simpl.
    + rewrite bool_decide_eq_false_2; [reflexivity|].
      intros Hc. apply list_elem_of_In, filter_In in Hc as [_ Hc].
      rewrite Hh in Hc. discriminate.
    + rewrite bool_decide_eq_true_2; [reflexivity|].
      apply list_elem_of_In, filter_In. split; [apply list_elem_of_In; exact Hin|].
      rewrite Hh. reflexivity.
  - rewrite (bool_decide_eq_false_2 (c ∈ active_connections s)) by exact Hnin.
    simpl. rewrite bool_decide_eq_false_2; [reflexivity|].
    intros Hc. apply list_elem_of_In, filter_In in Hc as [Hc _].
    apply Hnin, list_elem_of_In. exact Hc.
Qed.

(** X14.  After any broadcast the registered connections are exactly the
    ones that were open and accepted the message, in their old order, and
    these are the connections the message was delivered to; the record of
    every removed connection is deleted and all other records are kept.
    This holds also when a socket is registered more than once. *)
Theorem broadcast_keeps_the_healthy (message : string) (s : manager) :
  let '(s', delivered) := broadcast message s in
  delivered = List.filter (healthy message) (active_connections s) /\
  active_connections s' = delivered /\
  (forall c,
      connection_info s' !! c
      = if bool_decide (c ∈ active_connections s) && negb (healthy message c)
        then None else connection_info s !! c).
Proof.
  pose proof (broadcast_result message s) as H.
  destruct (broadcast message s) as [s' delivered]. simpl in H.
  destruct H as (-> & -> & H). auto.
Qed.

(** *** Registration *)

Lemma disconnect_registered (ws : conn) (s : manager) :
  NoDup (active_connections s) -> ws ∈ active_connections s ->
  exists l1 l2,
    active_connections s = l1 ++ ws :: l2 /\ (ws ∉ l1) /\ (ws ∉ l2) /\
    disconnect ws s = mkManager (l1 ++ l2) (delete ws (connection_info s)).
Proof.
  intros Hnd Hin. unfold disconnect. rewrite bool_decide_eq_true_2 by exact Hin.
  apply list_elem_of_split in Hin as (l1 & l2 & Hs). rewrite Hs in Hnd.
  apply NoDup_app in Hnd as (_ & H1 & Hnd). apply NoDup_cons in Hnd as [H2 _].
  assert (ws ∉ l1) as Hn1 by (intros Hin; apply (H1 ws Hin); left).
  exists l1, l2. rewrite Hs, remove_first_middle by exact Hn1. auto.
Qed.

Lemma disconnect_consistent (ws : conn) (s : manager) :
  consistent s ->
  consistent (disconnect ws s) /\
  (ws ∉ active_connections (disconnect ws s)) /\
  connection_info (disconnect ws s) !! ws = None.
Proof.
  intros [Hnd Hdom]. destruct (decide (ws ∈ active_connections s)) as [Hin|Hnin].
  - destruct (disconnect_registered ws s Hnd Hin)
      as (l1 & l2 & Hs & Hn1 & Hn2 & ->). unfold consistent. simpl.
    rewrite Hs in Hnd. apply NoDup_app in Hnd as (Hd1 & Hd12 & Hd2).
    apply NoDup_cons in Hd2 as [_ Hd2].
    split; [split|split].
    + apply NoDup_app. split; [exact Hd1|]. split; [|exact Hd2].
      intros x Hx Hx'. apply (Hd12 x Hx). right. exact Hx'.
    + rewrite dom_delete_L, Hdom, Hs. apply set_eq. intros x.
      rewrite elem_of_difference, !elem_of_list_to_set, !elem_of_app,
        elem_of_cons, elem_of_singleton.
      split; [tauto|]. intros [Hx|Hx].
      * split; [tauto|]. intros ->. contradiction.
      * split; [tauto|]. intros ->. contradiction.
    + rewrite elem_of_app. tauto.
    + apply lookup_delete_eq.
  - unfold disconnect. rewrite bool_decide_eq_false_2 by exact Hnin.
    split; [split; assumption|]. split; [exact Hnin|].
    apply not_elem_of_dom. rewrite Hdom, elem_of_list_to_set. exact Hnin.
Qed.

(** X15.  As long as no socket is connected twice, the manager keeps one
    record per registered socket: [connect] of a new socket, [disconnect]
    of any socket and [broadcast] preserve this, the connection count is
    the number of records, [disconnect] leaves no trace of the socket and
    does nothing for an unknown one, and connecting a new socket and
    disconnecting it again gives back the manager as it was. *)
Theorem registration_is_consistent (s : manager) :
  consistent s ->
  get_connection_count s = size (dom (connection_info s)) /\
  (forall ws, ws ∉ active_connections s ->
              consistent (connect ws s) /\ disconnect ws (connect ws s) = s /\
              disconnect ws s = s) /\
  (forall ws, consistent (disconnect ws s) /\
              (ws ∉ active_connections (disconnect ws s)) /\
              connection_info (disconnect ws s) !! ws = None) /\
  (forall message, consistent (fst (broadcast message s))).
Proof.
  intros [Hnd Hdom]. split; [|split; [|split]].
  - unfold get_connection_count. rewrite Hdom, size_list_to_set by exact Hnd.
    reflexivity.
  - intros ws Hws.
    assert (connection_info s !! ws = None) as Hnone.
    { apply not_elem_of_dom. rewrite Hdom, elem_of_list_to_set. exact Hws. }
    split; [|split].
    + split; simpl.
      * apply NoDup_app. split; [exact Hnd|]. split; [|apply NoDup_singleton].
        intros x Hx Hx'. apply list_elem_of_singleton in Hx'. subst. contradiction.
      * rewrite dom_insert_L, list_to_set_snoc_L, Hdom. apply (comm_L (∪)).
    + unfold disconnect, connect. simpl.
      rewrite bool_decide_eq_true_2 by (apply elem_of_app; right; left).
      rewrite remove_first_middle by exact Hws.
      rewrite app_nil_r, delete_insert_id by exact Hnone. destruct s; reflexivity.
    + unfold disconnect. rewrite bool_decide_eq_false_2 by exact Hws. reflexivity.
  - intros ws. apply disconnect_consistent. split; assumption.
  - intros message.
    pose proof (broadcast_result message s) as Hb.
    destruct (broadcast message s) as [s' delivered]. simpl in Hb |- *.
    destruct Hb as (-> & Ha & Hinfo). split.
    + rewrite Ha. apply NoDup_ListNoDup, List.NoDup_filter, NoDup_ListNoDup. exact Hnd.
    + rewrite Ha. apply set_eq. intros x.
      rewrite elem_of_dom, Hinfo, elem_of_list_to_set.
      assert (x ∈ List.filter (healthy message) (active_connections s)
              <-> x ∈ active_connections s /\ healthy message x = true) as ->.
      { rewrite !list_elem_of_In. apply filter_In. }
      destruct (decide (x ∈ active_connections s)) as [Hin|Hnin].
      * rewrite (bool_decide_eq_true_2 _ Hin).
        assert (is_Some (connection_info s !! x)) as Hsome.
        { apply elem_of_dom. rewrite Hdom, elem_of_list_to_set. exact Hin. }
        destruct (healthy message x); simpl.
        -- tauto.
        -- split; [intros [? ?]; discriminate | intros [_ ?]; discriminate].
      * rewrite (bool_decide_eq_false_2 _ Hnin). simpl.
        split; [|tauto]. intros Hsome. exfalso. apply Hnin.
        apply elem_of_dom in Hsome. rewrite Hdom, elem_of_list_to_set in Hsome.
        exact Hsome.
Qed.

(** *** Topics *)

Lemma remove_topic_snoc (t : string) (l : list string) :
  t ∉ l -> remove_topic t (l ++ [t]) = l.
Proof.
  induction l as [|y l IH]; intros Ht; simpl.
  - rewrite String.eqb_refl. reflexivity.
  - apply not_elem_of_cons in Ht as [Hne Ht].
    destruct (String.eqb_spec y t); [congruence|]. rewrite IH by exact Ht.
    reflexivity.
Qed.

Lemma remove_topic_gone (t : string) (l : list string) :
  NoDup l -> (t ∉ remove_topic t l) /\ NoDup (remove_topic t l).
Proof.
  induction 1 as [|y l Hy Hnd IH]; simpl.
  - split; [apply not_elem_of_nil | constructor].
  - destruct (String.eqb_spec y t) as [->|Hne].
    + split; assumption.
    + destruct IH as [IH1 IH2]. split.
      * apply not_elem_of_cons. split; [congruence | exact IH1].
      * constructor; [|exact IH2]. intros Hin. apply Hy.
        clear - Hin. induction l as [|z l IHl]; simpl in Hin; [exact Hin|].
        destruct (String.eqb z t); [right; exact Hin|].
        apply elem_of_cons in Hin as [->|Hin]; [left | right; auto].
Qed.

Lemma subscribe_cases (s : manager) (ws : conn) (topic : string) :
  match connection_info s !! ws with
  | Some i =>
      if bool_decide (topic ∈ subscriptions i) then subscribe_to_topic ws topic s = s
      else subscribe_to_topic ws topic s
           = mkManager (active_connections s)
               (<[ws := set_info_topics i (subscriptions i ++ [topic])]>
                  (connection_info s))
  | None => subscribe_to_topic ws topic s = s
  end.
Proof.
  unfold subscribe_to_topic. destruct (connection_info s !! ws) as [i|]; [|reflexivity].
  destruct (bool_decide (topic ∈ subscriptions i)); reflexivity.
Qed.

Lemma unsubscribe_cases (s : manager) (ws : conn) (topic : string) :
  match connection_info s !! ws with
  | Some i =>
      if bool_decide (topic ∈ subscriptions i) then
        unsubscribe_from_topic ws topic s
        = mkManager (active_connections s)
            (<[ws := set_info_topics i (remove_topic topic (subscriptions i))]>
               (connection_info s))
      else unsubscribe_from_topic ws topic s = s
  | None => unsubscribe_from_topic ws topic s = s
  end.
Proof.
  unfold unsubscribe_from_topic.
  destruct (connection_info s !! ws) as [i|]; [|reflexivity].
  destruct (bool_decide (topic ∈ subscriptions i)); reflexivity.
Qed.

Lemma topics_distinct_insert (s : manager) (ws : conn) (i : info) :
  topics_distinct s -> NoDup (subscriptions i) ->
  topics_distinct (mkManager (active_connections s) (<[ws := i]> (connection_info s))).
Proof.
  intros Hd Hi c j. simpl. destruct (decide (c = ws)) as [->|Hne].
  - rewrite lookup_insert_eq. intros [= <-]. exact Hi.
  - rewrite lookup_insert_ne by congruence. apply Hd.
Qed.

(** X16.  Subscriptions never hold a topic twice.  Subscribing makes the
    topic present for a known socket and is idempotent; unsubscribing
    makes it absent; subscribing to a topic the socket did not have and
    unsubscribing again gives back the manager as it was; for an unknown
    socket both do nothing; neither touches the list of connections. *)
Theorem topic_subscriptions (s : manager) (ws : conn) (topic : string) :
  topics_distinct s ->
  topics_distinct (subscribe_to_topic ws topic s) /\
  topics_distinct (unsubscribe_from_topic ws topic s) /\
  (is_Some (connection_info s !! ws) ->
   topic ∈ topics_of ws (subscribe_to_topic ws topic s)) /\
  subscribe_to_topic ws topic (subscribe_to_topic ws topic s)
  = subscribe_to_topic ws topic s /\
  (topic ∉ topics_of ws (unsubscribe_from_topic ws topic s)) /\
  (topic ∉ topics_of ws s ->
   unsubscribe_from_topic ws topic (subscribe_to_topic ws topic s) = s) /\
  (connection_info s !! ws = None ->
   subscribe_to_topic ws topic s = s /\ unsubscribe_from_topic ws topic s = s) /\
  active_connections (subscribe_to_topic ws topic s) = active_connections s /\
  active_connections (unsubscribe_from_topic ws topic s) = active_connections s.
Proof.
  intros Hd.
  pose proof (subscribe_cases s ws topic) as Hsub.
  pose proof (unsubscribe_cases s ws topic) as Hun.
  unfold topics_of at 3.
  destruct (connection_info s !! ws) as [i|] eqn:Hi.
  2:{ rewrite Hsub, Hun. unfold topics_of. rewrite Hi.
      pose proof (subscribe_cases s ws topic) as Hsub2. rewrite Hi in Hsub2.
      rewrite Hsub2. repeat split; auto using not_elem_of_nil.
      intros [? ?]; discriminate. }
  pose proof (Hd ws i Hi) as Hnd.
  destruct (decide (topic ∈ subscriptions i)) as [Hin|Hnin].
  - rewrite (bool_decide_eq_true_2 _ Hin) in Hsub, Hun. rewrite Hsub, Hun, Hsub.
    destruct (remove_topic_gone topic _ Hnd) as [Hgone Hnd'].
    unfold topics_of. simpl. rewrite lookup_insert_eq, Hi. simpl.
    repeat split; auto; try discriminate; try contradiction.
    apply topics_distinct_insert; assumption.
  - rewrite (bool_decide_eq_false_2 _ Hnin) in Hsub, Hun. rewrite Hun.
    assert (NoDup (subscriptions i ++ [topic])) as Hnd'.
    { apply NoDup_app. split; [exact Hnd|]. split; [|apply NoDup_singleton].
      intros x Hx Hx'. apply list_elem_of_singleton in Hx'. subst. contradiction. }
    pose proof (subscribe_cases (subscribe_to_topic ws topic s) ws topic) as Hsub2.
    pose proof (unsubscribe_cases (subscribe_to_topic ws topic s) ws topic) as Hun2.
    rewrite Hsub in Hsub2, Hun2 |- *. simpl in Hsub2, Hun2.
    rewrite lookup_insert_eq in Hsub2, Hun2. simpl in Hsub2, Hun2.
    rewrite bool_decide_eq_true_2 in Hsub2, Hun2 by (apply elem_of_app; right; left).
    unfold topics_of. simpl. rewrite lookup_insert_eq, Hi. simpl.
    repeat split; auto; try discriminate.
    + apply topics_distinct_insert; assumption.
    + intros _. apply elem_of_app. right. left.
    + intros _. rewrite Hun2, remove_topic_snoc by exact Hnin.
      rewrite insert_insert_eq.
      replace (set_info_topics _ (subscriptions i)) with i by (destruct i; reflexivity).
      rewrite insert_id by exact Hi. destruct s; reflexivity.
Qed.

(** *** Personal messages and user ids *)

Abbreviation send_personal_message :=
  (HubApi.send_personal_message connected send_text).

Lemma set_user_id_facts (ws : conn) (user : string) (s : manager) :
  consistent s ->
  consistent (set_user_id ws user s) /\
  active_connections (set_user_id ws user s) = active_connections s /\
  (forall c, topics_of c (set_user_id ws user s) = topics_of c s) /\
  (is_Some (connection_info s !! ws) ->
   user_id <$> (connection_info (set_user_id ws user s) !! ws) = Some (Some user)).
Proof.
  intros [Hnd Hdom]. unfold set_user_id, topics_of.
  destruct (connection_info s !! ws) as [i|] eqn:Hi.
  - split; [split; [exact Hnd|]|]; simpl.
    + rewrite dom_insert_L, Hdom. apply set_eq. intros x.
      rewrite elem_of_union, elem_of_singleton. split; [|tauto].
      intros [->|H]; [|exact H]. rewrite <- Hdom. apply elem_of_dom. eauto.
    + split; [reflexivity|]. split.
      * intros c. destruct (decide (c = ws)) as [->|Hne].
        -- rewrite lookup_insert_eq, Hi. reflexivity.
        -- rewrite lookup_insert_ne by congruence. reflexivity.
      * intros _. rewrite lookup_insert_eq. reflexivity.
  - split; [split; assumption|]. split; [reflexivity|]. split; [reflexivity|].
    intros [? ?]; discriminate.
Qed.

(** X27.  Personal messages and user ids.  In a manager that holds no
    socket twice, [send_personal_message] delivers the message exactly
    when the socket is registered, open and accepts it, and then changes
    nothing; a socket that is not registered is not contacted and nothing
    changes; a registered socket that is closed or refuses the message is
    disconnected, which lowers the connection count by one.  In every
    case the manager still has one record per registered socket.
    [set_user_id] stores the user in the record of a known socket and
    touches neither the registrations nor any subscription. *)
Theorem personal_message_outcome (message user : string) (ws : conn) (s : manager) :
  consistent s ->
  (snd (send_personal_message message ws s) = true <->
   ws ∈ active_connections s /\ healthy message ws = true) /\
  (snd (send_personal_message message ws s) = true \/ ws ∉ active_connections s ->
   fst (send_personal_message message ws s) = s) /\
  (ws ∈ active_connections s -> snd (send_personal_message message ws s) = false ->
   fst (send_personal_message message ws s) = disconnect ws s /\
   (ws ∉ active_connections (fst (send_personal_message message ws s))) /\
   S (get_connection_count (fst (send_personal_message message ws s)))
   = get_connection_count s) /\
  consistent (fst (send_personal_message message ws s)) /\
  consistent (set_user_id ws user s) /\
  active_connections (set_user_id ws user s) = active_connections s /\
  (forall c, topics_of c (set_user_id ws user s) = topics_of c s) /\
  (is_Some (connection_info s !! ws) ->
   user_id <$> (connection_info (set_user_id ws user s) !! ws) = Some (Some user)).
Proof.
  intros Hc. pose proof (disconnect_consistent ws s Hc) as (Hdc & Hgone & _).
  assert (ws ∈ active_connections s ->
          S (get_connection_count (disconnect ws s)) = get_connection_count s) as Hcount.
  { intros Hin. destruct Hc as [Hnd _].
    destruct (disconnect_registered ws s Hnd Hin) as (l1 & l2 & Hs & _ & _ & ->).
    unfold get_connection_count. simpl. rewrite Hs, !length_app. simpl. lia. }
  unfold HubApi.send_personal_message, HubApi.healthy.
  destruct (decide (ws ∈ active_connections s)) as [Hin|Hnin].
  - rewrite (bool_decide_eq_true_2 _ Hin). simpl.
    destruct (connected ws); simpl.
    + destruct (send_text ws message) as [e|] eqn:Hsend; simpl.
      * split; [split; [discriminate|intros [_ H]; discriminate]|].
        split; [intros [H|H]; [discriminate|contradiction]|].
        split; [auto|]. split; [exact Hdc|]. apply set_user_id_facts. exact Hc.
      * split; [split; auto|]. split; [reflexivity|].
        split; [discriminate|]. split; [exact Hc|]. apply set_user_id_facts. exact Hc.
    + split; [split; [discriminate|intros [_ H]; discriminate]|].
      split; [intros [H|H]; [discriminate|contradiction]|].
      split; [auto|]. split; [exact Hdc|]. apply set_user_id_facts. exact Hc.
  - rewrite (bool_decide_eq_false_2 _ Hnin). simpl.
    split; [split; [discriminate|intros [H _]; contradiction]|].
    split; [reflexivity|]. split; [contradiction|]. split; [exact Hc|].
    apply set_user_id_facts. exact Hc.
Qed.

End HubApiFacts.

(** *** The connection manager's registry on concrete inputs *)

Lemma demo_manager_consistent : HubApi.consistent Hub.demo_manager.
Proof.
  split.
  - apply (NoDup_fmap_2 S (seq 0 3)), NoDup_seq.
  - vm_compute. reflexivity.
Qed.

Lemma registration_witness :
  HubApi.consistent Hub.demo_manager /\
  Hub.get_connection_count Hub.demo_manager
  = size (dom (Hub.connection_info Hub.demo_manager)) /\
  (forall ws, ws ∉ Hub.active_connections Hub.demo_manager ->
              HubApi.consistent (Hub.connect ws Hub.demo_manager) /\
              Hub.disconnect ws (Hub.connect ws Hub.demo_manager) = Hub.demo_manager /\
              Hub.disconnect ws Hub.demo_manager = Hub.demo_manager) /\
  (forall ws, HubApi.consistent (Hub.disconnect ws Hub.demo_manager) /\
              (ws ∉ Hub.active_connections (Hub.disconnect ws Hub.demo_manager)) /\
              Hub.connection_info (Hub.disconnect ws Hub.demo_manager) !! ws = None) /\
  (forall message,
      HubApi.consistent
        (fst (Hub.broadcast (fun _ => true) Hub.demo_send message Hub.demo_manager))).
Proof.
  split; [exact demo_manager_consistent|].
  apply (registration_is_consistent (fun _ => true) Hub.demo_send Hub.demo_manager).
  exact demo_manager_consistent.
Defined.

Lemma demo_manager_topics_distinct : HubApi.topics_distinct Hub.demo_manager.
Proof.
  intros c i. unfold Hub.demo_manager, Hub.connect. simpl.
  intros Hc.
  repeat (apply lookup_insert_Some in Hc as [[_ <-]|[_ Hc]]; [apply NoDup_nil_2|]).
  rewrite lookup_empty in Hc. discriminate.
Qed.

Lemma topic_subscriptions_witness :
  HubApi.topics_distinct Hub.demo_manager /\
  HubApi.topics_distinct (HubApi.subscribe_to_topic 2%nat "threats" Hub.demo_manager) /\
  HubApi.topics_distinct (HubApi.unsubscribe_from_topic 2%nat "threats" Hub.demo_manager) /\
  (is_Some (Hub.connection_info Hub.demo_manager !! 2%nat) ->
   "threats" ∈ HubApi.topics_of 2%nat
                 (HubApi.subscribe_to_topic 2%nat "threats" Hub.demo_manager)) /\
  HubApi.subscribe_to_topic 2%nat "threats"
    (HubApi.subscribe_to_topic 2%nat "threats" Hub.demo_manager)
  = HubApi.subscribe_to_topic 2%nat "threats" Hub.demo_manager /\
  ("threats" ∉ HubApi.topics_of 2%nat
                 (HubApi.unsubscribe_from_topic 2%nat "threats" Hub.demo_manager)) /\
  ("threats" ∉ HubApi.topics_of 2%nat Hub.demo_manager ->
   HubApi.unsubscribe_from_topic 2%nat "threats"
     (HubApi.subscribe_to_topic 2%nat "threats" Hub.demo_manager)
   = Hub.demo_manager) /\
  (Hub.connection_info Hub.demo_manager !! 2%nat = None ->
   HubApi.subscribe_to_topic 2%nat "threats" Hub.demo_manager = Hub.demo_manager /\
   HubApi.unsubscribe_from_topic 2%nat "threats" Hub.demo_manager = Hub.demo_manager) /\
  Hub.active_connections (HubApi.subscribe_to_topic 2%nat "threats" Hub.demo_manager)
  = Hub.active_connections Hub.demo_manager /\
  Hub.active_connections (HubApi.unsubscribe_from_topic 2%nat "threats" Hub.demo_manager)
  = Hub.active_connections Hub.demo_manager.
Proof.
  split; [exact demo_manager_topics_distinct|].
  apply (topic_subscriptions Hub.demo_manager 2%nat "threats").
  exact demo_manager_topics_distinct.
Defined.

Lemma personal_message_witness :
  HubApi.consistent Hub.demo_manager /\
  HubApi.send_personal_message (fun _ => true) Hub.demo_send "alert" 2%nat Hub.demo_manager
  = (Hub.disconnect 2%nat Hub.demo_manager, false) /\
  Hub.get_connection_count (Hub.disconnect 2%nat Hub.demo_manager) = 2%nat.
Proof.
  pose proof demo_manager_consistent as Hc. split; [exact Hc|].
  destruct (personal_message_outcome (fun _ => true) Hub.demo_send "alert" "u1" 2%nat
              Hub.demo_manager Hc) as (_ & _ & H & _).
  destruct (H ltac:(right; left) eq_refl) as (Hd & _ & Hn).
  split; [rewrite <- Hd; reflexivity|].
  apply eq_add_S. rewrite <- Hd, Hn. reflexivity.
Defined.

(* ===================================================================== *)
(** * Further properties of the IDS service *)
(* ===================================================================== *)

Section IDSApiFacts.
Import IDS IDSApi.

(** *** Enumerations *)

Lemma AttackType_of_value (ty : AttackType) : AttackType_of (attack_value ty) = Some ty.
Proof. destruct ty; reflexivity. Qed.

Lemma AttackType_of_Some (class_name : string) (ty : AttackType) :
  AttackType_of class_name = Some ty -> attack_value ty = class_name.
Proof.
  unfold AttackType_of, member_of. intros H.
  apply List.find_some in H as [_ H]. apply String.eqb_eq in H. exact H.
Qed.

Lemma AttackType_of_None (class_name : string) :
  AttackType_of class_name = None ->
  class_name ∉ (attack_value <$> all_attack_types).
Proof.
  intros H Hin. apply list_elem_of_fmap in Hin as (ty & -> & _).
  rewrite AttackType_of_value in H. discriminate.
Qed.

Lemma ThreatLevel_of_value (l : ThreatLevel) : ThreatLevel_of (level_value l) = Some l.
Proof. destruct l; reflexivity. Qed.

Lemma get_threat_level_cases (class_name : string) (confidence : float) :
  _get_threat_level class_name confidence
  = level_value (if (confidence <? CONFIDENCE_CUT)%float
                 then one_step_down (base_level class_name)
                 else base_level class_name).
Proof.
  unfold _get_threat_level. destruct (String.eqb class_name "Benign") eqn:Hb.
  - unfold base_level. rewrite Hb. destruct (_ <? _)%float; reflexivity.
  - rewrite (threat_mapping_base _ Hb).
    destruct (_ <? _)%float; [apply level_downgrade_step | reflexivity].
Qed.

(** *** Counting *)

Lemma types_total_insert (m : gmap string Z) (k : string) (v : Z) :
  m !! k = None -> types_total (<[k := v]> m) = v + types_total m.
Proof.
  intros Hk. unfold types_total. apply map_fold_insert_L; [|exact Hk].
  intros. lia.
Qed.

Lemma types_total_bump (m : gmap string Z) (k : string) (n : Z) :
  types_total (<[k := default 0 (m !! k) + n]> m) = types_total m + n.
Proof.
  destruct (m !! k) as [v|] eqn:Hk; simpl.
  - rewrite <- (insert_delete_id m k v) at 2 by exact Hk.
    rewrite <- (insert_delete_eq m k (v + n)).
    rewrite !types_total_insert by apply lookup_delete_eq. lia.
  - rewrite types_total_insert by exact Hk. lia.
Qed.

Lemma count_blocked_cons (a : ThreatAlert) (l : list ThreatAlert) :
  count_blocked (a :: l) = (if blocked a then 1 else 0) + count_blocked l.
Proof. unfold count_blocked. simpl. destruct (blocked a); simpl; lia. Qed.

Lemma count_blocked_app (l r : list ThreatAlert) :
  count_blocked (l ++ r) = count_blocked l + count_blocked r.
Proof.
  induction l as [|a l IH]; [unfold count_blocked; simpl; lia|].
  simpl. rewrite !count_blocked_cons, IH. lia.
Qed.

Lemma count_blocked_nonneg (l : list ThreatAlert) : 0 <= count_blocked l.
Proof. unfold count_blocked. lia. Qed.

Lemma count_blocked_drop (n : nat) (l : list ThreatAlert) :
  count_blocked (drop n l) <= count_blocked l.
Proof.
  rewrite <- (take_drop n l) at 2. rewrite count_blocked_app.
  pose proof (count_blocked_nonneg (take n l)). lia.
Qed.

Lemma block_first_counts (threat_id : string) (l l' : list ThreatAlert) :
  block_first threat_id l = Some l' ->
  length l' = length l /\
  count_blocked l <= count_blocked l' <= count_blocked l + 1 /\
  block_first threat_id l' = Some l'.
Proof.
  revert l'. induction l as [|a l IH]; intros l' H; [discriminate|].
  simpl in H. destruct (String.eqb (id a) threat_id) eqn:Hid.
  - injection H as <-. rewrite !count_blocked_cons. simpl.
    rewrite Hid. split; [reflexivity|]. split; [destruct (blocked a); lia|].
    reflexivity.
  - destruct (block_first threat_id l) as [r|]; [|discriminate].
    injection H as <-. destruct (IH r eq_refl) as (Hl & Hc & Hb).
    rewrite !count_blocked_cons. simpl. rewrite Hid, Hb, Hl. simpl.
    split; [reflexivity|]. split; [lia|reflexivity].
Qed.

Lemma unblock_first_counts (threat_id : string) (l l' : list ThreatAlert) (delta : Z) :
  unblock_first threat_id l = Some (l', delta) ->
  length l' = length l /\ count_blocked l' = count_blocked l + delta.
Proof.
  revert l' delta. induction l as [|a l IH]; intros l' delta H; [discriminate|].
  simpl in H. destruct (String.eqb (id a) threat_id) eqn:Hid.
  - destruct (blocked a) eqn:Hb; injection H as <- <-;
      rewrite !count_blocked_cons; simpl; rewrite ?Hb; split; (reflexivity || lia).
  - destruct (unblock_first threat_id l) as [[r d]|]; [|discriminate].
    injection H as <- <-. destruct (IH r d eq_refl) as (Hl & Hc).
    rewrite !count_blocked_cons. simpl. rewrite Hl. split; [reflexivity|lia].
Qed.

Lemma keep_last_snoc {A : Type} (n : nat) (l : list A) (a : A) :
  (0 < n)%nat -> exists m, Realtime.keep_last n (l ++ [a]) = m ++ [a].
Proof.
  intros Hn. unfold Realtime.keep_last. rewrite length_app. simpl.
  exists (drop (length l + 1 - n) l). rewrite drop_app_le by lia. reflexivity.
Qed.

Lemma py_slice_from_snoc {A : Type} (m : list A) (a : A) :
  py_slice_from (-1) (m ++ [a]) = [a].
Proof.
  unfold py_slice_from. change (-1 <? 0) with true. cbv iota.
  rewrite length_app. simpl length.
  replace (Z.to_nat (Z.max (Z.of_nat (length m + 1) + -1) 0)) with (length m) by lia.
  apply drop_app_length.
Qed.

(** *** Predictions *)

Section Predictions.
Variable classify : packet_info -> string * float.
Variable describe : string -> float -> string.

Abbreviation predict := (predict_attack classify describe).

Lemma predict_attack_cases (features : packet_info) (uid now : string) (s : ids)
  (class_name : string) (c : float) :
  classify features = (class_name, c) ->
  match predict features uid now s with
  | Ok alert s' =>
      is_initialized s = true /\ model_loaded s = true /\
      class_name ∈ (attack_value <$> all_attack_types) /\
      (0 <=? c)%float = true /\ (c <=? 1)%float = true /\
      attack_value (attack_type alert) = class_name /\
      level_value (threat_level alert) = _get_threat_level class_name c /\
      confidence alert = c /\ blocked alert = false /\ id alert = uid /\
      (if String.eqb class_name "Benign" then s' = s
       else
         recent_alerts s' = Realtime.keep_last 100 (recent_alerts s ++ [alert]) /\
         get_recent_alerts 1 s' = [alert] /\
         total_attacks s' = total_attacks s + 1 /\
         blocked_attacks s' = blocked_attacks s /\
         attack_types s' !! class_name
         = Some (default 0 (attack_types s !! class_name) + 1) /\
         (forall other, other <> class_name ->
                        attack_types s' !! other = attack_types s !! other))
  | Raise _ s' =>
      s' = s /\
      (is_initialized s = false \/ model_loaded s = false \/
       (class_name ∉ (attack_value <$> all_attack_types)) \/
       (0 <=? c)%float = false \/ (c <=? 1)%float = false)
  | OutOfFuel => False
  end.
Proof.
  intros Hc. unfold predict_attack.
  destruct (is_initialized s) eqn:Hi; simpl;
    [|split; [reflexivity|left; reflexivity]].
  destruct (model_loaded s) eqn:Hm; simpl;
    [|split; [reflexivity|right; left; reflexivity]].
  rewrite Hc. rewrite get_threat_level_cases, ThreatLevel_of_value.
  assert (match (if negb (String.eqb class_name "Benign")
                 then AttackType_of class_name else Some BENIGN) with
          | Some ty => attack_value ty = class_name
          | None => class_name ∉ (attack_value <$> all_attack_types)
          end) as Hty.
  { destruct (String.eqb_spec class_name "Benign") as [->|Hne]; simpl; [reflexivity|].
    destruct (AttackType_of class_name) as [ty|] eqn:Ht.
    - apply AttackType_of_Some. exact Ht.
    - apply AttackType_of_None. exact Ht. }
  destruct (if negb (String.eqb class_name "Benign")
            then AttackType_of class_name else Some BENIGN) as [ty|];
    [|split; [reflexivity|right; right; left; exact Hty]].
  destruct (0 <=? c)%float eqn:H0; simpl;
    [|split; [reflexivity|right; right; right; left; reflexivity]].
  destruct (c <=? 1)%float eqn:H1; simpl;
    [|split; [reflexivity|right; right; right; right; reflexivity]].
  assert (class_name ∈ (attack_value <$> all_attack_types)) as Hknown.
  { rewrite <- Hty. apply list_elem_of_fmap. exists ty. split; [reflexivity|].
    destruct ty; unfold all_attack_types; repeat constructor. }
  destruct (String.eqb class_name "Benign") eqn:Hb; simpl.
  - repeat split; auto.
  - repeat split; auto.
    + unfold get_recent_alerts. simpl.
      destruct (keep_last_snoc 100 (recent_alerts s)
                  (mkAlert uid now (info_source_ip features)
                     (info_destination_ip features) ty
                     (if (c <? CONFIDENCE_CUT)%float
                      then one_step_down (base_level class_name)
                      else base_level class_name) c (describe class_name c) false
                     (Some features))) as [m Hm']; [lia|].
      unfold Realtime.keep_last in Hm'. rewrite Hm'. apply py_slice_from_snoc.
    + apply lookup_insert_eq.
    + intros other Hne. apply lookup_insert_ne. congruence.
Qed.

(** X17.  What a prediction does.  [predict_attack] returns an alert
    exactly when the service is initialised with a model, the label is
    the value of a member of [AttackType] and the confidence lies in
    [0, 1]; otherwise it raises and the service is as before.  The alert
    carries the label, the level of [_get_threat_level] and the
    confidence, and is not blocked.  A benign alert changes nothing; any
    other alert becomes the last of the (at most 100) recent alerts, is
    what [get_recent_alerts(1)] returns, and adds one to [total_attacks]
    and to the counter of its label only. *)
Theorem predict_attack_outcome (features : packet_info) (uid now : string) (s : ids)
  (class_name : string) (c : float) :
  classify features = (class_name, c) ->
  match predict features uid now s with
  | Ok alert s' =>
      is_initialized s = true /\ model_loaded s = true /\
      class_name ∈ (attack_value <$> all_attack_types) /\
      (0 <=? c)%float = true /\ (c <=? 1)%float = true /\
      attack_value (attack_type alert) = class_name /\
      level_value (threat_level alert) = _get_threat_level class_name c /\
      confidence alert = c /\ blocked alert = false /\ id alert = uid /\
      (if String.eqb class_name "Benign" then s' = s
       else
         recent_alerts s' = Realtime.keep_last 100 (recent_alerts s ++ [alert]) /\
         get_recent_alerts 1 s' = [alert] /\
         total_attacks s' = total_attacks s + 1 /\
         blocked_attacks s' = blocked_attacks s /\
         attack_types s' !! class_name
         = Some (default 0 (attack_types s !! class_name) + 1) /\
         (forall other, other <> class_name ->
                        attack_types s' !! other = attack_types s !! other))
  | Raise _ s' =>
      s' = s /\
      (is_initialized s = false \/ model_loaded s = false \/
       (class_name ∉ (attack_value <$> all_attack_types)) \/
       (0 <=? c)%float = false \/ (c <=? 1)%float = false)
  | OutOfFuel => False
  end.
Proof. apply predict_attack_cases. Qed.

(** X18.  The counters stay sound.  If the [blocked_attacks] counter is
    not below the number of alerts flagged as blocked, the per-label
    counters add up to [total_attacks] and at most 100 alerts are kept,
    then the same holds after a prediction, after [block_threat] and
    after [unblock_threat]; so the counter of blocked attacks is never
    negative and [get_stats] reports at most 100 as [detection_rate].
    The first bound can be strict: after blocking the same threat twice
    the counter is above the number of blocked alerts.  The state built
    by the constructor meets the three conditions. *)
Theorem counters_stay_sound (s : ids) :
  counters_sound s ->
  (forall features uid now alert s',
      predict features uid now s = Ok alert s' -> counters_sound s') /\
  (forall threat_id, counters_sound (fst (block_threat threat_id s))) /\
  (forall threat_id, counters_sound (fst (unblock_threat threat_id s))) /\
  0 <= blocked_attacks s /\ detection_rate (get_stats s) <= 100 /\
  (forall threat_id,
      snd (block_threat threat_id s) = true ->
      let s2 := fst (block_threat threat_id (fst (block_threat threat_id s))) in
      count_blocked (recent_alerts s2) < blocked_attacks s2) /\
  counters_sound new_ids.
Proof.
  intros (Hb & Ht & Hl). split; [|split; [|split; [|split; [|split; [|split]]]]].
  - intros features uid now alert s' H.
    destruct (classify features) as [class_name c] eqn:Hc.
    pose proof (predict_attack_cases features uid now s class_name c Hc) as Hout.
    rewrite H in Hout.
    destruct Hout as (_ & _ & _ & _ & _ & _ & _ & _ & Hnb & _ & Hs').
    destruct (String.eqb class_name "Benign"); [subst s'; repeat split; assumption|].
    destruct Hs' as (Hra & _ & Hta & Hba & _).
    assert (attack_types s'
            = <[class_name := default 0 (attack_types s !! class_name) + 1]>
                (attack_types s)) as Hat.
    { unfold predict_attack in H.
      destruct (negb (is_initialized s) || negb (model_loaded s))%bool; [discriminate|].
      rewrite Hc in H.
      destruct (if negb (String.eqb class_name "Benign")
                then AttackType_of class_name else Some BENIGN); [|discriminate].
      destruct (ThreatLevel_of _); [|discriminate].
      destruct ((0 <=? c) && (c <=? 1))%float; [|discriminate].
      destruct (negb (String.eqb class_name "Benign")); injection H as <- <-.
      - reflexivity.
      - exfalso. clear -Hta. lia. }
    split; [|split].
    + rewrite Hra, Hba. unfold Realtime.keep_last.
      etransitivity; [apply count_blocked_drop|].
      rewrite count_blocked_app, count_blocked_cons, Hnb.
      unfold count_blocked at 2. simpl. lia.
    + rewrite Hat, types_total_bump, Hta, Ht. reflexivity.
    + rewrite Hra. apply keep_last_length.
  - intros threat_id. unfold block_threat.
    destruct (block_first threat_id (recent_alerts s)) as [l'|] eqn:Hbf; simpl;
      [|repeat split; assumption].
    destruct (block_first_counts _ _ _ Hbf) as (Hlen & Hcnt & _).
    repeat split; simpl; [lia | exact Ht | rewrite Hlen; exact Hl].
  - intros threat_id. unfold unblock_threat.
    destruct (unblock_first threat_id (recent_alerts s)) as [[l' d]|] eqn:Hbf; simpl;
      [|repeat split; assumption].
    destruct (unblock_first_counts _ _ _ _ Hbf) as (Hlen & Hcnt).
    repeat split; simpl; [lia | exact Ht | rewrite Hlen; exact Hl].
  - pose proof (count_blocked_nonneg (recent_alerts s)). lia.
  - simpl. lia.
  - intros threat_id. unfold block_threat.
    destruct (block_first threat_id (recent_alerts s)) as [l'|] eqn:Hbf; simpl;
      [|discriminate].
    intros _. destruct (block_first_counts _ _ _ Hbf) as (_ & Hcnt & Hagain).
    rewrite Hagain. simpl. lia.
  - split; [|split]; [vm_compute; discriminate | reflexivity | simpl; lia].
Qed.

End Predictions.

End IDSApiFacts.

(** *** The IDS counters on concrete inputs *)

Lemma predict_attack_witness :
  exists alert s',
    IDS.predict_attack IDSApi.recon_classifier (fun _ _ => "scan"%string)
      Monitor.demo_info "t1" "2025-01-01T00:00:00" IDSApi.loaded_ids
    = Ok alert s' /\
    IDS.attack_value (IDS.attack_type alert) = "Reconnaissance"%string /\
    IDS.level_value (IDS.threat_level alert) = "LOW"%string /\
    IDSApi.get_recent_alerts 1 s' = [alert] /\
    IDS.total_attacks s' = 3.
Proof.
  pose proof (predict_attack_outcome IDSApi.recon_classifier (fun _ _ => "scan"%string)
                Monitor.demo_info "t1" "2025-01-01T00:00:00" IDSApi.loaded_ids
                "Reconnaissance" 0x1.4cccccccccccdp-1%float eq_refl) as H.
  destruct (IDS.predict_attack _ _ _ _ _ _) as [alert s'|e s'|].
  - destruct H as (_ & _ & _ & _ & _ & Hty & Hlv & _ & _ & _ & _ & Hlast & Htot & _).
    exists alert, s'. split; [reflexivity|]. split; [exact Hty|].
    split; [exact Hlv|]. split; [exact Hlast|]. exact Htot.
  - exfalso. destruct H as [_ [H|[H|[H|[H|H]]]]]; try discriminate H.
    apply H. apply list_elem_of_In. simpl. auto 10.
  - destruct H.
Defined.

Lemma counters_witness :
  IDSApi.counters_sound IDSApi.loaded_ids /\
  (forall threat_id,
      IDSApi.counters_sound (fst (IDS.block_threat threat_id IDSApi.loaded_ids))) /\
  (forall threat_id,
      IDSApi.counters_sound (fst (IDS.unblock_threat threat_id IDSApi.loaded_ids))) /\
  IDSApi.detection_rate (IDSApi.get_stats IDSApi.loaded_ids) <= 100.
Proof.
  assert (IDSApi.counters_sound IDSApi.loaded_ids) as Hs.
  { split; [|split]; [vm_compute; discriminate | reflexivity | simpl; lia]. }
  split; [exact Hs|].
  destruct (counters_stay_sound IDSApi.recon_classifier (fun _ _ => "scan"%string)
              IDSApi.loaded_ids Hs) as (_ & Hb & Hu & _ & Hr & _).
  split; [exact Hb|]. split; [exact Hu|exact Hr].
Defined.

(* ===================================================================== *)
(** * Further properties of the network monitor *)
(* ===================================================================== *)

Section MonitorApiFacts.
Import Monitor MonitorApi.

(** *** The evidence buffer as a function of the capture *)

Lemma keep_last_all {A : Type} (n : nat) (l : list A) :
  (length l <= n)%nat -> Realtime.keep_last n l = l.
Proof.
  intros H. unfold Realtime.keep_last.
  replace (length l - n)%nat with 0%nat by lia. reflexivity.
Qed.

Lemma process_packet_lookup (info : IDS.packet_info) (raw : list Byte.byte) (now : Z)
  (buf : gmap string (list frame)) (key : string) :
  _process_packet info raw now buf !! key
  = if String.eqb (packet_key (IDS.info_source_ip info) (IDS.info_destination_ip info)) key
    then Some (Realtime.keep_last PER_KEY_CAP
                 (default [] (buf !! key) ++ [mkFrame now raw info]))
    else buf !! key.
Proof.
  unfold _process_packet.
  set (k := packet_key _ _).
  set (buf1 := match buf !! k with None => <[k:=[]]> buf | Some _ => buf end).
  assert (default [] (buf1 !! k) = default [] (buf !! k)) as Hk.
  { unfold buf1. destruct (buf !! k) eqn:Hb; [rewrite Hb; reflexivity|].
    rewrite lookup_insert_eq. reflexivity. }
  assert (forall k', k' <> k -> buf1 !! k' = buf !! k') as Hother.
  { intros k' Hne. unfold buf1. destruct (buf !! k); [reflexivity|].
    apply lookup_insert_ne. congruence. }
  rewrite Hk.
  destruct (String.eqb_spec k key) as [<-|Hne].
  - destruct (Nat.ltb_spec PER_KEY_CAP
                (length (default [] (buf !! k) ++ [mkFrame now raw info]))) as [Hlt|Hge].
    + rewrite lookup_insert_eq. reflexivity.
    + rewrite lookup_insert_eq, keep_last_all by exact Hge. reflexivity.
  - destruct (_ <? _)%nat; rewrite ?lookup_insert_ne by congruence;
      apply Hother; congruence.
Qed.

Lemma frames_of_cons (key : string) (c : capture) (packets : list capture) :
  frames_of key (c :: packets)
  = if String.eqb (key_of c) key
    then mkFrame (cap_now c) (cap_raw c) (cap_info c) :: frames_of key packets
    else frames_of key packets.
Proof. unfold frames_of. simpl. destruct (String.eqb (key_of c) key); reflexivity. Qed.

Lemma process_all_lookup (packets : list capture) (buf : gmap string (list frame))
  (key : string) :
  process_all packets buf !! key
  = match frames_of key packets with
    | [] => buf !! key
    | fs => Some (Realtime.keep_last PER_KEY_CAP (default [] (buf !! key) ++ fs))
    end.
Proof.
  revert buf. induction packets as [|c packets IH]; intros buf; [reflexivity|].
  unfold process_all. simpl fold_left. fold (process_all packets).
  rewrite IH, process_packet_lookup, frames_of_cons. fold (key_of c).
  destruct (String.eqb (key_of c) key); [|reflexivity].
  destruct (frames_of key packets) as [|g fs]; [reflexivity|].
  simpl default. f_equal. rewrite keep_last_app, <- app_assoc. reflexivity.
Qed.

Lemma frames_of_nil (key : string) (packets : list capture) :
  frames_of key packets = [] <-> key ∉ (key_of <$> packets).
Proof.
  induction packets as [|c packets IH].
  - split; [intros _; apply not_elem_of_nil | reflexivity].
  - rewrite frames_of_cons, fmap_cons, not_elem_of_cons.
    destruct (String.eqb_spec (key_of c) key) as [He|Hne].
    + split; [discriminate|]. intros [Hn _]. congruence.
    + rewrite IH. split; [intros H; split; [congruence|exact H] | intros [_ H]; exact H].
Qed.

(** X19.  The evidence buffer is a function of the capture.  After
    [_process_packet] has stored any sequence of packets, starting from
    any buffer, a key holds the last 100 of its earlier frames followed
    by the frames of the packets captured under that key, in order of
    arrival; a key under which no packet was captured is as before.
    Starting from the empty buffer only the keys of the capture exist, no
    key is ever empty, and no key holds more than 100 frames. *)
Theorem pcap_buffer_of_capture (packets : list capture)
  (buf : gmap string (list frame)) (key : string) :
  process_all packets buf !! key
  = match frames_of key packets with
    | [] => buf !! key
    | fs => Some (Realtime.keep_last PER_KEY_CAP (default [] (buf !! key) ++ fs))
    end /\
  (is_Some (process_all packets ∅ !! key) <-> key ∈ (key_of <$> packets)) /\
  (forall entries, process_all packets ∅ !! key = Some entries ->
                   entries = Realtime.keep_last PER_KEY_CAP (frames_of key packets) /\
                   entries <> [] /\ (length entries <= PER_KEY_CAP)%nat).
Proof.
  split; [apply process_all_lookup|].
  rewrite process_all_lookup, lookup_empty. simpl.
  pose proof (frames_of_nil key packets) as Hempty.
  destruct (frames_of key packets) as [|f fs] eqn:Hf.
  - split.
    + split; [intros [? ?]; discriminate|].
      intros Hin. exfalso. apply Hempty; [reflexivity|exact Hin].
    + intros entries; discriminate.
  - split.
    + split; [|intros _; eexists; reflexivity].
      intros _. destruct (decide (key ∈ key_of <$> packets)) as [Hin|Hn]; [exact Hin|].
      apply Hempty in Hn. discriminate.
    + intros entries [= <-]. split; [reflexivity|]. split.
      * unfold Realtime.keep_last. intros Hnil.
        apply (f_equal length) in Hnil. rewrite length_drop in Hnil.
        simpl in Hnil. unfold PER_KEY_CAP in Hnil. lia.
      * apply keep_last_length.
Qed.

(** *** Traffic statistics *)

Lemma protocol_name_cases (protocol : Z) :
  protocol_name protocol
  = if protocol =? 1 then "ICMP"%string
    else if protocol =? 6 then "TCP"%string
    else if protocol =? 17 then "UDP"%string else "OTHER"%string.
Proof.
  unfold protocol_name, protocol_names. simpl list_to_map.
  destruct (Z.eqb_spec protocol 1) as [->|H1]; [reflexivity|].
  destruct (Z.eqb_spec protocol 6) as [->|H6]; [reflexivity|].
  destruct (Z.eqb_spec protocol 17) as [->|H17]; [reflexivity|].
  rewrite !lookup_insert_ne by congruence. rewrite lookup_empty. reflexivity.
Qed.

Lemma stat_bump (key k : string) (n : Z) (d : gmap string Z) :
  stat key (bump k n d) = stat key d + (if String.eqb k key then n else 0).
Proof.
  unfold stat, bump. destruct (String.eqb_spec k key) as [->|Hne].
  - rewrite lookup_insert_eq. reflexivity.
  - rewrite lookup_insert_ne by exact Hne. lia.
Qed.

Lemma stat_update (key : string) (info : IDS.packet_info) (d : gmap string Z) :
  stat key (_update_traffic_stats info d)
  = stat key d
    + (if String.eqb "total_packets" key then 1 else 0)
    + (if String.eqb "total_bytes" key then IDS.info_packet_size info else 0)
    + (if String.eqb (protocol_name (IDS.info_protocol info) ++ "_packets") key
       then 1 else 0).
Proof. unfold _update_traffic_stats. rewrite !stat_bump. reflexivity. Qed.

Lemma stat_update_all (key : string) (packets : list IDS.packet_info)
  (d : gmap string Z) :
  stat key (update_all packets d)
  = stat key d
    + (if String.eqb "total_packets" key then Z.of_nat (length packets) else 0)
    + (if String.eqb "total_bytes" key then total_size packets else 0)
    + Z.of_nat
        (length
           (List.filter
              (fun i =>
                 String.eqb (protocol_name (IDS.info_protocol i) ++ "_packets") key)
              packets)).
Proof.
  revert d. induction packets as [|i packets IH]; intros d.
  - destruct (String.eqb "total_packets" key), (String.eqb "total_bytes" key);
      simpl; lia.
  - unfold update_all. simpl fold_left. fold (update_all packets).
    rewrite IH, stat_update. simpl List.filter. simpl total_size.
    destruct (String.eqb "total_packets" key), (String.eqb "total_bytes" key),
      (String.eqb (protocol_name (IDS.info_protocol i) ++ "_packets") key);
      simpl length; lia.
Qed.

Lemma protocol_counter (protocol : Z) (name : string) (packets : list IDS.packet_info) :
  (protocol, name) ∈ [(1, "ICMP"); (6, "TCP"); (17, "UDP")]%string ->
  Z.of_nat
    (length
       (List.filter
          (fun i =>
             String.eqb (protocol_name (IDS.info_protocol i) ++ "_packets")
               (name ++ "_packets"))
          packets))
  = count_protocol protocol packets.
Proof.
  intros Hin. unfold count_protocol. do 2 f_equal. apply List.filter_ext. intros i.
  rewrite protocol_name_cases.
  repeat (apply elem_of_cons in Hin as [[= -> ->]|Hin];
          [destruct (Z.eqb_spec (IDS.info_protocol i) 1);
           destruct (Z.eqb_spec (IDS.info_protocol i) 6);
           destruct (Z.eqb_spec (IDS.info_protocol i) 17);
           try reflexivity; lia|]).
  apply elem_of_nil in Hin. destruct Hin.
Qed.

Lemma other_counter (packets : list IDS.packet_info) :
  Z.of_nat
    (length
       (List.filter
          (fun i =>
             String.eqb (protocol_name (IDS.info_protocol i) ++ "_packets")
               "OTHER_packets")
          packets))
  + count_protocol 6 packets + count_protocol 17 packets + count_protocol 1 packets
  = Z.of_nat (length packets).
Proof.
  unfold count_protocol. induction packets as [|i packets IH]; [reflexivity|].
  simpl List.filter. rewrite protocol_name_cases.
  destruct (Z.eqb_spec (IDS.info_protocol i) 1);
    destruct (Z.eqb_spec (IDS.info_protocol i) 6);
    destruct (Z.eqb_spec (IDS.info_protocol i) 17); try lia;
    simpl String.eqb; cbv iota; simpl length; lia.
Qed.

(** X20.  The traffic counters count.  After [_update_traffic_stats] has
    been applied to any sequence of packets, every counter has grown by
    what the packets contribute: [total_packets] by their number,
    [total_bytes] by the sum of their sizes, the counters of TCP, UDP and
    ICMP by the packets with protocol numbers 6, 17 and 1, and
    [OTHER_packets] by all the rest; so the four protocol counters grow
    together by as much as [total_packets]. *)
Theorem traffic_stats_count (packets : list IDS.packet_info) (d : gmap string Z) :
  stat "total_packets" (update_all packets d)
  = stat "total_packets" d + Z.of_nat (length packets) /\
  stat "total_bytes" (update_all packets d) = stat "total_bytes" d + total_size packets /\
  stat "TCP_packets" (update_all packets d)
  = stat "TCP_packets" d + count_protocol 6 packets /\
  stat "UDP_packets" (update_all packets d)
  = stat "UDP_packets" d + count_protocol 17 packets /\
  stat "ICMP_packets" (update_all packets d)
  = stat "ICMP_packets" d + count_protocol 1 packets /\
  stat "OTHER_packets" (update_all packets d)
  + count_protocol 6 packets + count_protocol 17 packets + count_protocol 1 packets
  = stat "OTHER_packets" d + Z.of_nat (length packets).
Proof.
  rewrite !stat_update_all.
  rewrite (protocol_counter 6 "TCP"), (protocol_counter 17 "UDP"),
    (protocol_counter 1 "ICMP") by (repeat constructor).
  pose proof (other_counter packets) as Ho.
  assert (forall l : list IDS.packet_info,
             List.filter
               (fun i => String.eqb (protocol_name (IDS.info_protocol i) ++ "_packets")
                           "total_packets") l = []) as Hp.
  { induction l as [|i l IHl]; [reflexivity|]. simpl List.filter.
    rewrite protocol_name_cases, IHl.
    destruct (_ =? 1); [reflexivity|]. destruct (_ =? 6); [reflexivity|].
    destruct (_ =? 17); reflexivity. }
  assert (forall l : list IDS.packet_info,
             List.filter
               (fun i => String.eqb (protocol_name (IDS.info_protocol i) ++ "_packets")
                           "total_bytes") l = []) as Hb.
  { induction l as [|i l IHl]; [reflexivity|]. simpl List.filter.
    rewrite protocol_name_cases, IHl.
    destruct (_ =? 1); [reflexivity|]. destruct (_ =? 6); [reflexivity|].
    destruct (_ =? 17); reflexivity. }
  rewrite Hp, Hb. simpl String.eqb. cbv iota. simpl length.
  repeat split; lia.
Qed.

(** *** The pre-filter and the alert path *)

Section AlertGate.
Variable classify : IDS.packet_info -> string * float.
Variable describe : string -> float -> string.
Variable reconstructs : list Byte.byte -> bool.
Variable is_local_network_ip : string -> string -> bool.
Variable cfg : settings.
Variable has_websocket_manager : bool.
Variable scapy_available : bool.
Variable wrpcap_getvalue : list frame -> option (list Byte.byte).

Abbreviation local ip := (is_local_network_ip ip (LOCAL_NETWORK_SUBNET cfg)).
Abbreviation skipped := (filtered_out is_local_network_ip cfg).
Abbreviation analyze_packet :=
  (_analyze_packet_for_threats classify describe reconstructs is_local_network_ip cfg
     has_websocket_manager scapy_available wrpcap_getvalue).

(** X21.  Which packets reach the classifier.  Without
    [LOCAL_NETWORK_ONLY] every packet does.  With it, and with
    [MONITOR_INTERNAL_ATTACKS], a packet is analysed exactly when its
    source address is local, whatever its destination: traffic from
    outside to a local host is skipped.  With [LOCAL_NETWORK_ONLY] alone a
    packet is analysed exactly when its source or its destination is
    local.  A skipped packet leaves the IDS service untouched and sends
    nothing. *)
Theorem local_filter_cases (info : IDS.packet_info) :
  (LOCAL_NETWORK_ONLY cfg = false -> skipped info = false) /\
  (LOCAL_NETWORK_ONLY cfg = true -> MONITOR_INTERNAL_ATTACKS cfg = true ->
   skipped info = negb (local (IDS.info_source_ip info))) /\
  (LOCAL_NETWORK_ONLY cfg = true -> MONITOR_INTERNAL_ATTACKS cfg = false ->
   skipped info
   = negb (local (IDS.info_source_ip info) || local (IDS.info_destination_ip info))) /\
  (skipped info = true ->
   forall uid now now1 now2 buf s,
     analyze_packet info uid now now1 now2 buf s = (s, [])).
Proof.
  unfold filtered_out, is_internal_attack. repeat split.
  - intros ->. reflexivity.
  - intros -> ->.
    destruct (local (IDS.info_source_ip info)),
             (local (IDS.info_destination_ip info)); reflexivity.
  - intros -> ->.
    destruct (local (IDS.info_source_ip info)),
             (local (IDS.info_destination_ip info)); reflexivity.
  - intros Hs uid now now1 now2 buf s. unfold _analyze_packet_for_threats.
    unfold filtered_out, is_internal_attack. rewrite Hs. reflexivity.
Qed.

(** X22.  Nothing leaves the monitor at or below confidence 0.7.  If
    analysing a packet sends anything, the packet passed the pre-filter,
    the classifier's confidence is above 0.7 and [predict_attack]
    returned an alert; what is sent is that alert, to the subscribers if
    there is a connection manager and then once to the database, with
    what [_generate_pcap_for_threat] returns for the two addresses, which
    is nothing when the capture writer closes its buffer.  At a
    confidence that is not above 0.7 nothing is sent, although the IDS
    service has recorded the prediction. *)
Theorem alerts_need_confidence (info : IDS.packet_info) (uid now : string)
  (now1 now2 : Z) (buf : gmap string (list frame)) (s : IDS.ids)
  (class_name : string) (c : float) :
  classify info = (class_name, c) ->
  (snd (analyze_packet info uid now now1 now2 buf s) <> [] ->
   skipped info = false /\ (IDS.CONFIDENCE_CUT <? c)%float = true /\
   exists alert pcap_data,
     IDS.predict_attack classify describe info uid now s
     = Ok alert (fst (analyze_packet info uid now now1 now2 buf s)) /\
     IDS.confidence alert = c /\
     snd (analyze_packet info uid now now1 now2 buf s)
     = (if has_websocket_manager then [Broadcast alert] else [])
         ++ [SaveThreat alert pcap_data] /\
     pcap_data
     = _generate_pcap_for_threat reconstructs scapy_available wrpcap_getvalue
         (IDS.info_source_ip info) (IDS.info_destination_ip info) now1 now2 buf /\
     ((forall packets, wrpcap_getvalue packets = None) -> pcap_data = None)) /\
  ((IDS.CONFIDENCE_CUT <? c)%float = false -> skipped info = false ->
   snd (analyze_packet info uid now now1 now2 buf s) = [] /\
   forall alert s',
     IDS.predict_attack classify describe info uid now s = Ok alert s' ->
     fst (analyze_packet info uid now now1 now2 buf s) = s').
Proof.
  intros Hc.
  pose proof (predict_attack_cases classify describe info uid now s class_name c Hc)
    as Hout.
  assert (forall alert s',
             IDS.predict_attack classify describe info uid now s = Ok alert s' ->
             IDS.source_ip alert = IDS.info_source_ip info /\
             IDS.destination_ip alert = IDS.info_destination_ip info) as Hips.
  { intros alert s'. unfold IDS.predict_attack.
    destruct (negb (IDS.is_initialized s) || negb (IDS.model_loaded s))%bool;
      [discriminate|].
    rewrite Hc.
    destruct (if negb (String.eqb class_name "Benign")
              then IDS.AttackType_of class_name else Some IDS.BENIGN); [|discriminate].
    destruct (IDS.ThreatLevel_of _); [|discriminate].
    destruct ((0 <=? c) && (c <=? 1))%float; [|discriminate].
    destruct (negb (String.eqb class_name "Benign")); intros [= <- <-]; auto. }
  unfold _analyze_packet_for_threats.
  fold (filtered_out is_local_network_ip cfg info).
  destruct (skipped info) eqn:Hs.
  - split; [intros H; exfalso; apply H; reflexivity|]. intros _; discriminate.
  - destruct (IDS.predict_attack classify describe info uid now s) as [alert s'|e s'|]
      eqn:Hp.
    + destruct Hout as (_ & _ & _ & _ & _ & _ & _ & Hconf & _).
      destruct (Hips alert s' eq_refl) as [Hsrc Hdst].
      rewrite Hconf, Hsrc, Hdst.
      destruct (negb (String.eqb (IDS.attack_value (IDS.attack_type alert)) "BENIGN"))
        eqn:Hb; simpl.
      * destruct (IDS.CONFIDENCE_CUT <? c)%float eqn:Hcut; simpl.
        -- split.
           ++ intros _. split; [reflexivity|]. split; [reflexivity|].
              exists alert. eexists. split; [reflexivity|]. split; [exact Hconf|].
              split; [reflexivity|]. split; [reflexivity|].
              apply generate_pcap_closed.
           ++ discriminate.
        -- split; [intros H; exfalso; apply H; reflexivity|].
           intros _ _. split; [reflexivity|]. intros a t [= <- <-]. reflexivity.
      * split; [intros H; exfalso; apply H; reflexivity|].
        intros _ _. split; [reflexivity|]. intros a t [= <- <-]. reflexivity.
    + simpl. split; [intros H; exfalso; apply H; reflexivity|].
      intros _ _. split; [reflexivity|]. intros a t; discriminate.
    + destruct Hout.
Qed.

End AlertGate.

(** *** Filtering threats by address *)

Section FilterFacts.
Import NetworkUtils.
Variable is_local_network_ip : string -> string -> bool.

Lemma filter_filter {A : Type} (f g : A -> bool) (l : list A) :
  (forall x, f x = true -> g x = true) ->
  List.filter f (List.filter g l) = List.filter f l.
Proof.
  intros Hfg. induction l as [|a l IH]; [reflexivity|]. simpl.
  destruct (g a) eqn:Hg; simpl.
  - destruct (f a); rewrite IH; reflexivity.
  - destruct (f a) eqn:Hf; [rewrite (Hfg a Hf) in Hg; discriminate|exact IH].
Qed.

Lemma filter_sublist {A : Type} (f : A -> bool) (l : list A) :
  sublist (List.filter f l) l.
Proof.
  induction l as [|a l IH]; [constructor|]. simpl.
  destruct (f a); [apply sublist_skip | apply sublist_cons]; exact IH.
Qed.

(** X23.  The two modes of [filter_local_threats] are nested.  The
    internal-only selection is the internal-only part of the wider one,
    which keeps the threats with a local source or destination; both
    keep the order of the threats, both are idempotent, and a threat
    without addresses is kept only if the empty string counts as
    local. *)
Theorem filter_local_threats_nested (threats : list (gmap string string))
  (local_subnet : string) :
  filter_local_threats is_local_network_ip
    (filter_local_threats is_local_network_ip threats local_subnet false)
    local_subnet true
  = filter_local_threats is_local_network_ip threats local_subnet true /\
  sublist (filter_local_threats is_local_network_ip threats local_subnet true)
          (filter_local_threats is_local_network_ip threats local_subnet false) /\
  sublist (filter_local_threats is_local_network_ip threats local_subnet false)
          threats /\
  (forall internal_only,
      filter_local_threats is_local_network_ip
        (filter_local_threats is_local_network_ip threats local_subnet internal_only)
        local_subnet internal_only
      = filter_local_threats is_local_network_ip threats local_subnet internal_only) /\
  (forall internal_only,
      is_local_network_ip "" local_subnet = false ->
      filter_local_threats is_local_network_ip [∅] local_subnet internal_only = []).
Proof.
  assert (filter_local_threats is_local_network_ip
            (filter_local_threats is_local_network_ip threats local_subnet false)
            local_subnet true
          = filter_local_threats is_local_network_ip threats local_subnet true)
    as Hnest.
  { unfold filter_local_threats. apply filter_filter.
    intros t. unfold Monitor.is_internal_attack.
    destruct (is_local_network_ip _ _); [reflexivity|discriminate]. }
  split; [exact Hnest|]. split; [|split; [|split]].
  - rewrite <- Hnest. apply filter_sublist.
  - apply filter_sublist.
  - intros b. unfold filter_local_threats. apply filter_filter. auto.
  - intros b Hl. unfold filter_local_threats, Monitor.is_internal_attack.
    destruct b; simpl; rewrite !lookup_empty; simpl; rewrite Hl; reflexivity.
Qed.

End FilterFacts.

End MonitorApiFacts.

(** *** The monitor's filter and alert gate on concrete inputs *)

Lemma alerts_need_confidence_witness :
  MonitorApi.flood_classifier 0x1.4cccccccccccdp-1 Monitor.demo_info
  = ("Flood Attacks"%string, 0x1.4cccccccccccdp-1%float) /\
  snd (Monitor._analyze_packet_for_threats
         (MonitorApi.flood_classifier 0x1.4cccccccccccdp-1) (fun _ _ => "flood"%string)
         (fun _ => true) NetworkUtils.demo_is_local Monitor.default_settings true
         true Monitor.closing_writer
         Monitor.demo_info "t1" "2025-01-01T00:00:00" 0 0 Monitor.small_buffer
         IDSApi.loaded_ids) = [].
Proof.
  split; [reflexivity|].
  apply (alerts_need_confidence
           (MonitorApi.flood_classifier 0x1.4cccccccccccdp-1)
           (fun _ _ => "flood"%string) (fun _ => true) NetworkUtils.demo_is_local
           Monitor.default_settings true true Monitor.closing_writer
           Monitor.demo_info "t1" "2025-01-01T00:00:00"
           0 0 Monitor.small_buffer IDSApi.loaded_ids "Flood Attacks"
           0x1.4cccccccccccdp-1%float eq_refl); reflexivity.
Defined.

Lemma local_filter_witness :
  Monitor.filtered_out NetworkUtils.demo_is_local MonitorApi.strict_settings
    MonitorApi.inbound_info = true /\
  (forall uid now now1 now2 buf s,
      Monitor._analyze_packet_for_threats IDSApi.recon_classifier
        (fun _ _ => "scan"%string) (fun _ => true) NetworkUtils.demo_is_local
        MonitorApi.strict_settings true true Monitor.closing_writer
        MonitorApi.inbound_info uid now now1 now2 buf s
      = (s, [])).
Proof.
  split; [reflexivity|].
  destruct (local_filter_cases IDSApi.recon_classifier (fun _ _ => "scan"%string)
              (fun _ => true) NetworkUtils.demo_is_local MonitorApi.strict_settings
              true true Monitor.closing_writer MonitorApi.inbound_info)
    as (_ & _ & _ & H).
  apply H. reflexivity.
Defined.

Lemma filter_local_threats_witness :
  NetworkUtils.demo_is_local "" "192.168.100.0/24" = false /\
  NetworkUtils.filter_local_threats NetworkUtils.demo_is_local [∅]
    "192.168.100.0/24" true = [] /\
  sublist
    (NetworkUtils.filter_local_threats NetworkUtils.demo_is_local
       NetworkUtils.demo_threats "192.168.100.0/24" true)
    (NetworkUtils.filter_local_threats NetworkUtils.demo_is_local
       NetworkUtils.demo_threats "192.168.100.0/24" false).
Proof.
  split; [reflexivity|].
  destruct (filter_local_threats_nested NetworkUtils.demo_is_local
              NetworkUtils.demo_threats "192.168.100.0/24") as (_ & Hsub & _ & _ & He).
  split; [apply He; reflexivity | exact Hsub].
Defined.

(* ===================================================================== *)
(** * Properties of the Kali signature detector *)
(* ===================================================================== *)

Section KaliFacts.
Import Kali.

Lemma analyze_packet_cases (p : packet_info) (uid now : string) (log : list alert) :
  (exists tool,
      tool ∈ ["nmap_syn_scan"; "nmap_version_scan"; "ddos_flood"; "nikto_scan"]%string /\
      analyze_packet p uid now log
      = (Some (_create_attack_alert tool p uid now),
         log ++ [_create_attack_alert tool p uid now]) /\
      (tool = "ddos_flood"%string -> _detect_flood_attack p = true) /\
      (tool = "nikto_scan"%string ->
       _detect_web_attack p = true /\ _detect_flood_attack p = false)) \/
  (analyze_packet p uid now log = (None, log) /\
   _detect_nmap_scan p = false /\ _detect_port_scan p = false /\
   _detect_flood_attack p = false /\ _detect_web_attack p = false).
Proof.
  unfold analyze_packet.
  destruct (_detect_nmap_scan p) eqn:H1.
  { left. exists "nmap_syn_scan"%string. split; [repeat constructor|].
    split; [reflexivity|]. split; discriminate. }
  destruct (_detect_port_scan p) eqn:H2.
  { left. exists "nmap_version_scan"%string. split; [repeat constructor|].
    split; [reflexivity|]. split; discriminate. }
  destruct (_detect_flood_attack p) eqn:H3.
  { left. exists "ddos_flood"%string. split; [repeat constructor|].
    split; [reflexivity|]. split; [reflexivity|discriminate]. }
  destruct (_detect_web_attack p) eqn:H4.
  { left. exists "nikto_scan"%string. split; [repeat constructor|].
    split; [reflexivity|]. split; [discriminate|auto]. }
  right. auto.
Qed.

(** X24.  What the Kali detector can report.  [analyze_packet] either
    returns nothing and leaves the log of detected attacks alone, or
    returns one alert and appends exactly that alert to the log.  The
    alert names one of four tools (nmap_syn_scan, nmap_version_scan,
    ddos_flood, nikto_scan) and carries the type, level and description
    of that tool's signature, confidence 0.85, and is not blocked; its
    type is "Reconnaissance" or "Flood Attacks", so the signatures of
    SQLMap, Metasploit, Hydra and Aircrack are never reported.  A flood
    is only reported for a packet of more than 1000 bytes, and a Nikto
    scan only for one of more than 500 bytes. *)
Theorem kali_alert_shape (p : packet_info) (uid now : string) (log : list alert) :
  match analyze_packet p uid now log with
  | (Some a, log') =>
      log' = log ++ [a] /\
      tool_detected a
        ∈ ["nmap_syn_scan"; "nmap_version_scan"; "ddos_flood"; "nikto_scan"]%string /\
      attack_signatures !! tool_detected a
      = Some (mkSignature (description a) (attack_type a) (threat_level a)) /\
      attack_type a ∈ ["Reconnaissance"; "Flood Attacks"]%string /\
      (attack_type a = "Flood Attacks"%string <-> tool_detected a = "ddos_flood"%string) /\
      confidence a = SIGNATURE_CONFIDENCE /\ blocked a = false /\
      alert_id a = uid /\ raw_data a = p /\
      (tool_detected a = "ddos_flood"%string -> 1000 < default 0 (packet_size p)) /\
      (tool_detected a = "nikto_scan"%string -> 500 < default 0 (packet_size p))
  | (None, log') => log' = log
  end.
Proof.
  destruct (analyze_packet_cases p uid now log)
    as [(tool & Hin & -> & Hflood & Hweb)|[-> _]]; [|reflexivity].
  assert (forall b c : bool, b && c = true -> b = true) as Hand
    by (intros [] []; simpl; congruence).
  split; [reflexivity|]. split; [exact Hin|]. simpl.
  assert (1000 < default 0 (packet_size p) \/ tool <> "ddos_flood"%string) as Hf.
  { destruct (String.eqb_spec tool "ddos_flood") as [E|E]; [left|right; exact E].
    specialize (Hflood E). unfold _detect_flood_attack in Hflood.
    destruct (source_ip p) as [ip|]; [|discriminate].
    destruct (negb (String.eqb ip "")); [|discriminate].
    apply Hand, Hand in Hflood. apply Z.ltb_lt. exact Hflood. }
  assert (500 < default 0 (packet_size p) \/ tool <> "nikto_scan"%string) as Hn.
  { destruct (String.eqb_spec tool "nikto_scan") as [E|E]; [left|right; exact E].
    destruct (Hweb E) as [Hw _]. unfold _detect_web_attack in Hw.
    destruct (port_in _ _); [|discriminate]. apply Z.ltb_lt. exact Hw. }
  repeat (apply elem_of_cons in Hin as [->|Hin];
          [vm_compute attack_signatures in *; simpl;
           repeat split; try reflexivity; try discriminate; try (repeat constructor);
           try (intros _; destruct Hf as [?|?]; [assumption|congruence]);
           try (intros _; destruct Hn as [?|?]; [assumption|congruence])|]).
  apply elem_of_nil in Hin. destruct Hin.
Qed.

(** X25.  Which packets the Kali detector flags.  A TCP packet whose
    flags are exactly SYN is always reported as an Nmap SYN scan of level
    MEDIUM, whatever its port, size or addresses.  A packet of more than
    1000 bytes whose source address is neither empty nor starts with
    "127." or "192.168.100." is always reported.  A packet that is not
    TCP and whose size is between 100 and 500 bytes is never reported. *)
Theorem kali_verdicts (p : packet_info) (uid now : string) (log : list alert) :
  (protocol p = Some 6 -> tcp_flags p = Some 2 ->
   exists a, analyze_packet p uid now log = (Some a, log ++ [a]) /\
             tool_detected a = "nmap_syn_scan"%string /\
             attack_type a = "Reconnaissance"%string /\
             threat_level a = "MEDIUM"%string) /\
  (forall ip, source_ip p = Some ip -> ip <> ""%string ->
              String.prefix "127." ip = false ->
              String.prefix "192.168.100." ip = false ->
              1000 < default 0 (packet_size p) ->
              exists a, analyze_packet p uid now log = (Some a, log ++ [a])) /\
  (protocol p <> Some 6 -> 100 <= default 0 (packet_size p) <= 500 ->
   analyze_packet p uid now log = (None, log)).
Proof.
  split; [|split].
  - intros Hp Hf. unfold analyze_packet, _detect_nmap_scan.
    rewrite !bool_decide_eq_true_2 by assumption. simpl.
    eexists. split; [reflexivity|]. simpl. auto.
  - intros ip Hip Hne H127 H192 Hsize.
    destruct (analyze_packet_cases p uid now log)
      as [(tool & _ & -> & _)|(_ & _ & _ & Hfl & _)]; [eexists; reflexivity|].
    exfalso. unfold _detect_flood_attack in Hfl. rewrite Hip, H127, H192 in Hfl.
    apply String.eqb_neq in Hne. rewrite Hne in Hfl. simpl in Hfl.
    apply Z.ltb_lt in Hsize. rewrite Hsize in Hfl. discriminate.
  - intros Hp [Hlo Hhi]. unfold analyze_packet.
    unfold _detect_nmap_scan, _detect_port_scan, _detect_flood_attack,
      _detect_web_attack.
    rewrite !bool_decide_eq_false_2 by exact Hp. simpl.
    assert ((default 0 (packet_size p) <? 100) = false) as -> by (apply Z.ltb_ge; lia).
    assert ((1000 <? default 0 (packet_size p)) = false) as -> by (apply Z.ltb_ge; lia).
    assert ((500 <? default 0 (packet_size p)) = false) as -> by (apply Z.ltb_ge; lia).
    rewrite !andb_false_r.
    destruct (source_ip p) as [ip|]; [destruct (negb (String.eqb ip ""))|];
      simpl; destruct (port_in _ _); reflexivity.
Qed.

(** *** Statistics *)

Lemma kali_shape_aux (p : packet_info) (uid now : string) (log : list alert) :
  match analyze_packet p uid now log with
  | (Some a, log') =>
      log' = log ++ [a] /\
      (attack_type a = "Reconnaissance"%string \/ attack_type a = "Flood Attacks"%string)
  | (None, log') => log' = log
  end.
Proof.
  destruct (analyze_packet_cases p uid now log)
    as [(tool & Hin & -> & _)|[-> _]]; [|reflexivity].
  split; [reflexivity|].
  repeat (apply elem_of_cons in Hin as [->|Hin]; [vm_compute; auto|]).
  apply elem_of_nil in Hin. destruct Hin.
Qed.

Lemma count_into_total (key : string) (d : gmap string Z) :
  IDSApi.types_total (count_into key d) = IDSApi.types_total d + 1.
Proof. apply types_total_bump. Qed.

Lemma count_into_lookup (key k : string) (d : gmap string Z) :
  default 0 (count_into key d !! k)
  = default 0 (d !! k) + (if String.eqb key k then 1 else 0).
Proof.
  unfold count_into. destruct (String.eqb_spec key k) as [->|Hne].
  - rewrite lookup_insert_eq. reflexivity.
  - rewrite lookup_insert_ne by exact Hne. lia.
Qed.

Lemma statistics_fold (log : list alert) (st : statistics) :
  let st' :=
    fold_left
      (fun stats attack =>
         mkStatistics (total_attacks stats)
           (count_into (attack_type attack) (attack_types stats))
           (count_into (alert_source_ip attack) (source_ips stats)))
      log st in
  total_attacks st' = total_attacks st /\
  IDSApi.types_total (attack_types st')
  = IDSApi.types_total (attack_types st) + Z.of_nat (length log) /\
  IDSApi.types_total (source_ips st')
  = IDSApi.types_total (source_ips st) + Z.of_nat (length log) /\
  (forall ty, default 0 (attack_types st' !! ty)
              = default 0 (attack_types st !! ty) + count_type ty log).
Proof.
  revert st. induction log as [|a log IH]; intros st.
  - simpl. unfold count_type. simpl. repeat split; intros; lia.
  - simpl fold_left. specialize (IH (mkStatistics (total_attacks st)
           (count_into (attack_type a) (attack_types st))
           (count_into (alert_source_ip a) (source_ips st)))).
    simpl in IH. destruct IH as (H1 & H2 & H3 & H4). simpl.
    rewrite H1, H2, H3, !count_into_total. repeat split; try (simpl length; lia).
    intros ty. rewrite H4, count_into_lookup. unfold count_type. simpl List.filter.
    destruct (String.eqb (attack_type a) ty); simpl length; lia.
Qed.

(** X26.  The statistics of the Kali detector add up.  For any log of
    detected attacks, [total_attacks] is the length of the log, the
    counts per attack type add up to it and so do the counts per source
    address, and the count of a type is the number of logged alerts of
    that type.  For a log filled by [analyze_packet] alone the log never
    shrinks, and every attack is counted under "Reconnaissance" or
    "Flood Attacks". *)
Theorem kali_statistics_add_up (log : list alert) :
  total_attacks (get_attack_statistics log) = Z.of_nat (length log) /\
  IDSApi.types_total (attack_types (get_attack_statistics log))
  = total_attacks (get_attack_statistics log) /\
  IDSApi.types_total (source_ips (get_attack_statistics log))
  = total_attacks (get_attack_statistics log) /\
  (forall ty, default 0 (attack_types (get_attack_statistics log) !! ty)
              = count_type ty log) /\
  (forall packets,
      let log' := analyze_all packets [] in
      (length log' <= length packets)%nat /\
      default 0 (attack_types (get_attack_statistics log') !! "Reconnaissance"%string)
      + default 0 (attack_types (get_attack_statistics log') !! "Flood Attacks"%string)
      = total_attacks (get_attack_statistics log')).
Proof.
  pose proof (statistics_fold log (mkStatistics (Z.of_nat (length log)) ∅ ∅)) as H.
  simpl in H. destruct H as (H1 & H2 & H3 & H4).
  fold (get_attack_statistics log) in H1, H2, H3, H4.
  assert (IDSApi.types_total ∅ = 0) as He by reflexivity.
  rewrite He in H2, H3.
  split; [exact H1|]. split; [rewrite H2, H1; lia|]. split; [rewrite H3, H1; lia|].
  split; [intros ty; rewrite H4, lookup_empty; simpl; lia|].
  intros packets log'.
  assert (forall pk l,
             (length (analyze_all pk l) <= length l + length pk)%nat /\
             (count_type "Reconnaissance" l + count_type "Flood Attacks" l
              = Z.of_nat (length l) ->
              count_type "Reconnaissance" (analyze_all pk l)
              + count_type "Flood Attacks" (analyze_all pk l)
              = Z.of_nat (length (analyze_all pk l)))) as Hall.
  { induction pk as [|[[p uid] now] pk IHpk]; intros l; [simpl; split; [lia|auto]|].
    simpl analyze_all. destruct (IHpk (snd (analyze_packet p uid now l))) as [Hlen Hcnt].
    pose proof (kali_shape_aux p uid now l) as Hs.
    destruct (analyze_packet p uid now l) as [[a|] l'']; simpl in *.
    - destruct Hs as (-> & Hty). rewrite length_app in Hlen. simpl in Hlen.
      split; [lia|]. intros Hl. apply Hcnt. unfold count_type in *.
      rewrite !List.filter_app, !length_app. simpl.
      destruct Hty as [->| ->]; simpl; lia.
    - subst l''. split; [lia|exact Hcnt]. }
  destruct (Hall packets []) as [Hlen Hcnt]. simpl in Hlen.
  split; [exact Hlen|].
  pose proof (statistics_fold log' (mkStatistics (Z.of_nat (length log')) ∅ ∅)) as H'.
  simpl in H'. destruct H' as (H1' & _ & _ & H4').
  fold (get_attack_statistics log') in H1', H4'.
  rewrite !H4', H1', !lookup_empty. simpl. apply Hcnt. reflexivity.
Qed.

End KaliFacts.

(** *** The Kali detector on concrete packets *)

Lemma kali_verdicts_witness :
  (exists a,
      Kali.analyze_packet Kali.syn_probe "k1" "2025-01-01T00:00:00" []
      = (Some a, [] ++ [a]) /\
      Kali.tool_detected a = "nmap_syn_scan"%string /\
      Kali.attack_type a = "Reconnaissance"%string /\
      Kali.threat_level a = "MEDIUM"%string) /\
  Kali.analyze_packet Kali.dns_answer "k2" "2025-01-01T00:00:01" [] = (None, []).
Proof.
  split.
  - apply (proj1 (kali_verdicts Kali.syn_probe "k1" "2025-01-01T00:00:00" []));
      reflexivity.
  - apply (proj2 (proj2 (kali_verdicts Kali.dns_answer "k2" "2025-01-01T00:00:01" [])));
      [discriminate | simpl; lia].
Defined.
